(* ===== verification/_CoqProject ===== *)
-Q . S2P
Prelude.v
PyInt.v
Raster.v
ByteSeq.v
Checksum.v
Deflate.v
Huffman.v
Zlib.v
PngFilter.v
Png.v
PngWrite.v
Fonts.v
World.v
CreateIcon.v
Main.v
Contract.v
Steps.v
Liveness.v
