(* ===== verification/Prelude.v ===== *)
(** * Verification of the icon generator [src/icons/create_icons.py]

    ** The program

    [create_icons.py] is a batch script.  Run by the interpreter it first
    imports the imaging library and [os]; then, under the name [__main__],
    it calls [main].  [main] walks the list of sizes [16, 32, 48, 128]; for
    each size it builds the file name [icon<size>.png] and calls
    [create_icon], which
      - allocates a square RGBA raster filled with the blue (0,123,186,255),
      - opens a drawing context on that raster (an alias of the same object),
      - tries to load Arial at [max(size // 3, 12)] points and, on any
        exception, falls back to the built-in default font,
      - measures the bounding box of the text "U", computes the draw position
        [x = (size - text_width) // 2], [y = (size - text_height) // 2],
      - draws the text in opaque white,
      - saves the raster as PNG under the file name and prints one line.
    The only state shared between iterations is the outside world: the file
    system and standard output.  Only the loading of the font is inside
    the [try]: an exception raised by [Image.new], by [draw.textbbox] or by
    the save is not caught; it leaves [create_icon], leaves the loop of
    [main] and ends the process.

    ** The development, file by file

    - [Prelude] (this file): the execution monad [M] (state plus exceptions,
      the Python control flow the script uses: sequencing, [raise],
      [try/except], [for]), its notation in [exec_scope], its laws,
      simulation between computations over two state types
      ([simulates]) and invariants of computations ([preserves]), each
      with one rule per construct of the monad, the
      arithmetic of floor division shared by the other files, the tactics
      [zdiv] and [exec_unfold], the hint database [icon] and the rewrite
      databases [icon_rw] and [exec].
    - [PyInt]: the integer operations of the script: [floordiv] ([//]),
      [py_max] ([max]) and [str_int], the decimal text an f-string gives an
      integer (lines 17, 29, 30, 36 and 43), with a parser [int_of_str] as
      its specification.  Theorems: the laws of floor division and of
      [max], the round trip of the decimal text, injectivity of [str_int].
    - [Raster]: the exceptions, the image value behind [Image.new] (line
      11) and the painting behind [draw.text] (line 32): [Image] with its
      row-major pixel list, [new_image], [getpixel], [blend8] and [blend]
      (the library's integer alpha blend), [draw_bitmap].  Theorems: the
      blend is the rounded weighted mean and stays within a byte,
      well-formedness of rasters and its preservation, the pixel read after
      each operation.
    - [ByteSeq]: the content of a file as a list of bytes; the 32-bit and
      16-bit fields of the PNG format, readers that take a field from the
      front of the input and return the rest, with the two tactics that
      take a composition of readers one reader at a time ([read_with],
      [read_inv]), and the cutting of a sequence into pieces of bounded
      length ([pieces]).
    - [Checksum]: the CRC-32 that closes every chunk of a PNG file and
      the Adler-32 that closes the compressed stream, as 32-bit integers
      with the operations on bits written out.  Theorems: both stay
      within 32 bits; the table-driven CRC that encoders use computes the
      bit-by-bit CRC of the standard; the published check values.
    - [Deflate]: the compressed data format of the rows (RFC 1951), read
      bit by bit: [inflate] takes stored blocks, blocks with the fixed
      Huffman codes and blocks that carry their own codes, with the
      canonical codes built from code lengths ([build], [decode]) and the
      copies from the output already produced ([copy_back]); the
      interface [Deflater] of a compressor with its law [DeflateLaws]
      (what was compressed inflates to the same bytes and leaves the
      bytes that follow), and the compressor that stores
      ([stored_deflater]).  Theorems: the round trip of stored blocks of
      every length; streams produced by zlib with fixed and with dynamic
      codes inflate to their text.
    - [Huffman]: the writer's side of the canonical codes: [code_word]
      and [encode], and [fixed_deflater], a compressor that writes one
      block of literals in the fixed codes.  Theorems: [decode_encode],
      for every table of code lengths that does not oversubscribe the
      code space the decoder reads back the symbol that was encoded and
      leaves the bits that follow; [inflate_fixed_block], the round trip
      of the compressor; its bytes for a sample are zlib's.
    - [Zlib]: the wrapper of the compressed stream inside a PNG file
      (RFC 1950): header, deflate blocks, Adler-32 of the data.
      [zlib_compress] is written over a [Deflater], [zlib_decompress]
      over [inflate].  Theorem: what was compressed is read back, for
      every compressor that meets [DeflateLaws].
    - [PngFilter]: the five row filters of the format with the Paeth
      predictor, filtering and its inverse over rows and over images,
      and [adaptive], the choice per row by the least sum of distances
      from zero that encoders use.  Theorems: unfiltering inverts
      filtering, byte by byte, row by row and over an image, whatever
      filter is chosen for each row.
    - [Png]: the frame of a PNG file (signature, header chunk, end
      chunk, data chunks with their CRC), [png_decode], the reference
      reader of the development for 8-bit RGBA files (every CRC checked,
      the data chunks joined, the stream decompressed by
      [zlib_decompress], the rows unfiltered, nothing left over), and
      what [img.save(filename, 'PNG')] (line 35) asks of the encoder, as
      the class [PngCodec] (an encoder that may refuse an image, the
      bytes a refused image leaves in the file, whether a failed save
      removes a file it created) with the laws [PngLaws]: RGBA images
      with a pixel and sides below 2^31 are encoded; what was encoded
      is read by [png_decode] as the same image; the bytes start with
      the signature of the format and the header chunk of the image (its
      sides, eight bits a channel, colour with alpha, the CRC of the
      chunk) and end with the end chunk; what a refused image leaves is
      not read as an image.  [png_info] reads the header of a file
      without decoding the pixels.  Theorems: the soundness of the reader
      (what it returns is a well-formed RGBA raster of bytes with the
      sides of the header) and the consequences of the laws.
    - [PngWrite]: [png_codec], an encoder that writes real PNG files
      (signature, header chunk, the filtered rows as a zlib stream cut
      into data chunks, end chunk) over any compressor and any choice of
      filters, refusing an image without pixels after the header as the
      library does.  Theorem [png_codec_laws]: it meets [PngLaws] for
      every compressor that meets [DeflateLaws] and every choice of
      filters.  [stored_codec] (stored blocks, no filter) and
      [huffman_codec] (fixed Huffman codes, adaptive filters) are
      instances.
    - [Fonts]: what the script asks of [ImageFont] (lines 15 to 25), as the
      class [FontSystem] (opening a font may raise; a default font exists;
      a font is one [draw.textbbox] measures or not; a font gives a
      bounding box and a coverage mask) with the laws [FontLaws];
      [bbox_at], [text_mask] and [text_origin] say how [draw.textbbox] and
      [draw.text] use a font.  [toy_system] is a concrete font system,
      with and without Arial installed and with and without a built-in
      font that can be measured, that meets the laws.
    - [World]: the state the script runs in (the heap of image objects, the
      file system as bytes by path, the paths that cannot be written, the
      installed modules, standard output) and each library call of the
      script as a computation over it: [import_module], [import_from],
      [Image_new], [ImageDraw_Draw], [ImageFont_truetype],
      [ImageFont_load_default], [ImageDraw_textbbox], [ImageDraw_text],
      [Image_save], [print].  The drawing context holds a reference to the
      image, as in the library, so that what is drawn is what is saved.
      A save the encoder refuses has opened the file before: it leaves
      the bytes written so far, or removes the file if the save created
      it ([failed_save]).  [read_png] is what [png_decode] finds at a
      path.
      Theorems: the equation of each call, the aliasing of image and
      context, and that every call keeps the image objects well formed
      ([wf_world]).
    - [CreateIcon]: [create_icon] (lines 9 to 36), statement by statement,
      and the values it computes read as functions of the size
      ([font_size], [chosen_font], [measured], [text_position], [ink_box],
      [icon_image], [icon_bytes], [icon_world]).  Theorems: the outcome of
      the call on every branch (returns, [ValueError] for a negative size
      or a font that is not measured, [OSError], the encoder's
      exception with what it leaves at the path), the saved file is a PNG
      of a square, well
      formed and opaque raster, its pixels are those of the picture
      [icon_pixel], the corners are blue, the font fallback, the frame of
      the call, idempotence, the round trip of the bytes, the frame of the
      PNG file (signature, header chunk with the size, end chunk), and
      where the glyph lands: the margins of the ink box, which show that
      the text is centred only for fonts whose box starts at the origin,
      and that it would be for every font with the offset of the box taken
      off the anchor ([centred_position]).
    - [Main]: [main] (lines 38 to 44), the file as the interpreter runs it
      ([script]: the imports of lines 6 and 7, the entry point of lines 46
      and 47) and the exit status.  Theorems: the four icons and the four
      lines when every file can be written, the stop at the first failure
      with what is left behind, the file names and their injectivity,
      independence of the files from the order of the sizes, the exit
      status (0 exactly when every icon can be made), the import error,
      the silence of the file when imported as a module, and that a second
      run changes no file.
    - [Contract]: what the script promises, without rasters, fonts, bytes
      or heap (Module [Abs]: [render] and [driver] over files by
      dimensions, locked paths and a log), the abstraction [abs] from
      worlds, and the equivalence [obs_equiv] of worlds that look the same
      from outside, with its [Proper] instances.  Theorems: [create_icon]
      refines [render] and [main] refines [driver], error cases included;
      [main] does not depend on the heap.
    - [Steps]: the loop of [main] one iteration at a time, as the step
      relation [step] on configurations, with the same as a function
      ([next], [run]).  Theorems: the steps reach the exit [main] reaches
      and no other, they terminate within one step more than there are
      sizes, and, by induction on the steps, the invariant [inv], the
      frame and the well-formedness of the heap that hold at every point
      of a run.
    - [Liveness]: [eventually], the states every run is bound to reach.
      Theorems: every run of the driver exits; when every icon can be made
      each is eventually in its file and stays there, and the run ends
      with status 0.

    Later files import earlier ones; the theorems of [Main], [Contract],
    [Steps] and [Liveness] are proved from the equations of [CreateIcon]
    ([create_icon_cases] and the [run_create_icon] family), and those of
    [CreateIcon] from the equations of the calls in [World] and the pixel
    lemmas of [Raster] and [Fonts].  Theorems are stated for every
    [FontSystem] and every [PngCodec]; [PngLaws] is assumed where a file
    must have been written, [FontLaws] where the ranges of the coverage
    matter, which includes reading a file back as the image that was
    saved.  That [draw.textbbox] measures the chosen font ([measured]) is
    a hypothesis of every statement about a call that gets past line 25:
    current releases of the imaging library measure every font, releases
    before 9.2 raise [ValueError] for the built-in font, and the script
    does not guard the call.  Each theorem with a hypothesis is applied
    to a concrete world, font system and codec after the sections.

    ** Numbers, bounds and fuel

    Integers are Python integers: unbounded, modelled as [Z] with no
    wrap-around; [//] is floor division, which is [Z.div] for the non-zero
    literal divisors of the script.  Colour channels are bytes, modelled as
    [Z] with the range 0..255 stated as an invariant ([valid_colour]) and
    proved of every pixel of the icon; the bytes of a file are
    [Byte.byte].  A side of an image is below 2^31 where a file is
    written, the limit of the PNG header's fields.  The digit loop of
    [str_int] runs on the fuel [digits_fuel n], one more than the binary
    logarithm of [n]; it is shown to suffice for every [n]
    ([parse_str_int]) and more fuel changes nothing.  [run] of [Steps]
    takes the number of steps as fuel; one more than the number of sizes
    reaches the exit.  The checksums of the PNG format are 32-bit
    quantities, modelled as [Z] with [Z.lxor], [Z.shiftr] and [Z.testbit]
    and proved to stay below 2^32; lengths of chunks and of stored blocks
    are 32-bit and 16-bit fields, and the encoder cuts its data so that
    they fit (data chunks of at most 65536 bytes, stored blocks of at most
    65535).  The readers that loop over chunks run on the length of
    their input as fuel: every chunk takes 12 bytes at least
    ([read_chunk_length]), and with more fuel the same is read
    ([read_idats_fuel]).  [inflate] runs on the number of bytes of its
    input for the blocks, each of which takes eight bits at least, on the
    number of bits left for the symbols of a block, each of which takes
    one bit at least, and on the number of code lengths for the lengths
    of a block's own codes; no stream is refused for want of fuel
    ([inflate_fuel], [inflate_codes_fuel], [read_lengths_fuel]), and the
    round trips are proved with that fuel.  Code lengths are at most 15
    bits, distances at most 32768, as the format has them.

    ** What is not modelled

    The search for repeated strings and the choice of block kinds by
    which zlib compresses, the FreeType rasteriser and the operating
    system's file semantics beyond "a write to a path succeeds or raises
    [OSError]" are library code the script only calls; the development
    keeps them behind interfaces ([Deflater], [PngCodec], [FontSystem])
    and states the laws it relies on.  The format itself is modelled on
    the reader's side: [png_decode] reads what any encoder may write for
    an 8-bit RGBA image without interlacing, and a file the library
    wrote for the 16-pixel icon, compressed by zlib with dynamic codes,
    is read back as the icon ([icon16_compressed_read]).  The
    compressors of the development store or use the fixed codes without
    copies, so their bytes between the header and the end chunk differ
    from the library's while both are files of the format that the
    reader takes.  The reader refuses interlaced files, other colour
    types and bit depths, and chunks other than the header, data and end
    chunk, none of which the library writes for this image.  Whether the
    encoder takes an image without pixels (a size of 0) is left open by
    the laws; in the library it does not, and [png_codec] refuses it.
    Whether a failed save removes the file it created depends on the
    release of the library and is a field of the codec.  Two paths that
    name the same file, a disk that fills while the file is written and
    a failing [print] are outside the file system of the model.  Format
    names other than 'PNG' are unknown to [Image_save].  The rounding of
    bounding boxes to integers inside the library, the shebang and the
    docstring of lines 1 to 4, and the traceback the interpreter prints
    for an uncaught exception are outside the model.

    ** Open ends

    Glyph-fits-in-icon facts for the concrete fonts at the four sizes; a
    compressor with copies and dynamic codes proved against [inflate]. *)

From Stdlib Require Import ZArith Lia.
From stdpp Require Import base tactics option list.

Local Open Scope Z_scope.

(** ** Scopes, hint databases and tactics *)

Declare Scope exec_scope.
Delimit Scope exec_scope with exec.

Create HintDb icon.
Create Rewrite HintDb icon_rw.
Create Rewrite HintDb exec.

(** Linear arithmetic that also sees [/] and [mod] by a constant. *)
Ltac zdiv := intros; Z.to_euclidean_division_equations; lia.

(** ** Outcomes and the execution monad *)

(** The result of running a piece of Python: a value, or an exception on its
    way up the stack. *)
Inductive outcome (E A : Type) : Type :=
| Ret (a : A)
| Raise (e : E).
Arguments Ret {E A} a.
Arguments Raise {E A} e.

(** A computation reads and writes the state [St] and ends in an outcome.
    The state reached when an exception is raised is kept: what was written
    before the exception stays written. *)
Definition M (St E A : Type) : Type := St -> outcome E A * St.

Section Exec.
Context {St E : Type}.

Definition ret {A} (a : A) : M St E A := fun s => (Ret a, s).

Definition bind {A B} (c : M St E A) (k : A -> M St E B) : M St E B :=
  fun s => match c s with
           | (Ret a, s') => k a s'
           | (Raise e, s') => (Raise e, s')
           end.

Definition raise {A} (e : E) : M St E A := fun s => (Raise e, s).

(** [try: c except: h], with a handler that catches every exception. *)
Definition try_except {A} (c : M St E A) (h : E -> M St E A) : M St E A :=
  fun s => match c s with
           | (Ret a, s') => (Ret a, s')
           | (Raise e, s') => h e s'
           end.

Definition gets {A} (f : St -> A) : M St E A := fun s => (Ret (f s), s).

Definition modify (f : St -> St) : M St E unit := fun s => (Ret tt, f s).

(** [for x in l: body x]: the body's exception ends the loop. *)
Fixpoint for_each {A} (l : list A) (body : A -> M St E unit) : M St E unit :=
  match l with
  | [] => ret tt
  | x :: l' => bind (body x) (fun _ => for_each l' body)
  end.

End Exec.

(** [c] keeps the invariant [I]: started in a state with [I] it ends, with
    a value or with an exception, in a state with [I]. *)
Definition preserves {St E A} (I : St -> Prop) (c : M St E A) : Prop :=
  forall s, I s -> I (c s).2.

(** From states related by [R], [c1] and [c2] end with the same outcome in
    related states. *)
Definition simulates {S1 S2 E A} (R : S1 -> S2 -> Prop)
    (c1 : M S1 E A) (c2 : M S2 E A) : Prop :=
  forall s1 s2, R s1 s2 -> (c1 s1).1 = (c2 s2).1 /\ R (c1 s1).2 (c2 s2).2.

Notation "x <- c ;; k" := (bind c (fun x => k))
  (at level 100, c at next level, right associativity) : exec_scope.
Notation "c ;; k" := (bind c (fun _ => k))
  (at level 100, right associativity) : exec_scope.

(** Opens the constructs of the monad, to reason on the outcome of the
    first computation. *)
Ltac exec_unfold :=
  unfold preserves, simulates, bind, ret, raise, try_except, gets, modify
    in *.

(** ** Laws of the monad *)

Section ExecLaws.
Context {St E : Type}.
Implicit Types s : St.

Lemma bind_ret_l {A B} (a : A) (k : A -> M St E B) s :
  bind (ret a) k s = k a s.
Proof. reflexivity. Qed.

Lemma bind_ret_r {A} (c : M St E A) s : bind c ret s = c s.
Proof. exec_unfold. destruct (c s) as [[a|e] s']; reflexivity. Qed.

Lemma bind_assoc {A B C} (c : M St E A) (k : A -> M St E B)
    (k' : B -> M St E C) s :
  bind (bind c k) k' s = bind c (fun a => bind (k a) k') s.
Proof. exec_unfold. destruct (c s) as [[a|e] s']; reflexivity. Qed.

Lemma bind_raise {A B} (e : E) (k : A -> M St E B) s :
  bind (raise e) k s = (Raise e, s).
Proof. reflexivity. Qed.

Lemma bind_Ret {A B} (c : M St E A) (k : A -> M St E B) s a s' :
  c s = (Ret a, s') -> bind c k s = k a s'.
Proof. exec_unfold. by intros ->. Qed.

Lemma bind_Raise {A B} (c : M St E A) (k : A -> M St E B) s e s' :
  c s = (Raise e, s') -> bind c k s = (Raise e, s').
Proof. exec_unfold. by intros ->. Qed.

Lemma try_except_Ret {A} (c : M St E A) h s a s' :
  c s = (Ret a, s') -> try_except c h s = (Ret a, s').
Proof. exec_unfold. by intros ->. Qed.

Lemma try_except_Raise {A} (c : M St E A) h s e s' :
  c s = (Raise e, s') -> try_except c h s = h e s'.
Proof. exec_unfold. by intros ->. Qed.

(** A handler that cannot raise makes the whole [try] total. *)
Lemma try_except_total {A} (c : M St E A) (h : E -> M St E A) s :
  (forall e s1, exists a s2, h e s1 = (Ret a, s2)) ->
  exists a s', try_except c h s = (Ret a, s').
Proof.
  intros Hh. exec_unfold.
  destruct (c s) as [[a|e] s1]; [eauto | apply Hh].
Qed.

Lemma for_each_nil {A} (body : A -> M St E unit) s :
  for_each [] body s = (Ret tt, s).
Proof. reflexivity. Qed.

Lemma for_each_cons {A} x (l : list A) (body : A -> M St E unit) s :
  for_each (x :: l) body s = bind (body x) (fun _ => for_each l body) s.
Proof. reflexivity. Qed.

Lemma for_each_app {A} (l1 l2 : list A) (body : A -> M St E unit) s :
  for_each (l1 ++ l2) body s
  = bind (for_each l1 body) (fun _ => for_each l2 body) s.
Proof.
  revert s. induction l1 as [|x l1 IH]; intros s; [reflexivity|].
  simpl. rewrite bind_assoc.
  destruct (body x s) as [[[]|e] s1] eqn:Hx.
  - rewrite !(bind_Ret _ _ _ _ _ Hx). apply IH.
  - rewrite !(bind_Raise _ _ _ _ _ Hx). reflexivity.
Qed.

(** The first failing iteration decides the outcome of the loop: the
    iterations before it have run, the ones after it have not. *)
Lemma for_each_stops {A} (l1 l2 : list A) x (body : A -> M St E unit)
    s s1 e s2 :
  for_each l1 body s = (Ret tt, s1) ->
  body x s1 = (Raise e, s2) ->
  for_each (l1 ++ x :: l2) body s = (Raise e, s2).
Proof.
  intros H1 Hx. rewrite for_each_app, (bind_Ret _ _ _ _ _ H1).
  rewrite for_each_cons. apply bind_Raise, Hx.
Qed.

End ExecLaws.

#[export] Hint Rewrite @bind_ret_l @bind_raise @for_each_nil @for_each_cons
  : exec.

(** ** Simulation between computations over two state types *)

Section Simulation.
Context {S1 S2 E : Type} (R : S1 -> S2 -> Prop).
Local Abbreviation simulates := (@simulates S1 S2 E _ R).

Lemma simulates_ret {A} (a : A) : simulates (ret a) (ret a).
Proof. intros s1 s2 HR. by split. Qed.

Lemma simulates_bind {A B} (c1 : M S1 E A) (c2 : M S2 E A)
    (k1 : A -> M S1 E B) (k2 : A -> M S2 E B) :
  simulates c1 c2 -> (forall a, simulates (k1 a) (k2 a)) ->
  simulates (bind c1 k1) (bind c2 k2).
Proof.
  intros Hc Hk s1 s2 HR. destruct (Hc s1 s2 HR) as [Ho HR'].
  unfold bind. destruct (c1 s1) as [[a|e] s1'], (c2 s2) as [[a'|e'] s2'];
    simpl in *; simplify_eq; [by apply Hk | by split].
Qed.

Lemma simulates_try_except {A} (c1 : M S1 E A) (c2 : M S2 E A)
    (h1 : E -> M S1 E A) (h2 : E -> M S2 E A) :
  simulates c1 c2 -> (forall e, simulates (h1 e) (h2 e)) ->
  simulates (try_except c1 h1) (try_except c2 h2).
Proof.
  intros Hc Hh s1 s2 HR. destruct (Hc s1 s2 HR) as [Ho HR'].
  unfold try_except.
  destruct (c1 s1) as [[a|e] s1'], (c2 s2) as [[a'|e'] s2'];
    simpl in *; simplify_eq; [by split | by apply Hh].
Qed.

(** A loop simulates a loop when the bodies do. *)
Lemma simulates_for_each {A} (l : list A) (b1 : A -> M S1 E unit)
    (b2 : A -> M S2 E unit) :
  (forall x, x ∈ l -> simulates (b1 x) (b2 x)) ->
  simulates (for_each l b1) (for_each l b2).
Proof.
  induction l as [|x l IH]; intros Hb; [apply simulates_ret|].
  simpl. apply simulates_bind; [apply Hb; by left|].
  intros _. apply IH. intros y Hy. apply Hb. by right.
Qed.

End Simulation.

(** ** Invariants of computations

    One rule per construct of the monad: an invariant kept by the parts of
    a computation is kept by the whole, whichever way it ends. *)

Section Preservation.
Context {St E : Type} (I : St -> Prop).
Local Abbreviation preserves := (@preserves St E _ I).

Lemma preserves_ret {A} (a : A) : preserves (ret a).
Proof. by intros s. Qed.

Lemma preserves_raise {A} (e : E) : preserves (raise (A:=A) e).
Proof. by intros s. Qed.

Lemma preserves_modify (f : St -> St) :
  (forall s, I s -> I (f s)) -> preserves (modify f).
Proof. intros Hf s. apply Hf. Qed.

Lemma preserves_bind {A B} (c : M St E A) (k : A -> M St E B) :
  preserves c -> (forall a, preserves (k a)) -> preserves (bind c k).
Proof.
  exec_unfold. intros Hc Hk s Hs. specialize (Hc s Hs).
  destruct (c s) as [[a|e] s']; [by apply Hk | done].
Qed.

Lemma preserves_try_except {A} (c : M St E A) (h : E -> M St E A) :
  preserves c -> (forall e, preserves (h e)) -> preserves (try_except c h).
Proof.
  exec_unfold. intros Hc Hh s Hs. specialize (Hc s Hs).
  destruct (c s) as [[a|e] s']; [done | by apply Hh].
Qed.

Lemma preserves_for_each {A} (l : list A) (body : A -> M St E unit) :
  (forall x, x ∈ l -> preserves (body x)) -> preserves (for_each l body).
Proof.
  induction l as [|x l IH]; intros Hb; [apply preserves_ret|].
  simpl. apply preserves_bind; [apply Hb; by left|].
  intros _. apply IH. intros y Hy. apply Hb. by right.
Qed.

End Preservation.

#[export] Hint Resolve preserves_ret preserves_raise preserves_modify
  preserves_bind preserves_try_except preserves_for_each : icon.

(** ** Lists *)

(** A result is what was returned.  As an instance, so that [inj Ret] takes
    an equation between results apart without looking into them. *)
#[global] Instance Ret_inj {E A} : Inj (=) (=) (@Ret E A).
Proof. by intros x y [= ->]. Qed.

(** One step of a fold from the left, as an equation to rewrite with:
    unfolding the fold in place would leave the step function to be
    compared by computation. *)
Lemma foldl_cons {A B} (f : A -> B -> A) (a : A) (x : B) (l : list B) :
  foldl f a (x :: l) = foldl f (f a x) l.
Proof. reflexivity. Qed.

(** In a list with an element satisfying a decidable [P], there is a first
    one. *)
Lemma Exists_first {A} (P : A -> Prop) `{!forall x, Decision (P x)}
    (l : list A) :
  Exists P l ->
  exists l1 x l2, l = l1 ++ x :: l2 /\ Forall (fun y => ~ P y) l1 /\ P x.
Proof.
  induction l as [|a l IH]; [by intros ?%Exists_nil|].
  destruct (decide (P a)) as [Ha|Ha].
  - intros _. by exists [], a, l.
  - intros [?|Hl]%Exists_cons; [done|].
    destruct (IH Hl) as (l1 & x & l2 & -> & Hl1 & Hx).
    exists (a :: l1), x, l2. by repeat constructor.
Qed.

(** ** Floor division *)

(** [n // 2] splits [n] into two halves that differ by at most one. *)
Lemma half_floor_bounds (n : Z) : 0 <= n - 2 * (n / 2) <= 1.
Proof. zdiv. Qed.

Lemma half_floor_le (n : Z) : 0 <= n -> 0 <= n / 2 <= n.
Proof. zdiv. Qed.

(** Row-major indexing of a [w]-wide raster. *)
Lemma rowmajor_range (w h x y : Z) :
  0 <= x < w -> 0 <= y < h -> 0 <= y * w + x < w * h.
Proof. nia. Qed.

Lemma rowmajor_div (w x y : Z) : 0 <= x < w -> (y * w + x) / w = y.
Proof.
  intros Hx. rewrite Z.add_comm, Z.div_add by lia.
  rewrite Z.div_small by lia. lia.
Qed.

Lemma rowmajor_mod (w x y : Z) : 0 <= x < w -> (y * w + x) mod w = x.
Proof.
  intros Hx. rewrite Z.add_comm, Z.mod_add by lia.
  apply Z.mod_small; lia.
Qed.

#[export] Hint Resolve half_floor_bounds rowmajor_range : icon.
#[export] Hint Rewrite rowmajor_div rowmajor_mod using lia : icon_rw.
