(* ===== verification/PyInt.v ===== *)
(** * Python integers and their decimal text

    The integer operations [create_icons.py] uses, as functions on [Z]:
    floor division [//], [max], and the conversion of an integer to its
    decimal text that an f-string performs on [{size}].  The parser
    [int_of_str] is the specification of the printer: [str_int] is correct
    because parsing its output gives the integer back. *)

From Stdlib Require Import ZArith Lia Ascii String.
From stdpp Require Import base tactics option list strings.
From S2P Require Import Prelude.

Local Open Scope Z_scope.

(** ** Operations *)

(** [a // b] on Python integers: the quotient rounded towards minus
    infinity.  The script divides by the literals 3 and 2 only. *)
Definition floordiv (a b : Z) : Z := a / b.

(** [max(a, b)] on two integers. *)
Definition py_max (a b : Z) : Z := if a <? b then b else a.

(** The character of a decimal digit [0 <= d <= 9]. *)
Definition digit_char (d : Z) : ascii := ascii_of_nat (48 + Z.to_nat d).

(** The digits of [n >= 0] pushed in front of [acc], least significant
    first, one per unit of fuel. *)
Fixpoint str_digits (fuel : nat) (n : Z) (acc : string) : string :=
  match fuel with
  | O => acc
  | S fuel' =>
      let acc' := String (digit_char (n mod 10)) acc in
      if n / 10 =? 0 then acc' else str_digits fuel' (n / 10) acc'
  end.

(** Fuel that covers every digit of [n]: one more than its binary length. *)
Definition digits_fuel (n : Z) : nat := S (Z.to_nat (Z.log2 n)).

(** [str(n)]: the decimal text of an integer, with a minus sign when it is
    negative. *)
Definition str_int (n : Z) : string :=
  if n <? 0 then String "-" (str_digits (digits_fuel (- n)) (- n) "")
  else str_digits (digits_fuel n) n "".

(** ** The reading direction, used as specification *)

Definition digit_of_char (c : ascii) : option Z :=
  let n := Z.of_nat (nat_of_ascii c) in
  if (48 <=? n) && (n <=? 57) then Some (n - 48) else None.

Fixpoint parse_digits (s : string) (acc : Z) : option Z :=
  match s with
  | EmptyString => Some acc
  | String c s' =>
      match digit_of_char c with
      | Some d => parse_digits s' (acc * 10 + d)
      | None => None
      end
  end.

Definition int_of_str (s : string) : option Z :=
  match s with
  | EmptyString => None
  | String c s' =>
      if Ascii.eqb c "-" then
        match s' with
        | EmptyString => None
        | _ => Z.opp <$> parse_digits s' 0
        end
      else parse_digits s 0
  end.

(** ** Floor division and max *)

Lemma floordiv_floor (a b : Z) :
  0 < b -> b * floordiv a b <= a < b * (floordiv a b + 1).
Proof. unfold floordiv. zdiv. Qed.

Lemma floordiv_unique (a b q : Z) :
  0 < b -> b * q <= a < b * (q + 1) -> floordiv a b = q.
Proof.
  unfold floordiv. intros Hb Hq. symmetry.
  apply (Z.div_unique_pos a b q (a - b * q)); lia.
Qed.

Lemma floordiv_mono (a a' b : Z) :
  0 < b -> a <= a' -> floordiv a b <= floordiv a' b.
Proof. unfold floordiv. intros. by apply Z.div_le_mono. Qed.

Lemma py_max_spec (a b : Z) : py_max a b = Z.max a b.
Proof. unfold py_max. destruct (Z.ltb_spec a b); lia. Qed.

Lemma py_max_lub (a b c : Z) : py_max a b <= c <-> a <= c /\ b <= c.
Proof. rewrite py_max_spec. lia. Qed.

Lemma py_max_ge_l (a b : Z) : a <= py_max a b.
Proof. rewrite py_max_spec. lia. Qed.

Lemma py_max_ge_r (a b : Z) : b <= py_max a b.
Proof. rewrite py_max_spec. lia. Qed.

#[export] Hint Resolve py_max_ge_l py_max_ge_r : icon.

(** ** Digits *)

Lemma digit_of_digit_char (d : Z) :
  0 <= d <= 9 -> digit_of_char (digit_char d) = Some d.
Proof.
  intros Hd. unfold digit_of_char, digit_char.
  rewrite nat_ascii_embedding by lia.
  replace (Z.of_nat (48 + Z.to_nat d)) with (48 + d) by lia.
  destruct (Z.leb_spec 48 (48 + d)), (Z.leb_spec (48 + d) 57);
    simpl; try lia.
  f_equal. lia.
Qed.

Lemma digit_char_not_minus (d : Z) :
  0 <= d <= 9 -> Ascii.eqb (digit_char d) "-" = false.
Proof.
  intros Hd. apply Ascii.eqb_neq. intros Heq.
  pose proof (digit_of_digit_char d Hd) as H. rewrite Heq in H.
  discriminate H.
Qed.

(** With fuel for every digit, the printed digits read back as [n],
    whatever follows them. *)
Lemma parse_str_digits (fuel : nat) (n : Z) (acc : string) :
  0 <= n < 10 ^ Z.of_nat fuel ->
  parse_digits (str_digits fuel n acc) 0 = parse_digits acc n.
Proof.
  revert n acc. induction fuel as [|fuel IH]; intros n acc Hn.
  - simpl in *. replace n with 0 by lia. reflexivity.
  - assert (Hd : 0 <= n mod 10 <= 9) by zdiv.
    cbn [str_digits]. destruct (Z.eqb_spec (n / 10) 0) as [H0|H0].
    + cbn [parse_digits]. rewrite digit_of_digit_char by done.
      f_equal. zdiv.
    + rewrite IH.
      * cbn [parse_digits]. rewrite digit_of_digit_char by done.
        f_equal. zdiv.
      * rewrite Nat2Z.inj_succ, Z.pow_succ_r in Hn by lia. zdiv.
Qed.

Lemma digits_fuel_enough (n : Z) : 0 <= n -> n < 10 ^ Z.of_nat (digits_fuel n).
Proof.
  intros Hn. unfold digits_fuel.
  rewrite Nat2Z.inj_succ, Z2Nat.id by apply Z.log2_nonneg.
  destruct (Z.eq_dec n 0) as [->|Hnz]; [reflexivity|].
  pose proof (Z.log2_spec n ltac:(lia)) as [_ Hlt].
  eapply Z.lt_le_trans; [exact Hlt|].
  apply Z.pow_le_mono_l. lia.
Qed.

(** The first character printed for a non-negative integer is a digit. *)
Lemma str_digits_head (fuel : nat) (n : Z) (acc : string) :
  0 <= n ->
  exists d s, str_digits (S fuel) n acc = String (digit_char d) s
              /\ 0 <= d <= 9.
Proof.
  revert n acc. induction fuel as [|fuel IH]; intros n acc Hn.
  - exists (n mod 10), acc. cbn [str_digits].
    split; [destruct (n / 10 =? 0); reflexivity | zdiv].
  - remember (S fuel) as f. cbn [str_digits].
    destruct (Z.eqb_spec (n / 10) 0).
    + exists (n mod 10), acc. split; [reflexivity | zdiv].
    + subst f. apply IH. zdiv.
Qed.

(** ** Printing then reading *)

Lemma int_of_str_nonneg (n : Z) :
  0 <= n -> int_of_str (str_digits (digits_fuel n) n "") = Some n.
Proof.
  intros Hn. unfold digits_fuel at 1.
  destruct (str_digits_head (Z.to_nat (Z.log2 n)) n "" Hn)
    as (d & s & Hs & Hd).
  pose proof (parse_str_digits (digits_fuel n) n "" ) as Hp.
  unfold digits_fuel in Hp at 2. rewrite Hs in *.
  unfold int_of_str. rewrite digit_char_not_minus by done.
  apply Hp. split; [done | by apply digits_fuel_enough].
Qed.

Lemma parse_str_int (n : Z) : int_of_str (str_int n) = Some n.
Proof.
  unfold str_int. destruct (Z.ltb_spec n 0) as [Hneg|Hpos].
  - pose proof (int_of_str_nonneg (- n) ltac:(lia)) as H.
    destruct (str_digits_head (Z.to_nat (Z.log2 (- n))) (- n) ""
                ltac:(lia)) as (d & s & Hs & Hd).
    unfold digits_fuel in *. rewrite Hs in *.
    unfold int_of_str in H |- *. rewrite digit_char_not_minus in H by done.
    cbn [Ascii.eqb Bool.eqb]. rewrite H. simpl. f_equal. lia.
  - by apply int_of_str_nonneg.
Qed.

Lemma str_int_inj : Inj (=) (=) str_int.
Proof.
  intros a b Hab. apply (f_equal int_of_str) in Hab.
  rewrite !parse_str_int in Hab. congruence.
Qed.

#[export] Existing Instance str_int_inj.

(** More fuel than the digits need changes nothing. *)
Lemma str_digits_more_fuel (f1 f2 : nat) (n : Z) (acc : string) :
  0 <= n < 10 ^ Z.of_nat (S f1) -> (S f1 <= f2)%nat ->
  str_digits f2 n acc = str_digits (S f1) n acc.
Proof.
  revert f2 n acc. induction f1 as [|f1 IH]; intros f2 n acc Hn Hf;
    (destruct f2 as [|f2]; [lia|]); cbn [str_digits];
    destruct (Z.eqb_spec (n / 10) 0) as [H0|H0]; try done.
  - exfalso. change (10 ^ Z.of_nat 1) with 10 in Hn. zdiv.
  - apply IH; [|lia]. rewrite Nat2Z.inj_succ, Z.pow_succ_r in Hn by lia. zdiv.
Qed.

(** ** Text built around a number *)

Lemma list_ascii_of_append (s t : string) :
  list_ascii_of_string (s +:+ t)
  = list_ascii_of_string s ++ list_ascii_of_string t.
Proof. induction s as [|c s IH]; simpl; [done | by rewrite IH]. Qed.

(** Cancelling a common suffix. *)
Lemma append_inj_r (s1 s2 t : string) : s1 +:+ t = s2 +:+ t -> s1 = s2.
Proof.
  intros H. apply (f_equal list_ascii_of_string) in H.
  rewrite !list_ascii_of_append in H. apply app_inv_tail in H.
  apply (f_equal string_of_list_ascii) in H.
  by rewrite !string_of_list_ascii_of_string in H.
Qed.

(** A number between a fixed prefix and a fixed suffix determines the text,
    and the text determines the number. *)
Lemma around_int_inj (pre post : string) (a b : Z) :
  pre +:+ str_int a +:+ post = pre +:+ str_int b +:+ post -> a = b.
Proof.
  intros H. apply String.app_inj in H. apply append_inj_r in H.
  by apply (inj str_int).
Qed.

(** ** What the conversion guarantees *)

(** C12: the decimal text of an integer reads back as that integer, for
    every integer, negative ones included; so two integers with the same
    text are equal. *)
Theorem str_int_roundtrip (n : Z) :
  int_of_str (str_int n) = Some n
  /\ (forall m, str_int n = str_int m -> n = m).
Proof. split; [apply parse_str_int | intros m; apply (inj str_int)]. Qed.


