(* ===== verification/Raster.v ===== *)
(** * Raster images

    The image object of the imaging library as [create_icons.py] uses it: an
    RGBA buffer created by [Image.new] with one fill colour, read pixel by
    pixel, and painted through a coverage mask by the drawing context
    ([draw_bitmap], the operation [draw.text] ends in).  Pixels are kept in
    row-major order; a colour is the 4-tuple the script writes, each channel
    a byte kept as a [Z] in 0..255. *)

From Stdlib Require Import ZArith Lia String.
From stdpp Require Import base tactics option list strings.
From S2P Require Import Prelude.

Local Open Scope Z_scope.

(** ** Exceptions the script can meet *)

Inductive exn : Type :=
| OSError      (* a file cannot be opened, read or written *)
| ValueError   (* an argument out of its domain *)
| KeyError     (* no handler under a name *)
| SystemError  (* an internal routine of a library gave up *)
| ImportError. (* a module is not installed *)

#[export] Instance exn_eq_dec : EqDecision exn.
Proof. solve_decision. Defined.

(** ** Colours *)

Definition Colour : Type := Z * Z * Z * Z.

Definition red (c : Colour) : Z := c.1.1.1.
Definition green (c : Colour) : Z := c.1.1.2.
Definition blue (c : Colour) : Z := c.1.2.
Definition alpha (c : Colour) : Z := c.2.

Definition byte (z : Z) : Prop := 0 <= z <= 255.

Definition valid_colour (c : Colour) : Prop :=
  byte (red c) /\ byte (green c) /\ byte (blue c) /\ byte (alpha c).

Definition opaque (c : Colour) : Prop := alpha c = 255.

#[export] Instance byte_dec z : Decision (byte z).
Proof. unfold byte. apply _. Defined.

#[export] Instance valid_colour_dec c : Decision (valid_colour c).
Proof. unfold valid_colour. apply _. Defined.

(** The 8-bit blend of the imaging library:
    [in1 * (255 - mask) + in2 * mask], divided by 255 with rounding, the
    division done with two shifts. *)
Definition blend8 (mask in1 in2 : Z) : Z :=
  let tmp := in1 * (255 - mask) + in2 * mask + 128 in
  Z.shiftr (Z.shiftr tmp 8 + tmp) 8.

(** Blending ink over a destination pixel, channel by channel. *)
Definition blend (mask : Z) (dst ink : Colour) : Colour :=
  (blend8 mask (red dst) (red ink), blend8 mask (green dst) (green ink),
   blend8 mask (blue dst) (blue ink), blend8 mask (alpha dst) (alpha ink)).

(** ** Images *)

Record Image : Type := mkImage {
  im_mode : string;
  im_size : Z * Z;
  im_data : list Colour;
}.

Definition width (img : Image) : Z := (im_size img).1.
Definition height (img : Image) : Z := (im_size img).2.

(** The value [Image.new(mode, size, color)] builds: a buffer of [size]
    filled with [color]; a negative dimension is refused. *)
Definition new_image (mode : string) (size : Z * Z) (color : Colour)
  : outcome exn Image :=
  if (size.1 <? 0) || (size.2 <? 0) then Raise ValueError
  else Ret {| im_mode := mode; im_size := size;
              im_data := replicate (Z.to_nat (size.1 * size.2)) color |}.

Definition in_image (img : Image) (x y : Z) : bool :=
  (0 <=? x) && (x <? width img) && (0 <=? y) && (y <? height img).

(** [img.getpixel((x, y))]; [None] stands for the library's [IndexError]. *)
Definition getpixel (img : Image) (xy : Z * Z) : option Colour :=
  if in_image img xy.1 xy.2
  then im_data img !! Z.to_nat (xy.2 * width img + xy.1)
  else None.

(** A coverage mask: a rectangle of [mask_size] whose cell [(u, v)] holds
    how much ink falls on it, 0 for none and 255 for all. *)
Record Mask : Type := mkMask {
  mask_size : Z * Z;
  mask_at : Z -> Z -> Z;
}.

Definition in_mask (m : Mask) (u v : Z) : bool :=
  (0 <=? u) && (u <? (mask_size m).1) && (0 <=? v) && (v <? (mask_size m).2).

(** What painting does to the pixel at [(x, y)]: inside the mask placed at
    [coord] the ink is blended over it, outside it is left alone. *)
Definition paste_pixel (coord : Z * Z) (m : Mask) (ink : Colour)
    (x y : Z) (p : Colour) : Colour :=
  let u := x - coord.1 in
  let v := y - coord.2 in
  if in_mask m u v then blend (mask_at m u v) p ink else p.

(** [draw_bitmap(coord, mask, ink)]: paint [ink] through [mask] with the
    mask's top-left cell at [coord].  Cells that fall outside the image are
    clipped. *)
Definition draw_bitmap (img : Image) (coord : Z * Z) (m : Mask)
    (ink : Colour) : Image :=
  {| im_mode := im_mode img;
     im_size := im_size img;
     im_data :=
       imap (fun i p =>
               paste_pixel coord m ink
                 (Z.of_nat i mod width img) (Z.of_nat i / width img) p)
            (im_data img) |}.

(** ** Well-formed images *)

Record wf_image (img : Image) : Prop := {
  wf_width : 0 <= width img;
  wf_height : 0 <= height img;
  wf_data : length (im_data img) = Z.to_nat (width img * height img);
}.

Definition all_pixels (P : Colour -> Prop) (img : Image) : Prop :=
  Forall P (im_data img).

(** ** Blending stays within a byte *)

(** The two shifts divide by 255, rounding to nearest. *)
Lemma shift_div255 (x : Z) :
  0 <= x <= 65025 ->
  Z.shiftr (Z.shiftr (x + 128) 8 + (x + 128)) 8 = (x + 127) / 255.
Proof.
  intros Hx. rewrite !Z.shiftr_div_pow2 by lia. change (2 ^ 8) with 256.
  zdiv.
Qed.

Lemma blend8_byte (m a b : Z) :
  byte m -> byte a -> byte b -> byte (blend8 m a b).
Proof.
  unfold byte, blend8. intros Hm Ha Hb. rewrite !Z.shiftr_div_pow2 by lia.
  change (2 ^ 8) with 256.
  assert (128 <= a * (255 - m) + b * m + 128 <= 65153) by nia.
  zdiv.
Qed.

Lemma blend8_0 (a b : Z) : byte a -> blend8 0 a b = a.
Proof.
  unfold byte, blend8. intros Ha. rewrite !Z.shiftr_div_pow2 by lia.
  change (2 ^ 8) with 256. zdiv.
Qed.

Lemma blend8_255 (a b : Z) : byte b -> blend8 255 a b = b.
Proof.
  unfold byte, blend8. intros Hb. rewrite !Z.shiftr_div_pow2 by lia.
  change (2 ^ 8) with 256. zdiv.
Qed.

(** Blending two equal bytes gives that byte, whatever the coverage. *)
Lemma blend8_same (m a : Z) : byte m -> byte a -> blend8 m a a = a.
Proof.
  unfold byte, blend8. intros Hm Ha. rewrite !Z.shiftr_div_pow2 by lia.
  change (2 ^ 8) with 256.
  replace (a * (255 - m) + a * m + 128) with (a * 255 + 128) by lia.
  zdiv.
Qed.

Lemma blend_valid (m : Z) (dst ink : Colour) :
  byte m -> valid_colour dst -> valid_colour ink ->
  valid_colour (blend m dst ink).
Proof.
  intros Hm (?&?&?&?) (?&?&?&?).
  repeat split; apply blend8_byte; assumption.
Qed.

Lemma blend_opaque (m : Z) (dst ink : Colour) :
  byte m -> opaque dst -> opaque ink -> opaque (blend m dst ink).
Proof.
  unfold opaque, blend, alpha. simpl. intros Hm -> ->.
  apply blend8_same; [assumption | unfold byte; lia].
Qed.

Lemma blend_full (dst ink : Colour) : valid_colour ink -> blend 255 dst ink = ink.
Proof.
  destruct ink as [[[r g] b] a]. intros (?&?&?&?). unfold blend.
  simpl in *. by rewrite !blend8_255.
Qed.

Lemma blend_none (dst ink : Colour) : valid_colour dst -> blend 0 dst ink = dst.
Proof.
  destruct dst as [[[r g] b] a]. intros (?&?&?&?). unfold blend.
  simpl in *. by rewrite !blend8_0.
Qed.

#[export] Hint Resolve blend8_byte blend_valid blend_opaque : icon.

(** ** Creating and reading *)

Section ImageLemmas.
Implicit Types (img : Image) (x y : Z) (c : Colour).

Lemma in_image_spec img x y :
  in_image img x y = true <-> 0 <= x < width img /\ 0 <= y < height img.
Proof.
  unfold in_image. rewrite !andb_true_iff, !Z.leb_le, !Z.ltb_lt. lia.
Qed.

Lemma new_image_Ret mode w h c :
  0 <= w -> 0 <= h ->
  new_image mode (w, h) c
  = Ret (mkImage mode (w, h) (replicate (Z.to_nat (w * h)) c)).
Proof.
  intros Hw Hh. unfold new_image. simpl.
  destruct (Z.ltb_spec w 0), (Z.ltb_spec h 0); simpl; try lia. reflexivity.
Qed.

Lemma new_image_Raise mode w h c :
  w < 0 \/ h < 0 -> new_image mode (w, h) c = Raise ValueError.
Proof.
  intros Hneg. unfold new_image. simpl.
  destruct (Z.ltb_spec w 0), (Z.ltb_spec h 0); simpl; try lia; reflexivity.
Qed.

Lemma new_image_inv mode size c img :
  new_image mode size c = Ret img ->
  im_mode img = mode /\ im_size img = size
  /\ im_data img = replicate (Z.to_nat (size.1 * size.2)) c
  /\ 0 <= size.1 /\ 0 <= size.2.
Proof.
  unfold new_image.
  destruct (Z.ltb_spec size.1 0), (Z.ltb_spec size.2 0); simpl;
    intros [= <-]; simpl; auto.
Qed.

Lemma new_image_wf mode size c img :
  new_image mode size c = Ret img -> wf_image img.
Proof.
  intros (_ & Hs & Hd & Hw & Hh)%new_image_inv.
  split; unfold width, height; rewrite ?Hs, ?Hd, ?length_replicate; auto.
Qed.

Lemma new_image_all mode size c img :
  new_image mode size c = Ret img -> all_pixels (eq c) img.
Proof.
  intros (_ & _ & Hd & _)%new_image_inv. unfold all_pixels. rewrite Hd.
  apply Forall_forall. by intros p ->%elem_of_replicate_inv.
Qed.

(** Inside a well-formed image every pixel exists. *)
Lemma getpixel_is_Some img x y :
  wf_image img -> in_image img x y = true -> is_Some (getpixel img (x, y)).
Proof.
  intros [Hw Hh Hd] Hin. unfold getpixel. simpl. rewrite Hin.
  apply lookup_lt_is_Some. rewrite Hd.
  apply in_image_spec in Hin.
  pose proof (rowmajor_range (width img) (height img) x y). lia.
Qed.

Lemma getpixel_outside img x y :
  in_image img x y = false -> getpixel img (x, y) = None.
Proof. unfold getpixel. simpl. by intros ->. Qed.

Lemma getpixel_all (P : Colour -> Prop) img x y c :
  all_pixels P img -> getpixel img (x, y) = Some c -> P c.
Proof.
  unfold all_pixels, getpixel. simpl. intros Hall.
  destruct (in_image img x y); [|done].
  intros Hl. eapply Forall_lookup_1; eauto.
Qed.

Lemma getpixel_new_image mode w h c img x y :
  new_image mode (w, h) c = Ret img ->
  0 <= x < w -> 0 <= y < h -> getpixel img (x, y) = Some c.
Proof.
  intros Hnew Hx Hy.
  pose proof (new_image_wf _ _ _ _ Hnew) as Hwf.
  pose proof (new_image_all _ _ _ _ Hnew) as Hall.
  destruct (new_image_inv _ _ _ _ Hnew) as (_ & Hs & _).
  destruct (getpixel_is_Some img x y Hwf) as [p Hp].
  { apply in_image_spec. unfold width, height. rewrite Hs. simpl. lia. }
  rewrite Hp. f_equal. symmetry. eapply (getpixel_all (eq c)); eauto.
Qed.

(** ** Painting *)

Lemma draw_bitmap_size img coord m ink :
  im_size (draw_bitmap img coord m ink) = im_size img.
Proof. reflexivity. Qed.

Lemma draw_bitmap_mode img coord m ink :
  im_mode (draw_bitmap img coord m ink) = im_mode img.
Proof. reflexivity. Qed.

Lemma draw_bitmap_in_image img coord m ink x y :
  in_image (draw_bitmap img coord m ink) x y = in_image img x y.
Proof. reflexivity. Qed.

Lemma draw_bitmap_wf img coord m ink :
  wf_image img -> wf_image (draw_bitmap img coord m ink).
Proof.
  intros [Hw Hh Hd]. split; try done.
  unfold draw_bitmap, width, height in *. simpl. by rewrite length_imap.
Qed.

(** The pixel read after painting is the pixel before, painted. *)
Lemma getpixel_draw_bitmap img coord m ink x y :
  getpixel (draw_bitmap img coord m ink) (x, y)
  = paste_pixel coord m ink x y <$> getpixel img (x, y).
Proof.
  unfold getpixel. simpl. rewrite draw_bitmap_in_image.
  destruct (in_image img x y) eqn:Hin; [|done].
  apply in_image_spec in Hin as [Hx Hy].
  change (width (draw_bitmap img coord m ink)) with (width img).
  cbn [draw_bitmap im_data]. rewrite list_lookup_imap.
  rewrite Z2Nat.id by nia.
  by rewrite rowmajor_mod, rowmajor_div by lia.
Qed.

Lemma paste_pixel_outside coord m ink x y p :
  in_mask m (x - coord.1) (y - coord.2) = false ->
  paste_pixel coord m ink x y p = p.
Proof. unfold paste_pixel. by intros ->. Qed.

Lemma paste_pixel_inside coord m ink x y p :
  in_mask m (x - coord.1) (y - coord.2) = true ->
  paste_pixel coord m ink x y p
  = blend (mask_at m (x - coord.1) (y - coord.2)) p ink.
Proof. unfold paste_pixel. by intros ->. Qed.

(** Painting keeps every property of pixels that blending keeps. *)
Lemma draw_bitmap_all (P : Colour -> Prop) img coord m ink :
  (forall u v p, P p -> P (blend (mask_at m u v) p ink)) ->
  all_pixels P img -> all_pixels P (draw_bitmap img coord m ink).
Proof.
  intros Hblend Hall. unfold all_pixels in *. cbn [draw_bitmap im_data].
  apply Forall_lookup_2. intros i p. rewrite list_lookup_imap.
  destruct (im_data img !! i) as [q|] eqn:Hq; [|done].
  intros [= <-]. pose proof (Forall_lookup_1 _ _ _ _ Hall Hq) as HPq.
  unfold paste_pixel. case_match; auto.
Qed.

End ImageLemmas.

#[export] Hint Resolve new_image_wf draw_bitmap_wf : icon.
#[export] Hint Rewrite draw_bitmap_size draw_bitmap_mode getpixel_draw_bitmap
  : icon_rw.

(** ** What blending guarantees *)

(** C17: on bytes, the shift-based blend is the weighted mean of the two
    channels divided by 255 and rounded to nearest, and it lies between the
    two channels: it never leaves the byte range. *)
Theorem blend8_div255 (m a b : Z) :
  byte m -> byte a -> byte b ->
  blend8 m a b = (a * (255 - m) + b * m + 127) / 255
  /\ Z.min a b <= blend8 m a b <= Z.max a b.
Proof.
  unfold byte, blend8. intros Hm Ha Hb.
  assert (Hx : 0 <= a * (255 - m) + b * m <= 65025) by nia.
  rewrite shift_div255 by done. split; [done|].
  assert (255 * Z.min a b <= a * (255 - m) + b * m <= 255 * Z.max a b) by nia.
  zdiv.
Qed.

Lemma blend8_div255_witness :
  blend8 96 123 255 = (123 * (255 - 96) + 255 * 96 + 127) / 255
  /\ Z.min 123 255 <= blend8 96 123 255 <= Z.max 123 255.
Proof. apply (blend8_div255 96 123 255); unfold byte; lia. Defined.
