(* ===== verification/ByteSeq.v ===== *)
(** * Sequences of bytes

    The content of a file is a list of bytes.  This file holds what the
    layers of the PNG format share: bytes as numbers, the fixed-width
    fields of the format (32 bits with the most significant byte first in
    the container, 16 bits with the least significant byte first in the
    compressed stream), readers that take a field from the front of the
    input and return the rest, and the cutting of a sequence into pieces of
    bounded length. *)

From Stdlib Require Import ZArith Lia String.
From Stdlib Require Strings.Byte.
From stdpp Require Import base tactics option list.
From S2P Require Import Prelude.

Local Open Scope Z_scope.

Definition Bytes : Type := list Byte.byte.

(** ** Bytes and integers *)

Definition byte_of_Z (z : Z) : Byte.byte :=
  default Byte.x00 (Byte.of_N (Z.to_N (z mod 256))).

Definition Z_of_byte (b : Byte.byte) : Z := Z.of_N (Byte.to_N b).

(** The bytes of a text in ASCII. *)
Definition ascii_bytes (s : string) : Bytes := list_byte_of_string s.

(** A 32-bit field, most significant byte first. *)
Definition be32 (z : Z) : Bytes :=
  [byte_of_Z (z / 2 ^ 24); byte_of_Z (z / 2 ^ 16); byte_of_Z (z / 2 ^ 8);
   byte_of_Z z].

(** A 16-bit field, least significant byte first. *)
Definition le16 (z : Z) : Bytes := [byte_of_Z z; byte_of_Z (z / 2 ^ 8)].

(** ** Readers *)

(** A reader takes what it needs from the front of the input and returns
    the rest. *)
Definition reader (A : Type) : Type := Bytes -> option (A * Bytes).

Definition read_byte : reader Byte.byte := fun bs =>
  match bs with
  | b :: rest => Some (b, rest)
  | [] => None
  end.

Definition read_be32 : reader Z := fun bs =>
  match bs with
  | b3 :: b2 :: b1 :: b0 :: rest =>
      Some (Z_of_byte b3 * 2 ^ 24 + Z_of_byte b2 * 2 ^ 16
            + Z_of_byte b1 * 2 ^ 8 + Z_of_byte b0, rest)
  | _ => None
  end.

Definition read_le16 : reader Z := fun bs =>
  match bs with
  | b0 :: b1 :: rest => Some (Z_of_byte b0 + Z_of_byte b1 * 2 ^ 8, rest)
  | _ => None
  end.

(** The next [n] bytes, when there are as many. *)
Definition read_bytes (n : nat) : reader Bytes := fun bs =>
  if (n <=? length bs)%nat then Some (take n bs, drop n bs) else None.

(** The input is used up. *)
Definition at_end {A} (x : A) (bs : Bytes) : option A :=
  match bs with
  | [] => Some x
  | _ :: _ => None
  end.

(** ** Pieces of bounded length *)

(** [pieces n l] cuts [l] into pieces of [n] elements, the last one
    shorter when the length of [l] is not a multiple of [n].  Every piece
    takes at least one element when [0 < n], so the length of [l] bounds
    the number of pieces. *)
Fixpoint pieces_fuel {A} (fuel n : nat) (l : list A) : list (list A) :=
  match fuel, l with
  | S fuel, _ :: _ => take n l :: pieces_fuel fuel n (drop n l)
  | _, _ => []
  end.

Definition pieces {A} (n : nat) (l : list A) : list (list A) :=
  pieces_fuel (length l) n l.

#[global] Arguments be32 : simpl never.
#[global] Arguments ascii_bytes : simpl never.
#[global] Arguments le16 : simpl never.

(** ** Reading step by step *)

(** A reader that is known to succeed hands its result to what follows.
    Proofs about readers go through the composition with this equation,
    one reader at a time, and leave the readers that follow folded: they
    hold checksums, which are not to be computed on bytes that are not
    known. *)
Lemma bind_reader {A B} (r : option (A * Bytes)) (x : A) (rest : Bytes)
    (k : A * Bytes -> option B) :
  r = Some (x, rest) -> r ≫= k = k (x, rest).
Proof. by intros ->. Qed.

Tactic Notation "read_with" uconstr(lem) :=
  erewrite (bind_reader _ _ _ _ lem); cbv beta iota.

(** The other way round: a composition that succeeds is made of readers
    that succeed. *)
Tactic Notation "read_inv" hyp(H) "as" simple_intropattern(pat) ident(Hx) :=
  apply bind_Some in H as [pat [Hx H]]; cbv beta iota in H.

(** ** Bytes read back *)

Lemma Z_of_byte_range (b : Byte.byte) : 0 <= Z_of_byte b < 256.
Proof. unfold Z_of_byte. pose proof (Byte.to_N_bounded b). lia. Qed.

Lemma Z_of_byte_of_Z (z : Z) : Z_of_byte (byte_of_Z z) = z mod 256.
Proof.
  unfold Z_of_byte, byte_of_Z.
  assert (Hz : 0 <= z mod 256 < 256) by (apply Z.mod_pos_bound; lia).
  destruct (Byte.of_N (Z.to_N (z mod 256))) as [b|] eqn:Hb.
  - apply Byte.to_of_N in Hb. simpl. rewrite Hb. lia.
  - apply Byte.of_N_None_iff in Hb. lia.
Qed.

Lemma byte_of_Z_of_byte (b : Byte.byte) : byte_of_Z (Z_of_byte b) = b.
Proof.
  unfold byte_of_Z. rewrite Z.mod_small by apply Z_of_byte_range.
  unfold Z_of_byte. by rewrite N2Z.id, Byte.of_to_N.
Qed.

Lemma Z_of_byte_small (z : Z) : 0 <= z < 256 -> Z_of_byte (byte_of_Z z) = z.
Proof. intros Hz. rewrite Z_of_byte_of_Z. by apply Z.mod_small. Qed.

Lemma length_ascii_bytes (s : string) :
  length (ascii_bytes s) = String.length s.
Proof. induction s as [|a s IH]; [done|]. simpl. by f_equal. Qed.

Lemma ascii_bytes_string (s : string) :
  string_of_list_byte (ascii_bytes s) = s.
Proof. apply string_of_list_byte_of_string. Qed.

Lemma length_be32 (z : Z) : length (be32 z) = 4%nat.
Proof. done. Qed.

Lemma length_le16 (z : Z) : length (le16 z) = 2%nat.
Proof. done. Qed.

Lemma read_be32_be32 (z : Z) (rest : Bytes) :
  0 <= z < 2 ^ 32 -> read_be32 (be32 z ++ rest) = Some (z, rest).
Proof.
  intros Hz. unfold be32, read_be32. simpl app. cbv iota.
  rewrite !Z_of_byte_of_Z. do 2 f_equal. zdiv.
Qed.

Lemma read_be32_only (z : Z) :
  0 <= z < 2 ^ 32 -> read_be32 (be32 z) = Some (z, []).
Proof.
  intros Hz. rewrite <- (app_nil_r (be32 z)) at 1. by apply read_be32_be32.
Qed.

Lemma read_le16_le16 (z : Z) (rest : Bytes) :
  0 <= z < 2 ^ 16 -> read_le16 (le16 z ++ rest) = Some (z, rest).
Proof.
  intros Hz. unfold le16, read_le16. simpl app. cbv iota.
  rewrite !Z_of_byte_of_Z. do 2 f_equal. zdiv.
Qed.

Lemma read_bytes_app (bs rest : Bytes) :
  read_bytes (length bs) (bs ++ rest) = Some (bs, rest).
Proof.
  unfold read_bytes. rewrite length_app.
  rewrite (proj2 (Nat.leb_le _ _)) by lia.
  by rewrite take_app_length, drop_app_length.
Qed.

(** ** What a reader takes *)

Lemma read_be32_length (bs : Bytes) (z : Z) (bs' : Bytes) :
  read_be32 bs = Some (z, bs') -> length bs = (4 + length bs')%nat.
Proof. destruct bs as [|? [|? [|? [|? ?]]]]; [done..|]. by intros [= _ <-]. Qed.

Lemma read_bytes_length (n : nat) (bs x bs' : Bytes) :
  read_bytes n bs = Some (x, bs') -> length bs = (n + length bs')%nat.
Proof.
  unfold read_bytes. destruct (Nat.leb_spec n (length bs)); [|done].
  intros [= _ <-]. rewrite length_drop. lia.
Qed.

(** ** Pieces put together *)

Section Pieces.
Context {A : Type}.
Implicit Types (l : list A) (n fuel : nat).

Lemma concat_pieces_fuel fuel n l :
  (0 < n)%nat -> (length l <= fuel)%nat -> concat (pieces_fuel fuel n l) = l.
Proof.
  intros Hn. revert l.
  induction fuel as [|fuel IH]; intros [|x l] Hl; simpl in *; try done; [lia|].
  destruct n as [|n]; [lia|]. simpl. f_equal.
  rewrite IH; [apply take_drop | rewrite length_drop; lia].
Qed.

(** Nothing is lost and nothing is reordered. *)
Lemma concat_pieces n l : (0 < n)%nat -> concat (pieces n l) = l.
Proof. intros Hn. by apply concat_pieces_fuel. Qed.

Lemma pieces_fuel_bounded fuel n l :
  (0 < n)%nat ->
  Forall (fun p => (0 < length p <= n)%nat) (pieces_fuel fuel n l).
Proof.
  intros Hn. revert l.
  induction fuel as [|fuel IH]; intros [|x l]; simpl; try by constructor.
  constructor; [|apply IH].
  destruct n as [|n]; [lia|]. simpl. rewrite length_take. lia.
Qed.

(** Every piece has an element and at most [n]. *)
Lemma pieces_bounded n l :
  (0 < n)%nat -> Forall (fun p => (0 < length p <= n)%nat) (pieces n l).
Proof. apply pieces_fuel_bounded. Qed.

End Pieces.
