(* ===== verification/Checksum.v ===== *)
(** * The checksums of the PNG format

    Every chunk of a PNG file ends with the CRC-32 of its type and data,
    and the compressed pixel data ends with the Adler-32 of the pixels
    before compression.  Both are 32-bit quantities; they are kept here as
    integers with the operations on bits written out, and shown to stay
    within 32 bits.

    [crc32] is the definition of the standard, one bit at a time: the
    register is shifted right and the polynomial is added when the bit
    shifted out is set.  Encoders use a table of 256 entries and take a
    byte at a time; [crc32_table] is that routine, and it computes the
    same number.  The published check values of both checksums are
    evaluated at the end. *)

From Stdlib Require Import ZArith Lia String.
From Stdlib Require Strings.Byte.
From stdpp Require Import base tactics option list.
From S2P Require Import Prelude ByteSeq.

Local Open Scope Z_scope.

(** ** CRC-32, bit by bit *)

(** The polynomial of the standard, bits reversed. *)
Definition crc_poly : Z := 0xEDB88320.

Definition crc_bit (c : Z) : Z :=
  Z.lxor (Z.shiftr c 1) (if Z.testbit c 0 then crc_poly else 0).

Definition crc_byte (c : Z) (b : Byte.byte) : Z :=
  Nat.iter 8 crc_bit (Z.lxor c (Z_of_byte b)).

Definition crc32 (bs : Bytes) : Z :=
  Z.lxor (foldl crc_byte 0xFFFFFFFF bs) 0xFFFFFFFF.

(** ** CRC-32, a byte at a time *)

Definition crc_table : list Z := Eval vm_compute in
  ((fun i => Nat.iter 8 crc_bit (Z.of_nat i)) <$> seq 0 256).

Definition crc_byte_table (c : Z) (b : Byte.byte) : Z :=
  let i := Z.land (Z.lxor c (Z_of_byte b)) 255 in
  Z.lxor (default 0 (crc_table !! Z.to_nat i)) (Z.shiftr c 8).

Definition crc32_table (bs : Bytes) : Z :=
  Z.lxor (foldl crc_byte_table 0xFFFFFFFF bs) 0xFFFFFFFF.

(** ** Adler-32 *)

Definition adler_base : Z := 65521.

Definition adler_step (s : Z * Z) (b : Byte.byte) : Z * Z :=
  let a := (s.1 + Z_of_byte b) mod adler_base in
  (a, (s.2 + a) mod adler_base).

Definition adler32 (bs : Bytes) : Z :=
  let s := foldl adler_step (1, 0) bs in s.2 * 2 ^ 16 + s.1.

#[global] Arguments crc_bit : simpl never.
#[global] Arguments crc_byte : simpl never.
#[global] Arguments crc_byte_table : simpl never.
#[global] Arguments adler_step : simpl never.

(** A number of [n] bits. *)
Definition word (n x : Z) : Prop := 0 <= x < 2 ^ n.

(** ** Operations on bits keep the width *)

Lemma word_testbit (n x : Z) :
  0 <= n -> word n x <-> 0 <= x /\ forall i, n <= i -> Z.testbit x i = false.
Proof.
  intros Hn. unfold word. split.
  - intros Hx. split; [lia|]. intros i Hi.
    rewrite <- (Z.mod_small x (2 ^ n)) by done.
    by apply Z.mod_pow2_bits_high.
  - intros [Hx Hbits]. split; [done|].
    destruct (decide (x = 0)) as [->|Hne]; [by apply Z.pow_pos_nonneg|].
    apply Z.log2_lt_pow2; [lia|].
    destruct (Z.lt_ge_cases (Z.log2 x) n) as [|Hge]; [done|].
    pose proof (Hbits _ Hge) as Hb. by rewrite Z.bit_log2 in Hb by lia.
Qed.

Lemma word_lxor (n x y : Z) :
  0 <= n -> word n x -> word n y -> word n (Z.lxor x y).
Proof.
  intros Hn [Hx Hxb]%word_testbit [Hy Hyb]%word_testbit; try done.
  apply word_testbit; [done|]. split; [by apply Z.lxor_nonneg|].
  intros i Hi. by rewrite Z.lxor_spec, Hxb, Hyb.
Qed.

Lemma word_shiftr (n k x : Z) : 0 <= k -> word n x -> word n (Z.shiftr x k).
Proof.
  unfold word. intros Hk Hx. rewrite Z.shiftr_div_pow2 by done.
  assert (0 < 2 ^ k) by (by apply Z.pow_pos_nonneg).
  split; [by apply Z.div_pos; lia|].
  apply Z.le_lt_trans with x; [|lia]. apply Z.div_le_upper_bound; nia.
Qed.

Lemma word_le (n m x : Z) : n <= m -> 0 <= n -> word n x -> word m x.
Proof.
  unfold word. intros Hnm Hn Hx.
  pose proof (Z.pow_le_mono_r 2 n m ltac:(lia) Hnm). lia.
Qed.

Lemma word_byte (b : Byte.byte) : word 8 (Z_of_byte b).
Proof. apply Z_of_byte_range. Qed.

(** ** The CRC stays within 32 bits *)

Lemma word_const (n x : Z) :
  (0 <=? x) && (x <? 2 ^ n) = true -> word n x.
Proof. unfold word. intros [?%Z.leb_le ?%Z.ltb_lt]%andb_true_iff. lia. Qed.

Lemma crc_bit_word (c : Z) : word 32 c -> word 32 (crc_bit c).
Proof.
  intros Hc. unfold crc_bit.
  apply word_lxor; [lia | apply word_shiftr; [lia | done] |].
  destruct (Z.testbit c 0); apply word_const; vm_compute; reflexivity.
Qed.

Lemma crc_bits_word (k : nat) (c : Z) :
  word 32 c -> word 32 (Nat.iter k crc_bit c).
Proof. intros Hc. induction k; simpl; auto using crc_bit_word. Qed.

Lemma crc_byte_word (c : Z) (b : Byte.byte) :
  word 32 c -> word 32 (crc_byte c b).
Proof.
  intros Hc. unfold crc_byte. apply crc_bits_word, word_lxor; [lia | done |].
  apply (word_le 8); [lia | lia | apply word_byte].
Qed.

Lemma crc_update_word (bs : Bytes) (c : Z) :
  word 32 c -> word 32 (foldl crc_byte c bs).
Proof.
  revert c. induction bs as [|b bs IH]; intros c Hc; [done|].
  rewrite foldl_cons. by apply IH, crc_byte_word.
Qed.

Lemma crc32_range (bs : Bytes) : 0 <= crc32 bs < 2 ^ 32.
Proof.
  change (word 32 (crc32 bs)). unfold crc32.
  apply word_lxor; [lia | apply crc_update_word |];
    apply word_const; vm_compute; reflexivity.
Qed.

(** ** The table gives the same checksum *)

(** The step of the register is linear over exclusive or. *)
Lemma crc_bit_lxor (x y : Z) :
  crc_bit (Z.lxor x y) = Z.lxor (crc_bit x) (crc_bit y).
Proof.
  unfold crc_bit. rewrite Z.shiftr_lxor, Z.lxor_spec.
  apply Z.bits_inj'. intros i _. rewrite !Z.lxor_spec.
  destruct (Z.testbit x 0), (Z.testbit y 0); simpl;
    rewrite ?Z.testbit_0_l; by repeat destruct (Z.testbit _ _).
Qed.

Lemma crc_bits_lxor (k : nat) (x y : Z) :
  Nat.iter k crc_bit (Z.lxor x y)
  = Z.lxor (Nat.iter k crc_bit x) (Nat.iter k crc_bit y).
Proof. induction k; simpl; [done|]. by rewrite IHk, crc_bit_lxor. Qed.

(** Bits that are zero leave the register as they came. *)
Lemma crc_bits_shift (k : nat) (x : Z) :
  (forall i, 0 <= i < Z.of_nat k -> Z.testbit x i = false) ->
  Nat.iter k crc_bit x = Z.shiftr x (Z.of_nat k).
Proof.
  induction k as [|k IH]; intros Hx; [by rewrite Z.shiftr_0_r|].
  simpl Nat.iter. rewrite IH by (intros; apply Hx; lia).
  unfold crc_bit. rewrite Z.shiftr_shiftr by lia.
  rewrite Z.shiftr_spec, Hx, Z.lxor_0_r by lia. f_equal. lia.
Qed.

Lemma crc_table_eq :
  crc_table = (fun i => Nat.iter 8 crc_bit (Z.of_nat i)) <$> seq 0 256.
Proof. by vm_compute. Qed.

Lemma crc_table_lookup (i : Z) :
  0 <= i < 256 ->
  crc_table !! Z.to_nat i = Some (Nat.iter 8 crc_bit i).
Proof.
  intros Hi. rewrite crc_table_eq, list_lookup_fmap.
  rewrite lookup_seq_lt by (apply Nat2Z.inj_lt; rewrite Z2Nat.id; lia).
  cbn [fmap option_fmap option_map]. by rewrite Nat.add_0_l, Z2Nat.id by lia.
Qed.

(** A number is its low byte and the rest. *)
Lemma split_low_byte (x : Z) :
  x = Z.lxor (Z.shiftl (Z.shiftr x 8) 8) (Z.land x 255).
Proof.
  apply Z.bits_inj'. intros i Hi.
  change 255 with (Z.ones 8).
  rewrite Z.lxor_spec, Z.land_spec, Z.testbit_ones by lia.
  destruct (Z.lt_ge_cases i 8).
  - rewrite Z.shiftl_spec_low by done.
    rewrite (proj2 (Z.leb_le 0 i)), (proj2 (Z.ltb_lt i 8)) by done.
    by destruct (Z.testbit x i).
  - rewrite Z.shiftl_spec, Z.shiftr_spec by lia.
    rewrite (proj2 (Z.ltb_ge i 8)) by done.
    replace (i - 8 + 8) with i by lia.
    by rewrite andb_false_r, andb_false_r, xorb_false_r.
Qed.

(** Eight steps of the register: the low byte goes through the table,
    the rest is shifted. *)
Lemma crc_bits_low_byte (x : Z) :
  Nat.iter 8 crc_bit x
  = Z.lxor (Nat.iter 8 crc_bit (Z.land x 255)) (Z.shiftr x 8).
Proof.
  rewrite (f_equal (Nat.iter 8 crc_bit) (split_low_byte x)).
  rewrite crc_bits_lxor, Z.lxor_comm.
  rewrite (crc_bits_shift 8 (Z.shiftl (Z.shiftr x 8) 8)).
  - by rewrite Z.shiftr_shiftl_l, Z.sub_diag, Z.shiftl_0_r by lia.
  - intros i Hi. apply Z.shiftl_spec_low. lia.
Qed.

Lemma shiftr_byte (b : Byte.byte) : Z.shiftr (Z_of_byte b) 8 = 0.
Proof.
  rewrite Z.shiftr_div_pow2 by lia. apply Z.div_small, Z_of_byte_range.
Qed.

Lemma land_255_range (x : Z) : 0 <= Z.land x 255 < 256.
Proof.
  change 255 with (Z.ones 8). rewrite Z.land_ones by lia.
  by apply Z.mod_pos_bound.
Qed.

Lemma crc_byte_table_eq (c : Z) (b : Byte.byte) :
  crc_byte_table c b = crc_byte c b.
Proof.
  unfold crc_byte_table, crc_byte.
  rewrite crc_table_lookup by apply land_255_range.
  rewrite (crc_bits_low_byte (Z.lxor c (Z_of_byte b))).
  by rewrite Z.shiftr_lxor, shiftr_byte, Z.lxor_0_r.
Qed.

(** The routine that takes a byte at a time from the table computes the
    CRC-32 of the standard. *)
Lemma crc32_table_eq (bs : Bytes) : crc32_table bs = crc32 bs.
Proof.
  unfold crc32_table, crc32. generalize 0xFFFFFFFF at 1 3. intros c.
  f_equal. revert c. induction bs as [|b bs IH]; intros c; [done|].
  by rewrite !foldl_cons, crc_byte_table_eq, IH.
Qed.

(** ** Adler-32 stays within 32 bits *)

Lemma adler_step_range (s : Z * Z) (b : Byte.byte) :
  0 <= (adler_step s b).1 < adler_base /\ 0 <= (adler_step s b).2 < adler_base.
Proof.
  unfold adler_step, adler_base. simpl. split; apply Z.mod_pos_bound; lia.
Qed.

Lemma adler_fold_range (bs : Bytes) (s : Z * Z) :
  0 <= s.1 < adler_base /\ 0 <= s.2 < adler_base ->
  0 <= (foldl adler_step s bs).1 < adler_base
  /\ 0 <= (foldl adler_step s bs).2 < adler_base.
Proof.
  revert s. induction bs as [|b bs IH]; intros s Hs; [done|].
  rewrite foldl_cons. apply IH, adler_step_range.
Qed.

Lemma adler32_range (bs : Bytes) : 0 <= adler32 bs < 2 ^ 32.
Proof.
  unfold adler32.
  pose proof (adler_fold_range bs (1, 0)) as H. unfold adler_base in H.
  simpl in H. lia.
Qed.

(** ** The published check values *)

Lemma crc32_check : crc32 (ascii_bytes "123456789") = 0xCBF43926.
Proof. by vm_compute. Qed.

Lemma crc32_table_check : crc32_table (ascii_bytes "123456789") = 0xCBF43926.
Proof. by vm_compute. Qed.

Lemma adler32_check : adler32 (ascii_bytes "Wikipedia") = 0x11E60398.
Proof. by vm_compute. Qed.
