(* ===== verification/Deflate.v ===== *)
(** * Deflate: the compressed data of a PNG file

    The pixel data of a PNG file are compressed with deflate: a sequence of
    blocks of bits, each stored as it is, or coded with the Huffman codes
    fixed by the format, or coded with Huffman codes of its own that are
    described in front of it.  A coded block is a sequence of symbols: a
    byte, the end of the block, or a length that, with the distance after
    it, says which bytes already produced are to be repeated.

    The imaging library leaves the compression to zlib, which chooses
    blocks, codes and repetitions by heuristics; what all the streams it
    may write have in common is that [inflate] gives the data back.
    [inflate] is a decoder of the whole format: it is what "the data of
    this stream" means in the development, whoever wrote the stream.
    A compressor is anything whose streams [inflate] reads back
    ([Deflater], [DeflateLaws]).  [stored_deflater] is the simplest one,
    which stores the data as they are in blocks of at most 65535 bytes;
    Huffman.v has one that codes them.

    Bits are taken from a byte from the least significant end; numbers are
    read with the least significant bit first, Huffman codes with the most
    significant bit first.  A code is given by the lengths of the code
    words of its symbols: the words of one length are consecutive numbers,
    in the order of the symbols, and follow on the words of the length
    before.  Every symbol takes one bit at least, so the number of bits is
    fuel enough for every loop. *)

From Stdlib Require Import ZArith Lia String.
From Stdlib Require Strings.Byte.
From stdpp Require Import base tactics option list list_numbers.
From S2P Require Import Prelude ByteSeq Checksum.

Local Open Scope Z_scope.

(** ** Bits *)

Definition Bits : Type := list bool.

Definition bits_of_byte (b : Byte.byte) : Bits :=
  (fun i => Z.testbit (Z_of_byte b) (Z.of_nat i)) <$> seq 0 8.

Definition bits_of_bytes (bs : Bytes) : Bits := concat (bits_of_byte <$> bs).

(** The number whose bits these are, least significant first. *)
Fixpoint bits_value (bits : Bits) : Z :=
  match bits with
  | [] => 0
  | b :: bits => Z.b2z b + 2 * bits_value bits
  end.

Definition bit_reader (A : Type) : Type := Bits -> option (A * Bits).

(** A number of [n] bits. *)
Fixpoint read_bits (n : nat) : bit_reader Z := fun bits =>
  match n, bits with
  | O, _ => Some (0, bits)
  | S n, b :: bits =>
      '(v, bits) ← read_bits n bits; Some (Z.b2z b + 2 * v, bits)
  | S _, [] => None
  end.

(** [n] whole bytes. *)
Fixpoint read_bit_bytes (n : nat) : bit_reader Bytes := fun bits =>
  match n with
  | O => Some ([], bits)
  | S n =>
      '(v, bits) ← read_bits 8 bits;
      '(bs, bits) ← read_bit_bytes n bits;
      Some (byte_of_Z v :: bs, bits)
  end.

(** What is left of a byte that was begun is skipped.  The input is a
    whole number of bytes, so the bits left tell where the reader is. *)
Definition align (bits : Bits) : Bits := drop (length bits mod 8)%nat bits.

(** The bytes after the stream. *)
Definition bytes_of_bits (bits : Bits) : option Bytes :=
  '(bs, rest) ← read_bit_bytes (length bits / 8)%nat (align bits);
  match rest with
  | [] => Some bs
  | _ :: _ => None
  end.

(** ** Huffman codes *)

(** A code, the way a decoder wants it: how many symbols have a code word
    of each length from 1 to 15, and the symbols in the order of their
    code words. *)
Record huffman : Type := mkHuffman {
  h_count : list Z;
  h_symbol : list nat;
}.

Fixpoint symbols_of_length (l : nat) (s : nat) (lens : list nat) : list nat :=
  match lens with
  | [] => []
  | x :: lens =>
      if (x =? l)%nat then s :: symbols_of_length l (S s) lens
      else symbols_of_length l (S s) lens
  end.

Definition build (lens : list nat) : huffman :=
  {| h_count :=
       (fun l => Z.of_nat (length (symbols_of_length l 0 lens))) <$> seq 1 15;
     h_symbol := concat ((fun l => symbols_of_length l 0 lens) <$> seq 1 15) |}.

(** The code words that are left when every symbol has its own: none for
    a complete code, a negative number for lengths no code has. *)
Definition code_space (h : huffman) : Z :=
  foldl (fun left count => 2 * left - count) 1 (h_count h).

Definition complete (h : huffman) : bool := code_space h =? 0.

(** A code a block may use: complete, or a single code word of one bit. *)
Definition usable (h : huffman) : bool :=
  complete h
  || ((0 <? code_space h)
      && forallb (Z.eqb 0) (drop 1 (h_count h))).

(** One symbol.  [code] is the number made of the bits read, [first] the
    first code word of the length reached, [index] the place of its symbol
    in the order. *)
Fixpoint decode_from (counts : list Z) (symbols : list nat)
    (code first index : Z) : bit_reader nat := fun bits =>
  match counts, bits with
  | count :: counts, b :: bits =>
      let code := code + Z.b2z b in
      if code - count <? first then
        s ← symbols !! Z.to_nat (index + (code - first)); Some (s, bits)
      else decode_from counts symbols (2 * code) (2 * (first + count))
             (index + count) bits
  | _, _ => None
  end.

Definition decode (h : huffman) : bit_reader nat :=
  decode_from (h_count h) (h_symbol h) 0 0 0.

(** ** The symbols of a block *)

(** Symbols 257 to 285 are lengths, each a base and some more bits. *)
Definition length_base : list Z :=
  [3; 4; 5; 6; 7; 8; 9; 10; 11; 13; 15; 17; 19; 23; 27; 31; 35; 43; 51; 59;
   67; 83; 99; 115; 131; 163; 195; 227; 258].

Definition length_extra : list nat :=
  [0; 0; 0; 0; 0; 0; 0; 0; 1; 1; 1; 1; 2; 2; 2; 2; 3; 3; 3; 3; 4; 4; 4; 4;
   5; 5; 5; 5; 0]%nat.

Definition dist_base : list Z :=
  [1; 2; 3; 4; 5; 7; 9; 13; 17; 25; 33; 49; 65; 97; 129; 193; 257; 385; 513;
   769; 1025; 1537; 2049; 3073; 4097; 6145; 8193; 12289; 16385; 24577].

Definition dist_extra : list nat :=
  [0; 0; 0; 0; 1; 1; 2; 2; 3; 3; 4; 4; 5; 5; 6; 6; 7; 7; 8; 8; 9; 9; 10; 10;
   11; 11; 12; 12; 13; 13]%nat.

(** [len] bytes repeated from [dist] bytes back.  The output is kept with
    its last byte first; the bytes repeated may be bytes just written. *)
Fixpoint copy_back (len dist : nat) (rout : Bytes) : option Bytes :=
  match len with
  | O => Some rout
  | S len => b ← rout !! pred dist; copy_back len dist (b :: rout)
  end.

Fixpoint inflate_codes (fuel : nat) (lit dist : huffman) (rout : Bytes)
  : bit_reader Bytes := fun bits =>
  match fuel with
  | O => None
  | S fuel =>
      '(sym, bits) ← decode lit bits;
      if (sym <? 256)%nat then
        inflate_codes fuel lit dist (byte_of_Z (Z.of_nat sym) :: rout) bits
      else if (sym =? 256)%nat then Some (rout, bits)
      else
        base ← length_base !! (sym - 257)%nat;
        extra ← length_extra !! (sym - 257)%nat;
        '(e, bits) ← read_bits extra bits;
        '(dsym, bits) ← decode dist bits;
        dbase ← dist_base !! dsym;
        dextra ← dist_extra !! dsym;
        '(de, bits) ← read_bits dextra bits;
        rout ← copy_back (Z.to_nat (base + e)) (Z.to_nat (dbase + de)) rout;
        inflate_codes fuel lit dist rout bits
  end.

(** ** The codes of the format *)

Definition fixed_lengths : list nat :=
  (replicate 144 8 ++ replicate 112 9 ++ replicate 24 7 ++ replicate 8 8)%nat.

Definition fixed_lit : huffman := Eval vm_compute in build fixed_lengths.

Definition fixed_dist : huffman := Eval vm_compute in build (replicate 30 5%nat).

(** ** The codes of a block

    The lengths of the two codes of a block are themselves coded, with a
    code over the lengths 0 to 15 and three symbols for repetitions; the
    lengths of that code come first, three bits each, in an order that
    puts the ones most often zero last. *)

Definition code_order : list nat :=
  [16; 17; 18; 0; 8; 7; 9; 6; 10; 5; 11; 4; 12; 3; 13; 2; 14; 1; 15]%nat.

Fixpoint read_numbers (n bits_each : nat) : bit_reader (list nat) := fun bits =>
  match n with
  | O => Some ([], bits)
  | S n =>
      '(v, bits) ← read_bits bits_each bits;
      '(vs, bits) ← read_numbers n bits_each bits;
      Some (Z.to_nat v :: vs, bits)
  end.

(** The length of symbol [s] of the code of lengths, from the lengths in
    the order they were read. *)
Definition place_lengths (ls : list nat) : list nat :=
  (fun s => default 0%nat (i ← fst <$> list_find (eq s) code_order; ls !! i))
    <$> seq 0 19.

(** The lengths of the symbols of both codes, [total] of them, last one
    first in [acc]. *)
Fixpoint read_lengths (fuel : nat) (h : huffman) (total : nat)
    (acc : list nat) : bit_reader (list nat) := fun bits =>
  if (total <=? length acc)%nat then
    if (length acc =? total)%nat then Some (reverse acc, bits) else None
  else
    match fuel with
    | O => None
    | S fuel =>
        '(sym, bits) ← decode h bits;
        if (sym <? 16)%nat then read_lengths fuel h total (sym :: acc) bits
        else if (sym =? 16)%nat then
          match acc with
          | [] => None
          | last :: _ =>
              '(r, bits) ← read_bits 2 bits;
              read_lengths fuel h total
                (replicate (3 + Z.to_nat r) last ++ acc) bits
          end
        else if (sym =? 17)%nat then
          '(r, bits) ← read_bits 3 bits;
          read_lengths fuel h total
            (replicate (3 + Z.to_nat r) 0%nat ++ acc) bits
        else
          '(r, bits) ← read_bits 7 bits;
          read_lengths fuel h total
            (replicate (11 + Z.to_nat r) 0%nat ++ acc) bits
    end.

Definition read_dynamic : bit_reader (huffman * huffman) := fun bits =>
  '(hlit, bits) ← read_bits 5 bits;
  '(hdist, bits) ← read_bits 5 bits;
  '(hclen, bits) ← read_bits 4 bits;
  let nlen := (Z.to_nat hlit + 257)%nat in
  let ndist := (Z.to_nat hdist + 1)%nat in
  if (286 <? nlen)%nat || (30 <? ndist)%nat then None
  else
    '(cl, bits) ← read_numbers (Z.to_nat hclen + 4) 3 bits;
    let h := build (place_lengths cl) in
    if complete h then
      '(lens, bits) ← read_lengths (nlen + ndist) h (nlen + ndist) [] bits;
      let lit := build (take nlen lens) in
      let dist := build (drop nlen lens) in
      if negb (bool_decide (lens !! 256%nat = Some 0%nat))
         && usable lit && usable dist
      then Some ((lit, dist), bits) else None
    else None.

(** ** Blocks *)

(** A stored block: the length in 16 bits, its complement, the bytes. *)
Definition read_stored : bit_reader Bytes := fun bits =>
  '(len, bits) ← read_bits 16 (align bits);
  '(nlen, bits) ← read_bits 16 bits;
  if Z.lxor len nlen =? 0xFFFF then read_bit_bytes (Z.to_nat len) bits
  else None.

(** One bit says whether the block is the last, two say its kind. *)
Fixpoint inflate_blocks (fuel : nat) (rout : Bytes) : bit_reader Bytes :=
  fun bits =>
  match fuel with
  | O => None
  | S fuel =>
      '(final, bits) ← read_bits 1 bits;
      '(kind, bits) ← read_bits 2 bits;
      '(rout, bits) ←
        (if kind =? 0 then
           '(data, bits) ← read_stored bits; Some (reverse data ++ rout, bits)
         else if kind =? 1 then
           inflate_codes (S (length bits)) fixed_lit fixed_dist rout bits
         else if kind =? 2 then
           '(h, bits) ← read_dynamic bits;
           inflate_codes (S (length bits)) h.1 h.2 rout bits
         else None);
      if final =? 1 then Some (rout, bits) else inflate_blocks fuel rout bits
  end.

(** The data of the stream at the front of the input, and the bytes after
    it. *)
Definition inflate : reader Bytes := fun bs =>
  '(rout, bits) ← inflate_blocks (S (length bs)) [] (bits_of_bytes bs);
  rest ← bytes_of_bits bits;
  Some (reverse rout, rest).

(** ** Writing stored blocks *)

(** The most a stored block holds. *)
Definition stored_max : nat := Z.to_nat 65535.

(** A stored block: a byte with the flag of the last block in bit 0 and
    the kind, 0, in bits 1 and 2, the length of the data in 16 bits, its
    complement, and the data. *)
Definition stored_block (final : bool) (data : Bytes) : Bytes :=
  (if final then Byte.x01 else Byte.x00)
    :: le16 (Z.of_nat (length data))
    ++ le16 (Z.lxor (Z.of_nat (length data)) 0xFFFF)
    ++ data.

(** The blocks of a stream; the last one carries the flag.  A stream
    without data is one empty block. *)
Fixpoint stored_blocks (ps : list Bytes) : Bytes :=
  match ps with
  | [] => stored_block true []
  | [p] => stored_block true p
  | p :: ps => stored_block false p ++ stored_blocks ps
  end.

(** ** Compressors

    What the encoder of PNG files asks of the compressor it uses: a
    deflate stream that holds the data, wherever the stream stands in a
    file. *)

Class Deflater : Type := {
  deflate : Bytes -> Bytes;
}.

Class DeflateLaws (D : Deflater) : Prop := {
  inflate_deflate : forall data rest,
    inflate (deflate data ++ rest) = Some (data, rest);
}.

(** The compressor that stores the data as they are. *)
Definition stored_deflater : Deflater :=
  {| deflate data := stored_blocks (pieces stored_max data) |}.

#[global] Arguments bits_of_byte : simpl never.
#[global] Arguments read_bits : simpl never.
#[global] Arguments fixed_lit : simpl never.
#[global] Arguments fixed_dist : simpl never.
#[global] Arguments stored_block : simpl never.

(** ** Bits and bytes *)

Lemma length_bits_of_byte (b : Byte.byte) : length (bits_of_byte b) = 8%nat.
Proof. reflexivity. Qed.

Lemma length_bits_of_bytes (bs : Bytes) :
  length (bits_of_bytes bs) = (8 * length bs)%nat.
Proof.
  induction bs as [|b bs IH]; [done|].
  unfold bits_of_bytes in *. rewrite fmap_cons, concat_cons, length_app, IH.
  rewrite length_bits_of_byte. simpl. lia.
Qed.

Lemma bits_of_bytes_cons (b : Byte.byte) (bs : Bytes) :
  bits_of_bytes (b :: bs) = bits_of_byte b ++ bits_of_bytes bs.
Proof. reflexivity. Qed.

Lemma bits_of_bytes_app (bs bs' : Bytes) :
  bits_of_bytes (bs ++ bs') = bits_of_bytes bs ++ bits_of_bytes bs'.
Proof. unfold bits_of_bytes. by rewrite fmap_app, concat_app. Qed.

Lemma bits_value_byte (b : Byte.byte) : bits_value (bits_of_byte b) = Z_of_byte b.
Proof. by destruct b. Qed.

Lemma read_bits_S (n : nat) (b : bool) (bits : Bits) :
  read_bits (S n) (b :: bits)
  = '(v, bits) ← read_bits n bits; Some (Z.b2z b + 2 * v, bits).
Proof. reflexivity. Qed.

Lemma read_bits_app (n : nat) (bits tail : Bits) :
  length bits = n -> read_bits n (bits ++ tail) = Some (bits_value bits, tail).
Proof.
  revert bits. induction n as [|n IH]; intros [|b bits] [=]; [done|].
  rewrite <- app_comm_cons, read_bits_S, IH by done. reflexivity.
Qed.

Lemma read_bits_byte (b : Byte.byte) (tail : Bits) :
  read_bits 8 (bits_of_byte b ++ tail) = Some (Z_of_byte b, tail).
Proof. by rewrite read_bits_app, bits_value_byte. Qed.

Lemma read_bit_bytes_bytes (bs : Bytes) (tail : Bits) :
  read_bit_bytes (length bs) (bits_of_bytes bs ++ tail) = Some (bs, tail).
Proof.
  induction bs as [|b bs IH]; [done|].
  cbn [length read_bit_bytes]. rewrite bits_of_bytes_cons, <- app_assoc.
  rewrite read_bits_byte. cbn [mbind option_bind]. rewrite IH.
  cbn [mbind option_bind]. by rewrite byte_of_Z_of_byte.
Qed.

(** A field of 16 bits is the two bytes of the field, the low one first. *)
Lemma read_bits_le16 (n : Z) (tail : Bits) :
  0 <= n < 2 ^ 16 ->
  read_bits 16 (bits_of_bytes (le16 n) ++ tail) = Some (n, tail).
Proof.
  intros Hn. rewrite (read_bits_app 16) by (by rewrite length_bits_of_bytes).
  do 2 f_equal. clear tail. unfold le16. rewrite !bits_of_bytes_cons.
  change (bits_of_bytes []) with ([] : Bits).
  assert (Hv : forall l l' : Bits, length l = 8%nat ->
            bits_value (l ++ l') = bits_value l + 256 * bits_value l').
  { intros l l' Hl. do 9 (destruct l as [|? l]; try done). simpl. lia. }
  rewrite app_nil_r, Hv, !bits_value_byte, !Z_of_byte_of_Z by done.
  change (2 ^ 8) with 256. change (2 ^ 16) with 65536 in Hn. zdiv.
Qed.

Lemma align_pad (pad : Bits) (bs : Bytes) :
  (length pad < 8)%nat -> align (pad ++ bits_of_bytes bs) = bits_of_bytes bs.
Proof.
  intros Hpad. unfold align. rewrite length_app, length_bits_of_bytes.
  replace ((length pad + 8 * length bs) mod 8)%nat with (length pad).
  - by rewrite drop_app_length.
  - rewrite Nat.mul_comm, Nat.Div0.mod_add. by rewrite Nat.mod_small.
Qed.

Lemma align_bytes (bs : Bytes) : align (bits_of_bytes bs) = bits_of_bytes bs.
Proof. apply (align_pad [] bs). simpl. lia. Qed.

Lemma bytes_of_bits_bytes (bs : Bytes) : bytes_of_bits (bits_of_bytes bs) = Some bs.
Proof.
  unfold bytes_of_bits. rewrite align_bytes.
  rewrite length_bits_of_bytes, Nat.mul_comm, Nat.div_mul by done.
  rewrite <- (app_nil_r (bits_of_bytes bs)). by rewrite read_bit_bytes_bytes.
Qed.

(** ** Stored blocks read back *)

Lemma length_stored_block (final : bool) (data : Bytes) :
  length (stored_block final data) = (5 + length data)%nat.
Proof.
  unfold stored_block. cbn [length]. rewrite !length_app, !length_le16. lia.
Qed.

Lemma length_stored_blocks (ps : list Bytes) :
  (length ps < length (stored_blocks ps))%nat.
Proof.
  induction ps as [|p [|q ps] IH].
  - cbn [stored_blocks]. rewrite length_stored_block. simpl. lia.
  - cbn [stored_blocks]. rewrite length_stored_block. simpl. lia.
  - change (stored_blocks (p :: q :: ps))
      with (stored_block false p ++ stored_blocks (q :: ps)).
    rewrite length_app, length_stored_block. simpl in *. lia.
Qed.

(** The complement of a length is a length, and goes with it. *)
Lemma stored_complement (n : Z) :
  0 <= n < 2 ^ 16 ->
  0 <= Z.lxor n 0xFFFF < 2 ^ 16 /\ Z.lxor n (Z.lxor n 0xFFFF) = 0xFFFF.
Proof.
  intros Hn. split.
  - apply (word_lxor 16); [lia | done | apply word_const; reflexivity].
  - by rewrite <- Z.lxor_assoc, Z.lxor_nilpotent, Z.lxor_0_l.
Qed.

(** The bits of a stored block: the flag, the kind, the padding up to the
    end of the byte, and the fields. *)
Lemma bits_stored_block (final : bool) (data rest : Bytes) :
  bits_of_bytes (stored_block final data ++ rest)
  = [final] ++ [false; false] ++ replicate 5 false
    ++ bits_of_bytes (le16 (Z.of_nat (length data))
                      ++ le16 (Z.lxor (Z.of_nat (length data)) 0xFFFF)
                      ++ data ++ rest).
Proof.
  unfold stored_block. rewrite <- app_comm_cons, bits_of_bytes_cons.
  rewrite <- !app_assoc. by destruct final.
Qed.

Lemma read_stored_block (data rest : Bytes) :
  (length data <= stored_max)%nat ->
  read_stored (replicate 5 false
               ++ bits_of_bytes (le16 (Z.of_nat (length data))
                                 ++ le16 (Z.lxor (Z.of_nat (length data)) 0xFFFF)
                                 ++ data ++ rest))
  = Some (data, bits_of_bytes rest).
Proof.
  unfold stored_max. intros Hlen.
  assert (Hn : 0 <= Z.of_nat (length data) < 2 ^ 16) by lia.
  destruct (stored_complement _ Hn) as [Hc Hx].
  unfold read_stored. rewrite align_pad by (simpl; lia).
  rewrite !bits_of_bytes_app, read_bits_le16 by done. cbn [mbind option_bind].
  rewrite read_bits_le16 by done. cbn [mbind option_bind].
  by rewrite Hx, Nat2Z.id, read_bit_bytes_bytes.
Qed.

Lemma inflate_blocks_stored (fuel : nat) (rout : Bytes) (ps : list Bytes)
    (rest : Bytes) :
  Forall (fun p => (length p <= stored_max)%nat) ps ->
  (length ps < fuel)%nat ->
  inflate_blocks fuel rout (bits_of_bytes (stored_blocks ps ++ rest))
  = Some (reverse (concat ps) ++ rout, bits_of_bytes rest).
Proof.
  assert (Hblock : forall fuel rout final p more,
    (length p <= stored_max)%nat ->
    inflate_blocks (S fuel) rout (bits_of_bytes (stored_block final p ++ more))
    = if final then Some (reverse p ++ rout, bits_of_bytes more)
      else inflate_blocks fuel (reverse p ++ rout) (bits_of_bytes more)).
  { clear. intros fuel rout final p more Hp.
    rewrite bits_stored_block. cbn [inflate_blocks].
    rewrite (read_bits_app 1) by done. cbn [mbind option_bind].
    rewrite (read_bits_app 2) by done. cbn [mbind option_bind].
    change (bits_value [false; false] =? 0) with true. cbv iota.
    rewrite read_stored_block by done. cbn [mbind option_bind].
    by destruct final. }
  revert fuel rout. induction ps as [|p [|q ps] IH]; intros [|fuel] rout Hps Hfuel;
    try (simpl in Hfuel; lia).
  - cbn [stored_blocks]. by rewrite Hblock by (simpl; lia).
  - apply Forall_cons in Hps as [Hp _]. cbn [stored_blocks].
    rewrite Hblock by done. simpl. by rewrite app_nil_r.
  - apply Forall_cons in Hps as [Hp Hps].
    change (stored_blocks (p :: q :: ps))
      with (stored_block false p ++ stored_blocks (q :: ps)).
    rewrite <- app_assoc, Hblock by done.
    rewrite IH by (done || cbn [length] in Hfuel |- *; lia).
    change (concat (p :: q :: ps)) with (p ++ concat (q :: ps)).
    by rewrite reverse_app, <- app_assoc.
Qed.

(** What [stored_blocks] writes, [inflate] reads back. *)
Lemma inflate_stored_blocks (ps : list Bytes) (rest : Bytes) :
  Forall (fun p => (length p <= stored_max)%nat) ps ->
  inflate (stored_blocks ps ++ rest) = Some (concat ps, rest).
Proof.
  intros Hps. unfold inflate. rewrite inflate_blocks_stored; [|done|].
  - cbn [mbind option_bind]. rewrite bytes_of_bits_bytes. cbn [mbind option_bind].
    by rewrite app_nil_r, reverse_involutive.
  - pose proof (length_stored_blocks ps). rewrite length_app. lia.
Qed.

Lemma pieces_stored (data : Bytes) :
  Forall (fun p => (length p <= stored_max)%nat) (pieces stored_max data).
Proof.
  eapply Forall_impl; [apply pieces_bounded; unfold stored_max; lia|].
  simpl. lia.
Qed.

#[export] Instance stored_deflater_laws : DeflateLaws stored_deflater.
Proof.
  split. intros data rest. cbn [deflate stored_deflater].
  rewrite inflate_stored_blocks by apply pieces_stored.
  by rewrite concat_pieces by (unfold stored_max; lia).
Qed.

(** ** Fuel

    Every reader takes bits: a symbol one at least, a block eight.  The
    loops of [inflate] are given more fuel than their input has bits or
    bytes, so they stop for what they read and never for want of fuel. *)

Lemma read_bits_length n bits v bits' :
  read_bits n bits = Some (v, bits') -> length bits = (n + length bits')%nat.
Proof.
  revert bits v. induction n as [|n IH]; intros bits v H.
  - by injection H as _ ->.
  - destruct bits as [|b bits]; [done|]. rewrite read_bits_S in H.
    read_inv H as [v' bits1] Hv. injection H as _ <-.
    apply IH in Hv. simpl. lia.
Qed.

Lemma read_bit_bytes_length n bits bs bits' :
  read_bit_bytes n bits = Some (bs, bits') ->
  length bits = (8 * n + length bits')%nat.
Proof.
  revert bits bs. induction n as [|n IH]; intros bits bs H.
  - by injection H as _ ->.
  - cbn [read_bit_bytes] in H. read_inv H as [v bits1] Hv.
    read_inv H as [bs' bits2] Hbs. injection H as _ <-.
    apply read_bits_length in Hv. apply IH in Hbs. lia.
Qed.

Lemma read_numbers_length n k bits vs bits' :
  read_numbers n k bits = Some (vs, bits') ->
  length bits = (n * k + length bits')%nat.
Proof.
  revert bits vs. induction n as [|n IH]; intros bits vs H.
  - by injection H as _ ->.
  - cbn [read_numbers] in H. read_inv H as [v bits1] Hv.
    read_inv H as [vs' bits2] Hvs. injection H as _ <-.
    apply read_bits_length in Hv. apply IH in Hvs. lia.
Qed.

Lemma length_align bits : (length (align bits) <= length bits)%nat.
Proof. unfold align. rewrite length_drop. lia. Qed.

(** A symbol takes a bit at least, and as many more as there are lengths
    without a code word in front. *)
Lemma decode_from_length counts symbols code first index bits s bits' :
  decode_from counts symbols code first index bits = Some (s, bits') ->
  (length bits' < length bits)%nat.
Proof.
  revert code first index bits.
  induction counts as [|count counts IH]; intros code first index [|b bits] H;
    try done.
  cbn [decode_from] in H. destruct (_ <? _).
  - apply bind_Some in H as (s' & _ & [= _ ->]). simpl. lia.
  - apply IH in H. simpl. lia.
Qed.

Lemma decode_from_zeros k counts symbols code index bits s bits' :
  0 <= code ->
  decode_from (replicate k 0 ++ counts) symbols code 0 index bits
  = Some (s, bits') ->
  (k + length bits' < length bits)%nat.
Proof.
  revert code bits. induction k as [|k IH]; intros code bits Hcode H.
  - by apply decode_from_length in H.
  - destruct bits as [|b bits]; [done|]. cbn [replicate app decode_from] in H.
    destruct (Z.ltb_spec (code + Z.b2z b - 0) 0); [destruct b; simpl in *; lia|].
    rewrite !Z.add_0_r in H. change (2 * 0) with 0 in H.
    apply IH in H; [simpl; lia|destruct b; simpl; lia].
Qed.

Lemma decode_length h bits s bits' :
  decode h bits = Some (s, bits') -> (1 + length bits' <= length bits)%nat.
Proof. intros H%decode_from_length. lia. Qed.

Lemma decode_fixed_length bits s bits' :
  decode fixed_lit bits = Some (s, bits') -> (7 + length bits' <= length bits)%nat.
Proof.
  intros H. enough (6 + length bits' < length bits)%nat by lia.
  by apply (decode_from_zeros 6 [24; 152; 112; 0; 0; 0; 0; 0; 0]
              (h_symbol fixed_lit) 0 0 bits s).
Qed.

(** The symbols of a block take what their first symbol takes, at least. *)
Lemma inflate_codes_length k fuel lit dist rout bits r bits' :
  (forall bits s bits',
     decode lit bits = Some (s, bits') -> (k + length bits' <= length bits)%nat) ->
  inflate_codes fuel lit dist rout bits = Some (r, bits') ->
  (k + length bits' <= length bits)%nat.
Proof.
  intros Hlit. revert rout bits.
  induction fuel as [|fuel IH]; intros rout bits H; [done|].
  cbn [inflate_codes] in H. read_inv H as [sym bits1] Hsym. apply Hlit in Hsym.
  destruct (sym <? 256)%nat; [apply IH in H; lia|].
  destruct (sym =? 256)%nat; [injection H as _ <-; lia|].
  apply bind_Some in H as (base & _ & H). apply bind_Some in H as (extra & _ & H).
  read_inv H as [e bits2] He. read_inv H as [dsym bits3] Hdsym.
  apply bind_Some in H as (dbase & _ & H). apply bind_Some in H as (dextra & _ & H).
  read_inv H as [de bits4] Hde. apply bind_Some in H as (rout' & _ & H).
  apply read_bits_length in He, Hde. apply decode_length in Hdsym.
  apply IH in H. lia.
Qed.

(** With more fuel than there are bits, the symbols of a block are read
    as with any more. *)
Lemma inflate_codes_fuel fuel fuel' lit dist rout bits :
  (length bits < fuel)%nat -> (length bits < fuel')%nat ->
  inflate_codes fuel lit dist rout bits = inflate_codes fuel' lit dist rout bits.
Proof.
  revert fuel' rout bits.
  induction fuel as [|fuel IH]; intros [|fuel'] rout bits Hf Hf'; try lia.
  cbn [inflate_codes].
  destruct (decode lit bits) as [[sym bits1]|] eqn:Hsym; [|done].
  apply decode_length in Hsym. cbn [mbind option_bind]. cbv beta iota.
  destruct (sym <? 256)%nat; [apply IH; lia|].
  destruct (sym =? 256)%nat; [done|].
  destruct (length_base !! _) as [base|]; [|done].
  destruct (length_extra !! _) as [extra|]; [|done]. cbn [mbind option_bind].
  destruct (read_bits extra bits1) as [[e bits2]|] eqn:He; [|done].
  cbn [mbind option_bind]. cbv beta iota.
  destruct (decode dist bits2) as [[dsym bits3]|] eqn:Hdsym; [|done].
  cbn [mbind option_bind]. cbv beta iota.
  destruct (dist_base !! _) as [dbase|]; [|done].
  destruct (dist_extra !! _) as [dextra|]; [|done]. cbn [mbind option_bind].
  destruct (read_bits dextra bits3) as [[de bits4]|] eqn:Hde; [|done].
  cbn [mbind option_bind]. cbv beta iota.
  destruct (copy_back _ _ _) as [rout'|]; [|done]. cbn [mbind option_bind].
  apply read_bits_length in He, Hde. apply decode_length in Hdsym.
  apply IH; lia.
Qed.

Lemma read_stored_length bits data bits' :
  read_stored bits = Some (data, bits') -> (32 + length bits' <= length bits)%nat.
Proof.
  unfold read_stored. intros H. pose proof (length_align bits).
  read_inv H as [len bits1] Hlen. read_inv H as [nlen bits2] Hnlen.
  destruct (_ =? _); [|done].
  apply read_bits_length in Hlen, Hnlen. apply read_bit_bytes_length in H. lia.
Qed.

Lemma read_lengths_length fuel h total acc bits lens bits' :
  read_lengths fuel h total acc bits = Some (lens, bits') ->
  (length bits' <= length bits)%nat.
Proof.
  revert acc bits. induction fuel as [|fuel IH]; intros acc bits H.
  - cbn [read_lengths] in H. destruct (_ <=? _)%nat; [|done].
    destruct (_ =? _)%nat; [|done]. by injection H as _ <-.
  - cbn [read_lengths] in H. destruct (_ <=? _)%nat.
    { destruct (_ =? _)%nat; [|done]. by injection H as _ <-. }
    read_inv H as [sym bits1] Hsym. apply decode_length in Hsym.
    destruct (sym <? 16)%nat; [apply IH in H; lia|].
    destruct (sym =? 16)%nat; [destruct acc; [done|]|destruct (sym =? 17)%nat];
      read_inv H as [r bits2] Hr; apply read_bits_length in Hr; apply IH in H; lia.
Qed.

(** Every step of [read_lengths] adds a length at least: as much fuel as
    there are lengths to read is enough. *)
Lemma read_lengths_fuel fuel fuel' h total acc bits :
  (total <= length acc + fuel)%nat -> (total <= length acc + fuel')%nat ->
  read_lengths fuel h total acc bits = read_lengths fuel' h total acc bits.
Proof.
  revert fuel' acc bits.
  induction fuel as [|fuel IH]; intros [|fuel'] acc bits Hf Hf';
    cbn [read_lengths]; destruct (Nat.leb_spec total (length acc)); try done;
    try lia.
  destruct (decode h bits) as [[sym bits1]|]; [|done].
  cbn [mbind option_bind]. cbv beta iota.
  destruct (sym <? 16)%nat; [apply IH; simpl; lia|].
  destruct (sym =? 16)%nat; [destruct acc; [done|]|destruct (sym =? 17)%nat];
    (destruct (read_bits _ bits1) as [[r bits2]|]; [|done]);
    cbn [mbind option_bind]; cbv beta iota;
    apply IH; rewrite length_app, length_replicate; simpl in *; lia.
Qed.

Lemma read_dynamic_length bits h bits' :
  read_dynamic bits = Some (h, bits') -> (14 + length bits' <= length bits)%nat.
Proof.
  unfold read_dynamic. intros H.
  read_inv H as [hlit bits1] Hlit. read_inv H as [hdist bits2] Hdist.
  read_inv H as [hclen bits3] Hclen. destruct (_ || _); [done|].
  read_inv H as [cl bits4] Hcl. destruct (complete _); [|done].
  read_inv H as [lens bits5] Hlens. destruct (_ && _); [|done].
  injection H as _ <-. apply read_bits_length in Hlit, Hdist, Hclen.
  apply read_numbers_length in Hcl. apply read_lengths_length in Hlens. lia.
Qed.

(** A block takes a byte at least: three bits and, stored, its lengths;
    with the fixed codes, the end of the block in seven bits; with its own
    codes, their description.  So one more block than there are bytes is
    never asked for, and [inflate] refuses no stream for want of fuel. *)
Lemma inflate_blocks_fuel fuel fuel' rout bits :
  (length bits < 8 * fuel)%nat -> (length bits < 8 * fuel')%nat ->
  inflate_blocks fuel rout bits = inflate_blocks fuel' rout bits.
Proof.
  revert fuel' rout bits.
  induction fuel as [|fuel IH]; intros [|fuel'] rout bits Hf Hf'; try lia.
  cbn [inflate_blocks].
  destruct (read_bits 1 bits) as [[final bits1]|] eqn:Hfinal; [|done].
  cbn [mbind option_bind]. cbv beta iota.
  destruct (read_bits 2 bits1) as [[kind bits2]|] eqn:Hkind; [|done].
  cbn [mbind option_bind]. cbv beta iota.
  apply read_bits_length in Hfinal, Hkind.
  destruct (if kind =? 0 then _ else _) as [[rout' bits3]|] eqn:H; [|done].
  cbn [mbind option_bind]. cbv beta iota.
  destruct (final =? 1); [done|]. apply IH; [|].
  all: enough (5 + length bits3 <= length bits2)%nat by lia.
  all: destruct (kind =? 0);
    [read_inv H as [data bits'] Hdata; injection H as _ <-;
     apply read_stored_length in Hdata; lia|].
  all: destruct (kind =? 1);
    [apply (inflate_codes_length 7) in H; [lia|apply decode_fixed_length]|].
  all: destruct (kind =? 2); [|done]; read_inv H as [h bits'] Hh;
    apply read_dynamic_length in Hh;
    apply (inflate_codes_length 1) in H; [lia|apply decode_length].
Qed.

Theorem inflate_fuel (fuel : nat) (bs : Bytes) :
  (length bs < fuel)%nat ->
  inflate_blocks fuel [] (bits_of_bytes bs)
  = inflate_blocks (S (length bs)) [] (bits_of_bytes bs).
Proof.
  intros Hfuel. apply inflate_blocks_fuel; rewrite length_bits_of_bytes; lia.
Qed.

(** ** Streams written by zlib *)

(** A block with the fixed codes and repetitions: the text below as zlib
    writes it at its highest level when told to keep to the fixed codes. *)
Lemma inflate_fixed_example :
  inflate
    [Byte.x4b; Byte.x4c; Byte.x2a; Byte.x4a; Byte.x4c; Byte.x4e; Byte.x4c;
     Byte.x49; Byte.x04; Byte.x52; Byte.x0a; Byte.x89; Byte.xd8; Byte.xd9;
     Byte.x00]
  = Some (ascii_bytes "abracadabra abracadabra abracadabra", []).
Proof. by vm_compute. Qed.

(** A block with codes of its own and repetitions: 160 letters as zlib
    writes them at its default level. *)
Lemma inflate_dynamic_example :
  inflate
    [Byte.x15; Byte.xc6; Byte.xc7; Byte.x11; Byte.x80; Byte.x20; Byte.x00;
     Byte.x00; Byte.xb0; Byte.xd9; Byte.x3c; Byte.x1b; Byte.x48; Byte.x55;
     Byte.x2c; Byte.xfb; Byte.x6f; Byte.xe2; Byte.x25; Byte.xaf; Byte.x4c;
     Byte.xa3; Byte.xbe; Byte.x67; Byte.xfb; Byte.xae; Byte.xf2; Byte.x48;
     Byte.x96; Byte.x2e; Byte.xb7; Byte.x24; Byte.x69; Byte.x32; Byte.xe4;
     Byte.x90; Byte.x2a; Byte.x97; Byte.x44; Byte.x29; Byte.x72; Byte.x4a;
     Byte.x90; Byte.x2c; Byte.x5d; Byte.x76; Byte.x49; Byte.xd2; Byte.x64;
     Byte.x93; Byte.x43; Byte.xaa; Byte.xac; Byte.x12; Byte.xa5; Byte.xc8;
     Byte.x22; Byte.x41; Byte.xb2; Byte.xcc; Byte.xb2; Byte.x4b; Byte.xfa;
     Byte.x01]
  = Some ((fun i => byte_of_Z ((i * 7 + i / 5 * 3 + i mod 3 * 11) mod 23 + 65))
            <$> seqZ 0 160, []).
Proof. by vm_compute. Qed.
