(* ===== verification/Huffman.v ===== *)
(** * The Huffman codes of deflate, written

    Deflate gives a code by the lengths of the code words only: the code
    words of one length are consecutive numbers, in the order of the
    symbols, and those of the next length start after them, with one more
    bit.  [code_word] is that assignment, [encode] the bits of a symbol.

    The decoder of Deflate.v never builds the code words: it counts the
    symbols of each length and compares the bits read with the first code
    word of every length in turn.  [decode_encode] shows that it reads the
    code words of the assignment, for every table of lengths that leaves
    each symbol a code word of its own.

    [fixed_block] is a compressor that codes every byte with the fixed
    code of the format; what it writes is read back by [inflate]
    ([inflate_fixed_block]), so it meets [DeflateLaws]. *)

From Stdlib Require Import ZArith Lia String.
From Stdlib Require Strings.Byte.
From stdpp Require Import base tactics option list list_numbers.
From S2P Require Import Prelude ByteSeq Checksum Deflate.

Local Open Scope Z_scope.

(** ** The code words of a code *)

Definition count_of (lens : list nat) (l : nat) : Z :=
  Z.of_nat (length (symbols_of_length l 0 lens)).

(** The first code word of length [l], and the place of its symbol in the
    order of the code words. *)
Fixpoint first_code (lens : list nat) (l : nat) : Z :=
  match l with
  | O | 1%nat => 0
  | S l' => 2 * (first_code lens l' + count_of lens l')
  end.

Fixpoint first_index (lens : list nat) (l : nat) : Z :=
  match l with
  | O | 1%nat => 0
  | S l' => first_index lens l' + count_of lens l'
  end.

(** The place of symbol [s] among the symbols with a code word as long as
    its own. *)
Definition rank (lens : list nat) (s : nat) : Z :=
  Z.of_nat (length (symbols_of_length (lens !!! s) 0 (take s lens))).

Definition code_word (lens : list nat) (s : nat) : Z :=
  first_code lens (lens !!! s) + rank lens s.

(** The [l] low bits of [c], the most significant first. *)
Fixpoint code_bits (l : nat) (c : Z) : Bits :=
  match l with
  | O => []
  | S l => Z.testbit c (Z.of_nat l) :: code_bits l c
  end.

Definition encode (lens : list nat) (s : nat) : Bits :=
  code_bits (lens !!! s) (code_word lens s).

(** ** Writing with the fixed code *)

(** [n] bytes of the bits, the last one filled up with zeros. *)
Fixpoint pack_bits (n : nat) (bits : Bits) : Bytes :=
  match n with
  | O => []
  | S n => byte_of_Z (bits_value (take 8 bits)) :: pack_bits n (drop 8 bits)
  end.

Definition pack (bits : Bits) : Bytes :=
  pack_bits ((length bits + 7) / 8) bits.

Definition literal (b : Byte.byte) : Bits :=
  encode fixed_lengths (Z.to_nat (Z_of_byte b)).

(** One block, the last one, coded with the fixed codes: every byte as it
    is, then the end of the block. *)
Definition fixed_block_bits (data : Bytes) : Bits :=
  [true; true; false] ++ concat (literal <$> data)
  ++ encode fixed_lengths 256.

Definition fixed_block (data : Bytes) : Bytes := pack (fixed_block_bits data).

Definition fixed_deflater : Deflater := {| deflate := fixed_block |}.

(** ** The first code words *)

Lemma first_code_S lens l :
  (1 <= l)%nat -> first_code lens (S l) = 2 * (first_code lens l + count_of lens l).
Proof. destruct l; [lia|done]. Qed.

Lemma first_index_S lens l :
  (1 <= l)%nat -> first_index lens (S l) = first_index lens l + count_of lens l.
Proof. destruct l; [lia|done]. Qed.

Lemma count_of_nonneg lens l : 0 <= count_of lens l.
Proof. unfold count_of. lia. Qed.

Lemma first_code_nonneg lens l : 0 <= first_code lens l.
Proof.
  induction l as [|[|l] IH]; [done..|].
  rewrite first_code_S by lia. pose proof (count_of_nonneg lens (S l)). lia.
Qed.

(** Symbols by length, over a list in two parts. *)
Lemma symbols_of_length_app l s A B :
  symbols_of_length l s (A ++ B)
  = symbols_of_length l s A ++ symbols_of_length l (s + length A) B.
Proof.
  revert s. induction A as [|x A IH]; intros s; simpl.
  - by rewrite Nat.add_0_r.
  - rewrite IH, Nat.add_succ_r. by destruct (x =? l)%nat.
Qed.

Lemma symbols_of_length_middle l (A B : list nat) :
  symbols_of_length l 0 (A ++ l :: B)
    !! length (symbols_of_length l 0 A) = Some (length A)
  /\ (length (symbols_of_length l 0 A)
      < length (symbols_of_length l 0 (A ++ l :: B)))%nat.
Proof.
  rewrite symbols_of_length_app, length_app. cbn [symbols_of_length].
  rewrite Nat.eqb_refl.
  split; [by rewrite lookup_app_r, Nat.sub_diag by done | simpl; lia].
Qed.

Lemma lookup_rank lens s l :
  lens !! s = Some l ->
  symbols_of_length l 0 lens !! Z.to_nat (rank lens s) = Some s
  /\ 0 <= rank lens s < count_of lens l.
Proof.
  intros Hs. unfold rank, count_of.
  rewrite (list_lookup_total_correct _ _ _ Hs), Nat2Z.id.
  destruct (symbols_of_length_middle l (take s lens) (drop (S s) lens))
    as [Hl Hlt].
  rewrite take_drop_middle in Hl, Hlt by done.
  rewrite length_take_le in Hl by (apply lookup_lt_Some in Hs; lia).
  split; [done | lia].
Qed.

(** The code words of one length follow on those of the lengths before:
    a code word cut down to a shorter length is none of that length. *)
Lemma first_code_prefix lens k l :
  (1 <= k < l)%nat ->
  2 ^ Z.of_nat (l - k) * (first_code lens k + count_of lens k)
  <= first_code lens l.
Proof.
  intros Hk. induction l as [|l IH]; [lia|].
  destruct (decide (k = l)) as [->|Hne].
  - rewrite first_code_S by lia. replace (S l - l)%nat with 1%nat by lia. lia.
  - rewrite first_code_S by lia.
    replace (S l - k)%nat with (S (l - k)) by lia.
    rewrite Nat2Z.inj_succ, Z.pow_succ_r by lia.
    pose proof (count_of_nonneg lens l). specialize (IH ltac:(lia)). lia.
Qed.

(** What is left of the code words of length [l] when the symbols up to
    that length have theirs. *)
Lemma code_space_first lens (l : nat) :
  foldl (fun left count => 2 * left - count) 1
    (count_of lens <$> seq 1 l)
  = 2 ^ Z.of_nat l - (if l is O then 0
                      else first_code lens l + count_of lens l).
Proof.
  induction l as [|l IH]; [done|].
  rewrite seq_S, fmap_app, foldl_app, IH. cbn [fmap list_fmap foldl].
  rewrite Nat2Z.inj_succ, Z.pow_succ_r by lia.
  destruct l as [|l]; [simpl; lia|]. rewrite (first_code_S _ (S l)) by lia.
  replace (1 + S l)%nat with (S (S l)) by lia. lia.
Qed.

Lemma foldl_space_neg (counts : list Z) (left : Z) :
  Forall (Z.le 0) counts -> left < 0 ->
  foldl (fun left count => 2 * left - count) left counts < 0.
Proof.
  intros Hc. revert left. induction Hc as [|c counts Hc _ IH]; intros left Hl;
    [done|]. cbn [foldl]. apply IH. lia.
Qed.

(** In a code that has a code word for every symbol, the code words of
    length [l] are numbers of [l] bits. *)
Lemma code_fits lens (l : nat) :
  0 <= code_space (build lens) -> (1 <= l <= 15)%nat ->
  first_code lens l + count_of lens l <= 2 ^ Z.of_nat l.
Proof.
  intros Hspace Hl.
  destruct (Z.le_gt_cases (first_code lens l + count_of lens l)
              (2 ^ Z.of_nat l)) as [|Hover]; [done|].
  contradict Hspace. apply Z.lt_nge. unfold code_space, build. cbn [h_count].
  change (fun l0 => Z.of_nat (length (symbols_of_length l0 0 lens)))
    with (count_of lens).
  replace 15%nat with (l + (15 - l))%nat by lia.
  rewrite seq_app, fmap_app, foldl_app, code_space_first.
  apply foldl_space_neg.
  - apply Forall_fmap, Forall_forall. intros x _. apply count_of_nonneg.
  - destruct l; [lia|]. lia.
Qed.

(** One more bit of a number, from the top. *)
Lemma div_pow2_bit (c : Z) (n : nat) :
  2 * (c / 2 ^ Z.of_nat (S n)) + Z.b2z (Z.testbit c (Z.of_nat n))
  = c / 2 ^ Z.of_nat n.
Proof.
  rewrite Z.testbit_spec' by lia.
  replace (2 ^ Z.of_nat (S n)) with (2 ^ Z.of_nat n * 2)
    by (rewrite Nat2Z.inj_succ, Z.pow_succ_r; lia).
  rewrite <- Z.div_div by lia. generalize (c / 2 ^ Z.of_nat n). zdiv.
Qed.

Lemma lookup_concat_middle {A} (ls1 ls2 : list (list A)) (x : list A)
    (r : nat) (a : A) :
  x !! r = Some a ->
  concat (ls1 ++ x :: ls2) !! (length (concat ls1) + r)%nat = Some a.
Proof.
  intros Hr. rewrite concat_app, lookup_app_r by lia.
  replace (_ + r - _)%nat with r by lia.
  rewrite concat_cons. by apply lookup_app_l_Some.
Qed.

(** The place of the first symbol of a length is the number of symbols
    with shorter code words. *)
Lemma first_index_length lens (l : nat) :
  (1 <= l)%nat ->
  first_index lens l
  = Z.of_nat (length (concat ((fun l0 => symbols_of_length l0 0 lens)
                                <$> seq 1 (l - 1)))).
Proof.
  induction l as [|[|l] IH]; [lia|done|]. intros _.
  rewrite first_index_S, IH by lia.
  replace (S (S l) - 1)%nat with (S l - 1 + 1)%nat by lia.
  rewrite seq_app, fmap_app, concat_app, length_app, Nat2Z.inj_add.
  replace (1 + (S l - 1))%nat with (S l) by lia.
  cbn [seq fmap list_fmap concat]. by rewrite app_nil_r.
Qed.

(** The symbols in the order of their code words, by length. *)
Lemma lookup_symbols lens (l r : nat) s :
  (1 <= l <= 15)%nat ->
  symbols_of_length l 0 lens !! r = Some s ->
  h_symbol (build lens) !! (Z.to_nat (first_index lens l) + r)%nat = Some s.
Proof.
  intros Hl Hr. unfold build. cbn [h_symbol].
  rewrite first_index_length, Nat2Z.id by lia.
  assert (seq 1 15 = seq 1 (l - 1) ++ l :: seq (S l) (15 - l)) as ->.
  { replace 15%nat with ((l - 1) + S (15 - l))%nat at 1 by lia.
    rewrite seq_app. cbn [seq]. by replace (1 + (l - 1))%nat with l by lia. }
  rewrite fmap_app, fmap_cons. by apply lookup_concat_middle.
Qed.

Lemma decode_from_code lens s l (n : nat) (tail : Bits) :
  lens !! s = Some l -> (1 <= l <= 15)%nat -> (n < l)%nat ->
  0 <= code_space (build lens) ->
  decode_from (count_of lens <$> seq (l - n) (16 - (l - n)))
    (h_symbol (build lens))
    (2 * (code_word lens s / 2 ^ Z.of_nat (S n)))
    (first_code lens (l - n)) (first_index lens (l - n))
    (code_bits (S n) (code_word lens s) ++ tail)
  = Some (s, tail).
Proof.
  intros Hs Hl Hn Hspace.
  destruct (lookup_rank lens s l Hs) as [Hlook Hrank].
  assert (Hc : code_word lens s = first_code lens l + rank lens s).
  { unfold code_word. by rewrite (list_lookup_total_correct _ _ _ Hs). }
  induction n as [|n IH].
  - rewrite Nat.sub_0_r.
    replace (16 - l)%nat with (S (15 - l)) by lia.
    cbn [seq fmap list_fmap code_bits app decode_from].
    rewrite div_pow2_bit. cbn [Z.of_nat]. rewrite Z.pow_0_r, Z.div_1_r.
    rewrite (proj2 (Z.ltb_lt _ _)) by lia.
    replace (Z.to_nat _) with (Z.to_nat (first_index lens l)
                               + Z.to_nat (rank lens s))%nat.
    + by rewrite (lookup_symbols lens l _ s Hl Hlook).
    + pose proof (first_code_nonneg lens l).
      assert (0 <= first_index lens l).
      { clear. induction l as [|[|l] IH]; [done..|].
        rewrite first_index_S by lia.
        pose proof (count_of_nonneg lens (S l)). lia. }
      lia.
  - replace (16 - (l - S n))%nat with (S (16 - (l - n))) by lia.
    cbn [seq fmap list_fmap decode_from].
    change (code_bits (S (S n)) ?c)
      with (Z.testbit c (Z.of_nat (S n)) :: code_bits (S n) c).
    cbn [app]. rewrite div_pow2_bit.
    pose proof (first_code_prefix lens (l - S n) l ltac:(lia)) as Hpre.
    replace (l - (l - S n))%nat with (S n) in Hpre by lia.
    assert (first_code lens (l - S n) + count_of lens (l - S n)
            <= code_word lens s / 2 ^ Z.of_nat (S n)).
    { apply Z.div_le_lower_bound; lia. }
    rewrite (proj2 (Z.ltb_ge _ _)) by lia.
    replace (S (l - S n)) with (l - n)%nat by lia.
    rewrite <- (first_code_S lens (l - S n)) by lia.
    rewrite <- (first_index_S lens (l - S n)) by lia.
    replace (S (l - S n)) with (l - n)%nat by lia.
    apply IH. lia.
Qed.

(** The decoder reads the code words the format gives the lengths. *)
Theorem decode_encode lens s l (tail : Bits) :
  lens !! s = Some l -> (1 <= l <= 15)%nat ->
  0 <= code_space (build lens) ->
  decode (build lens) (encode lens s ++ tail) = Some (s, tail).
Proof.
  intros Hs Hl Hspace. unfold decode, encode.
  rewrite (list_lookup_total_correct _ _ _ Hs).
  pose proof (decode_from_code lens s l (l - 1) tail Hs Hl ltac:(lia) Hspace)
    as H.
  replace (l - (l - 1))%nat with 1%nat in H by lia.
  replace (S (l - 1)) with l in H by lia.
  destruct (lookup_rank lens s l Hs) as [_ Hrank].
  pose proof (code_fits lens l Hspace Hl).
  pose proof (first_code_nonneg lens l).
  rewrite Z.div_small in H
    by (unfold code_word; rewrite (list_lookup_total_correct _ _ _ Hs); lia).
  exact H.
Qed.

(** ** Blocks with the fixed code read back *)

Lemma bits_of_byte_value (l : Bits) :
  (length l <= 8)%nat ->
  bits_of_byte (byte_of_Z (bits_value l)) = l ++ replicate (8 - length l) false.
Proof.
  intros Hl. do 9 (destruct l as [|[] l]; [done| |]); simpl in Hl; lia.
Qed.

Lemma bits_of_bytes_pack_bits (n : nat) (bits : Bits) :
  (length bits <= 8 * n)%nat ->
  bits_of_bytes (pack_bits n bits)
  = bits ++ replicate (8 * n - length bits) false.
Proof.
  revert bits. induction n as [|n IH]; intros bits Hlen.
  - destruct bits; [done | simpl in Hlen; lia].
  - cbn [pack_bits]. rewrite bits_of_bytes_cons, IH, bits_of_byte_value
      by (rewrite ?length_drop, ?length_take; lia).
    rewrite length_take, length_drop.
    destruct (Nat.le_gt_cases 8 (length bits)) as [Hge|Hlt].
    + replace (8 - 8 `min` length bits)%nat with 0%nat by lia.
      rewrite app_nil_r, app_assoc, take_drop. do 2 f_equal. lia.
    + rewrite (drop_ge bits) by lia. rewrite (take_ge bits) by lia.
      rewrite app_nil_l, <- app_assoc, <- replicate_add. do 2 f_equal.
      cbn [length]. lia.
Qed.

(** The bits of the bytes are the bits, and less than a byte of zeros. *)
Lemma bits_of_bytes_pack (bits : Bits) :
  exists pad, (length pad < 8)%nat
    /\ bits_of_bytes (pack bits) = bits ++ pad.
Proof.
  exists (replicate (8 * ((length bits + 7) / 8) - length bits) false).
  pose proof (Nat.div_mod_eq (length bits + 7) 8).
  pose proof (Nat.mod_upper_bound (length bits + 7) 8).
  split; [rewrite length_replicate; lia|].
  apply bits_of_bytes_pack_bits. lia.
Qed.

Lemma bytes_of_bits_pad (pad : Bits) (bs : Bytes) :
  (length pad < 8)%nat -> bytes_of_bits (pad ++ bits_of_bytes bs) = Some bs.
Proof.
  intros Hpad. unfold bytes_of_bits. rewrite align_pad by done.
  rewrite length_app, length_bits_of_bytes.
  replace ((length pad + 8 * length bs) / 8)%nat with (length bs).
  - rewrite <- (app_nil_r (bits_of_bytes bs)). by rewrite read_bit_bytes_bytes.
  - rewrite Nat.mul_comm, Nat.div_add by done.
    by rewrite Nat.div_small.
Qed.

Lemma fixed_lit_build : fixed_lit = build fixed_lengths.
Proof. by vm_compute. Qed.

Lemma fixed_lengths_lookup (s : nat) :
  (s < 288)%nat ->
  exists l, fixed_lengths !! s = Some l /\ (1 <= l <= 15)%nat.
Proof.
  intros Hs.
  assert (Hall : Forall (fun l => (1 <= l <= 15)%nat) fixed_lengths)
    by (apply (bool_decide_unpack _); by vm_compute).
  destruct (lookup_lt_is_Some_2 fixed_lengths s) as [l Hl]; [done|].
  exists l. split; [done|]. by apply (Forall_lookup_1 _ _ _ _ Hall Hl).
Qed.

Lemma decode_fixed (s : nat) (tail : Bits) :
  (s < 288)%nat ->
  decode fixed_lit (encode fixed_lengths s ++ tail) = Some (s, tail).
Proof.
  intros (l & Hl & Hrange)%fixed_lengths_lookup.
  rewrite fixed_lit_build. eapply decode_encode; [done..|].
  by vm_compute.
Qed.

Lemma length_code_bits l c : length (code_bits l c) = l.
Proof. induction l as [|l IH]; [done|]. cbn [code_bits length]. by rewrite IH. Qed.

Lemma length_literals (data : Bytes) :
  (length data <= length (concat (literal <$> data)))%nat.
Proof.
  induction data as [|b data IH]; [done|].
  rewrite fmap_cons, concat_cons, length_app. cbn [length].
  pose proof (Z_of_byte_range b).
  destruct (fixed_lengths_lookup (Z.to_nat (Z_of_byte b))) as (l & Hl & Hr);
    [lia|].
  unfold literal at 1, encode.
  rewrite length_code_bits, (list_lookup_total_correct _ _ _ Hl). lia.
Qed.

Lemma inflate_codes_literals (fuel : nat) (data rout : Bytes) (tail : Bits) :
  (length data < fuel)%nat ->
  inflate_codes fuel fixed_lit fixed_dist rout
    (concat (literal <$> data) ++ encode fixed_lengths 256 ++ tail)
  = Some (reverse data ++ rout, tail).
Proof.
  revert fuel rout. induction data as [|b data IH]; intros [|fuel] rout Hfuel;
    try (cbn [length] in Hfuel; lia); cbn [inflate_codes].
  - cbn [fmap list_fmap concat app]. rewrite decode_fixed by lia. done.
  - rewrite fmap_cons, concat_cons, <- app_assoc.
    pose proof (Z_of_byte_range b).
    unfold literal at 1. rewrite decode_fixed by lia. cbn [mbind option_bind].
    rewrite (proj2 (Nat.ltb_lt _ _)) by lia.
    rewrite Z2Nat.id, byte_of_Z_of_byte by lia.
    rewrite IH by (cbn [length] in Hfuel; lia).
    by rewrite reverse_cons, <- app_assoc.
Qed.

(** What [fixed_block] writes, [inflate] reads back. *)
Theorem inflate_fixed_block (data rest : Bytes) :
  inflate (fixed_block data ++ rest) = Some (data, rest).
Proof.
  unfold inflate, fixed_block.
  destruct (bits_of_bytes_pack (fixed_block_bits data)) as (pad & Hpad & Hbits).
  rewrite bits_of_bytes_app, Hbits. unfold fixed_block_bits.
  rewrite <- !app_assoc.
  change ([true; true; false] ++ ?x) with ([true] ++ [true; false] ++ x).
  cbn [inflate_blocks]. rewrite (read_bits_app 1 [true]) by done. cbn [mbind option_bind].
  rewrite (read_bits_app 2 [true; false]) by done. cbn [mbind option_bind].
  change (bits_value [true; false] =? 0) with false.
  change (bits_value [true; false] =? 1) with true. cbv iota.
  rewrite inflate_codes_literals.
  - cbn [mbind option_bind]. change (bits_value [true] =? 1) with true.
    cbv iota. cbn [mbind option_bind].
    rewrite bytes_of_bits_pad by done. cbn [mbind option_bind].
    by rewrite app_nil_r, reverse_involutive.
  - pose proof (length_literals data). rewrite !length_app. lia.
Qed.

#[export] Instance fixed_deflater_laws : DeflateLaws fixed_deflater.
Proof. split. apply inflate_fixed_block. Qed.

(** The text "PNG", coded: the five bytes zlib writes for it when told
    to keep to the fixed code. *)
Lemma fixed_block_example :
  fixed_block (ascii_bytes "PNG")
  = [Byte.x0b; Byte.xf0; Byte.x73; Byte.x07; Byte.x00].
Proof. by vm_compute. Qed.
