(* ===== verification/Zlib.v ===== *)
(** * The zlib stream inside a PNG file

    The pixel data of a PNG file are a zlib stream: two header bytes, a
    deflate stream (Deflate.v), and the Adler-32 of the data before
    compression.

    [zlib_decompress] reads every such stream: it checks the header and
    the checksum and leaves the blocks to [inflate].  [zlib_compress] puts
    the frame around the blocks of a compressor; with every compressor
    that meets [DeflateLaws], what was compressed is decompressed to the
    same data. *)

From Stdlib Require Import ZArith Lia String.
From Stdlib Require Strings.Byte.
From stdpp Require Import base tactics option list.
From S2P Require Import Prelude ByteSeq Checksum Deflate.

Local Open Scope Z_scope.

(** ** Writing *)

(** Compression method 8 with a window of 32K, no dictionary, and the
    check bits that make the two bytes a multiple of 31. *)
Definition zlib_header : Bytes := [Byte.x78; Byte.x01].

(** The frame around the blocks [blocks] of the data [data]. *)
Definition zlib_stream (blocks data : Bytes) : Bytes :=
  zlib_header ++ blocks ++ be32 (adler32 data).

Definition zlib_compress `{D : Deflater} (data : Bytes) : Bytes :=
  zlib_stream (deflate data) data.

(** ** Reading *)

Definition zlib_header_ok (cmf flg : Z) : bool :=
  (Z.land cmf 15 =? 8) && (Z.shiftr cmf 4 <=? 7)
  && negb (Z.testbit flg 5) && ((cmf * 256 + flg) mod 31 =? 0).

Definition zlib_decompress (bs : Bytes) : option Bytes :=
  '(cmf, bs) ← read_byte bs;
  '(flg, bs) ← read_byte bs;
  if zlib_header_ok (Z_of_byte cmf) (Z_of_byte flg) then
    '(data, bs) ← inflate bs;
    '(sum, bs) ← read_be32 bs;
    if sum =? adler32 data then at_end data bs else None
  else None.

#[global] Arguments zlib_header : simpl never.

(** ** Streams read back *)

(** Blocks that [inflate] reads as [data], in the frame, are decompressed
    to [data]. *)
Lemma zlib_decompress_stream (blocks data : Bytes) :
  (forall rest, inflate (blocks ++ rest) = Some (data, rest)) ->
  zlib_decompress (zlib_stream blocks data) = Some data.
Proof.
  intros Hblocks. unfold zlib_decompress, zlib_stream, zlib_header.
  cbn [app]. do 2 read_with (eq_refl : read_byte (_ :: _) = Some _).
  change (zlib_header_ok _ _) with true. cbv iota.
  read_with (Hblocks _).
  read_with (read_be32_only _ (adler32_range _)).
  by rewrite Z.eqb_refl.
Qed.

Lemma zlib_decompress_compress `{D : Deflater} `{!DeflateLaws D}
    (data : Bytes) :
  zlib_decompress (zlib_compress data) = Some data.
Proof. apply zlib_decompress_stream. apply inflate_deflate. Qed.

(** A stream as zlib writes it at its default level: the header bytes of
    that level, a block with the fixed code, the checksum. *)
Lemma zlib_decompress_example :
  zlib_decompress
    [Byte.x78; Byte.x9c; Byte.x0b; Byte.xf0; Byte.x73; Byte.x07; Byte.x00;
     Byte.x01; Byte.xd6; Byte.x00; Byte.xe6]
  = Some (ascii_bytes "PNG").
Proof. by vm_compute. Qed.

(** The header bytes zlib writes at its compression levels are headers
    the reader takes. *)
Lemma zlib_headers_ok :
  Forall (fun flg => zlib_header_ok 0x78 flg = true) [0x01; 0x5E; 0x9C; 0xDA].
Proof. by repeat constructor. Qed.
