(* ===== verification/PngFilter.v ===== *)
(** * The row filters of PNG

    Before the rows of an image are compressed each one is filtered: every
    byte is replaced by its difference, modulo 256, from a prediction made
    of the bytes before it.  The format has five filters, which differ in
    the prediction: nothing, the byte of the pixel to the left, the byte
    above, the mean of the two, or whichever of left, above and upper left
    is nearest to left + above - upper left (Paeth).  The encoder chooses a
    filter row by row and writes its number in front of the row; the
    reader adds the prediction back, from the bytes it has already
    restored.

    Which filter an encoder chooses is its own business.  The heuristic
    of the imaging library, taken from libpng, tries the five on every row
    and keeps the one whose bytes are nearest to zero ([adaptive]).
    [unfilter_rows] restores the rows whatever the choice was
    ([unfilter_filter_rows]). *)

From Stdlib Require Import ZArith Lia.
From Stdlib Require Strings.Byte.
From stdpp Require Import base tactics option list.
From S2P Require Import Prelude ByteSeq.

Local Open Scope Z_scope.

(** ** Predictions *)

Inductive filter : Type := FNone | FSub | FUp | FAverage | FPaeth.

#[export] Instance filter_eq_dec : EqDecision filter.
Proof. solve_decision. Defined.

Definition filter_code (ft : filter) : Z :=
  match ft with
  | FNone => 0 | FSub => 1 | FUp => 2 | FAverage => 3 | FPaeth => 4
  end.

Definition filter_of_code (z : Z) : option filter :=
  match z with
  | 0 => Some FNone | 1 => Some FSub | 2 => Some FUp
  | 3 => Some FAverage | 4 => Some FPaeth
  | _ => None
  end.

(** The one of [a] (left), [b] (above) and [c] (upper left) nearest to
    [a + b - c]; on a tie [a] before [b] before [c]. *)
Definition paeth (a b c : Z) : Z :=
  let p := a + b - c in
  let pa := Z.abs (p - a) in
  let pb := Z.abs (p - b) in
  let pc := Z.abs (p - c) in
  if (pa <=? pb) && (pa <=? pc) then a
  else if pb <=? pc then b else c.

Definition predictor (ft : filter) (a b c : Z) : Z :=
  match ft with
  | FNone => 0
  | FSub => a
  | FUp => b
  | FAverage => (a + b) / 2
  | FPaeth => paeth a b c
  end.

Definition filter_byte (ft : filter) (a b c x : Byte.byte) : Byte.byte :=
  byte_of_Z (Z_of_byte x - predictor ft (Z_of_byte a) (Z_of_byte b)
                             (Z_of_byte c)).

Definition unfilter_byte (ft : filter) (a b c f : Byte.byte) : Byte.byte :=
  byte_of_Z (Z_of_byte f + predictor ft (Z_of_byte a) (Z_of_byte b)
                             (Z_of_byte c)).

(** ** Rows *)

(** Bytes in a pixel: four channels of eight bits. *)
Definition bpp : nat := 4.

Definition first (bs : Bytes) : Byte.byte := hd Byte.x00 bs.

(** A row, byte by byte.  [left] holds the bytes of the pixel to the left
    (zeros at the start of the row), [upleft] the row above from one pixel
    to the left on, [up] the row above; a row that is not there counts as
    zeros. *)
Fixpoint filter_from (ft : filter) (left upleft up row : Bytes) : Bytes :=
  match row with
  | [] => []
  | x :: row =>
      filter_byte ft (first left) (first up) (first upleft) x
      :: filter_from ft (tl left ++ [x]) (tl upleft) (tl up) row
  end.

Fixpoint unfilter_from (ft : filter) (left upleft up row : Bytes) : Bytes :=
  match row with
  | [] => []
  | f :: row =>
      let x := unfilter_byte ft (first left) (first up) (first upleft) f in
      x :: unfilter_from ft (tl left ++ [x]) (tl upleft) (tl up) row
  end.

Definition filter_row (ft : filter) (prior row : Bytes) : Bytes :=
  filter_from ft (replicate bpp Byte.x00) (replicate bpp Byte.x00 ++ prior)
    prior row.

Definition unfilter_row (ft : filter) (prior row : Bytes) : Bytes :=
  unfilter_from ft (replicate bpp Byte.x00) (replicate bpp Byte.x00 ++ prior)
    prior row.

(** ** Images *)

(** The rows of an image from top to bottom, each after the number of its
    filter; [choose] picks the filter from the row above and the row. *)
Fixpoint filter_rows (choose : Bytes -> Bytes -> filter) (prior : Bytes)
    (rows : list Bytes) : Bytes :=
  match rows with
  | [] => []
  | row :: rows =>
      let ft := choose prior row in
      byte_of_Z (filter_code ft) :: filter_row ft prior row
      ++ filter_rows choose row rows
  end.

(** [h] rows of [n] bytes. *)
Fixpoint unfilter_rows (n h : nat) (prior : Bytes) : reader (list Bytes) :=
  fun bs =>
  match h with
  | O => Some ([], bs)
  | S h =>
      '(f, bs) ← read_byte bs;
      ft ← filter_of_code (Z_of_byte f);
      '(frow, bs) ← read_bytes n bs;
      let row := unfilter_row ft prior frow in
      '(rows, bs) ← unfilter_rows n h row bs;
      Some (row :: rows, bs)
  end.

(** ** Choosing a filter *)

(** How far a byte is from zero, as a difference modulo 256. *)
Definition distance (b : Byte.byte) : Z :=
  let v := Z_of_byte b in if v <? 128 then v else 256 - v.

Definition row_cost (row : Bytes) : Z := foldr (fun b s => distance b + s) 0 row.

(** The filter whose row is nearest to zero; the filters are tried in the
    order none, up, sub, average, Paeth, and a later one is taken when it
    is strictly better. *)
Definition adaptive (prior row : Bytes) : filter :=
  fst (foldl (fun best ft =>
               let cost := row_cost (filter_row ft prior row) in
               if cost <? best.2 then (ft, cost) else best)
         (FNone, row_cost row) [FUp; FSub; FAverage; FPaeth]).

#[global] Arguments filter_byte : simpl never.
#[global] Arguments unfilter_byte : simpl never.

(** ** A byte restored *)

Lemma filter_of_code_code (ft : filter) :
  filter_of_code (Z_of_byte (byte_of_Z (filter_code ft))) = Some ft.
Proof. by destruct ft. Qed.

Lemma filter_of_code_Some (z : Z) (ft : filter) :
  filter_of_code z = Some ft -> z = filter_code ft.
Proof. destruct z as [|[[|[]|]|[|[]|]|]|]; try done; by intros [= <-]. Qed.

(** [byte_of_Z] looks at its argument modulo 256. *)
Lemma byte_of_Z_mod (a b : Z) : a mod 256 = b mod 256 -> byte_of_Z a = byte_of_Z b.
Proof. unfold byte_of_Z. by intros ->. Qed.

Lemma unfilter_filter_byte (ft : filter) (a b c x : Byte.byte) :
  unfilter_byte ft a b c (filter_byte ft a b c x) = x.
Proof.
  unfold unfilter_byte, filter_byte. rewrite Z_of_byte_of_Z.
  rewrite <- (byte_of_Z_of_byte x) at 2. apply byte_of_Z_mod.
  rewrite Zplus_mod_idemp_l. f_equal. lia.
Qed.

Lemma filter_unfilter_byte (ft : filter) (a b c f : Byte.byte) :
  filter_byte ft a b c (unfilter_byte ft a b c f) = f.
Proof.
  unfold unfilter_byte, filter_byte. rewrite Z_of_byte_of_Z.
  rewrite <- (byte_of_Z_of_byte f) at 2. apply byte_of_Z_mod.
  rewrite Zminus_mod_idemp_l. f_equal. lia.
Qed.

(** The prediction is a byte when its arguments are. *)
Lemma paeth_cases (a b c : Z) : paeth a b c = a \/ paeth a b c = b \/ paeth a b c = c.
Proof. unfold paeth. repeat case_match; auto. Qed.

Lemma predictor_byte (ft : filter) (a b c : Z) :
  0 <= a < 256 -> 0 <= b < 256 -> 0 <= c < 256 ->
  0 <= predictor ft a b c < 256.
Proof.
  intros Ha Hb Hc. destruct ft; simpl; try lia; [zdiv|].
  destruct (paeth_cases a b c) as [->|[->| ->]]; lia.
Qed.

(** ** Rows restored *)

Lemma length_filter_from ft left upleft up row :
  length (filter_from ft left upleft up row) = length row.
Proof.
  revert left upleft up. induction row as [|x row IH]; intros; [done|].
  cbn [filter_from length]. by rewrite IH.
Qed.

Lemma length_unfilter_from ft left upleft up row :
  length (unfilter_from ft left upleft up row) = length row.
Proof.
  revert left upleft up. induction row as [|x row IH]; intros; [done|].
  cbn [unfilter_from length]. by rewrite IH.
Qed.

Lemma unfilter_filter_from ft left upleft up row :
  unfilter_from ft left upleft up (filter_from ft left upleft up row) = row.
Proof.
  revert left upleft up. induction row as [|x row IH]; intros; [done|].
  cbn [filter_from unfilter_from]. by rewrite unfilter_filter_byte, IH.
Qed.

Lemma filter_unfilter_from ft left upleft up row :
  filter_from ft left upleft up (unfilter_from ft left upleft up row) = row.
Proof.
  revert left upleft up. induction row as [|x row IH]; intros; [done|].
  cbn [filter_from unfilter_from]. by rewrite filter_unfilter_byte, IH.
Qed.

Lemma length_filter_row ft prior row :
  length (filter_row ft prior row) = length row.
Proof. apply length_filter_from. Qed.

Lemma length_unfilter_row ft prior row :
  length (unfilter_row ft prior row) = length row.
Proof. apply length_unfilter_from. Qed.

Lemma unfilter_filter_row ft prior row :
  unfilter_row ft prior (filter_row ft prior row) = row.
Proof. apply unfilter_filter_from. Qed.

(** The filter that predicts nothing leaves the row as it is. *)
Lemma filter_from_none left upleft up row :
  filter_from FNone left upleft up row = row.
Proof.
  revert left upleft up. induction row as [|x row IH]; intros; [done|].
  cbn [filter_from]. rewrite IH. f_equal.
  unfold filter_byte. cbn [predictor]. by rewrite Z.sub_0_r, byte_of_Z_of_byte.
Qed.

Lemma filter_row_none prior row : filter_row FNone prior row = row.
Proof. apply filter_from_none. Qed.

(** ** Images restored *)

(** Whatever filters the encoder chose, the reader restores the rows. *)
Lemma unfilter_filter_rows choose (n : nat) prior (rows : list Bytes)
    (rest : Bytes) :
  Forall (fun row => length row = n) rows ->
  unfilter_rows n (length rows) prior (filter_rows choose prior rows ++ rest)
  = Some (rows, rest).
Proof.
  intros Hrows. revert prior.
  induction Hrows as [|row rows Hrow _ IH]; intros prior; [done|].
  cbn [filter_rows unfilter_rows length].
  rewrite <- app_comm_cons, <- app_assoc.
  read_with (eq_refl : read_byte (_ :: _) = Some _).
  rewrite filter_of_code_code. cbn [mbind option_bind].
  pose proof (read_bytes_app (filter_row (choose prior row) prior row)
                (filter_rows choose row rows ++ rest)) as Hread.
  rewrite length_filter_row, Hrow in Hread. read_with Hread.
  rewrite unfilter_filter_row. by read_with (IH row).
Qed.

(** What the reader returns are rows of the length asked for. *)
Lemma unfilter_rows_length (n h : nat) prior (bs rest : Bytes)
    (rows : list Bytes) :
  unfilter_rows n h prior bs = Some (rows, rest) ->
  length rows = h /\ Forall (fun row => length row = n) rows.
Proof.
  revert prior bs rest rows.
  induction h as [|h IH]; intros prior bs rest rows H; cbn [unfilter_rows] in H.
  - by injection H as <- _.
  - read_inv H as [f bs0] Hf. apply bind_Some in H as (ft & Hft & H).
    read_inv H as [frow bs1] Hrow. read_inv H as [rows' bs2] Hrows.
    injection H as <- _. destruct (IH _ _ _ _ Hrows) as [<- Hall].
    split; [done|]. constructor; [|done].
    rewrite length_unfilter_row. unfold read_bytes in Hrow.
    case_match eqn:Hle; [|done]. injection Hrow as <- _.
    apply Nat.leb_le in Hle. rewrite length_take. lia.
Qed.

(** ** The choice of the imaging library *)

(** On a row of zeros no filter does better than none. *)
Lemma adaptive_zero_cost prior row : row_cost row = 0 -> adaptive prior row = FNone.
Proof.
  assert (Hcost : forall r, 0 <= row_cost r).
  { induction r as [|b r IH]; [done|]. cbn [row_cost foldr].
    fold (row_cost r). unfold distance. pose proof (Z_of_byte_range b).
    case_match; lia. }
  intros Hz. unfold adaptive. rewrite Hz.
  generalize [FUp; FSub; FAverage; FPaeth]. generalize FNone.
  intros ft fts. revert ft. induction fts as [|ft' fts IH]; intros ft; [done|].
  cbn [foldl snd].
  destruct (Z.ltb_spec (row_cost (filter_row ft' prior row)) 0) as [Hlt|_];
    [pose proof (Hcost (filter_row ft' prior row)); lia | apply IH].
Qed.
