(* ===== verification/Png.v ===== *)
(** * PNG files

    [img.save(filename, 'PNG')] hands the image to the imaging library's
    PNG encoder and writes the bytes it returns.  This file says what a
    PNG file is, by the reader [png_decode] of the files that hold 8-bit
    RGBA images without interlacing, which is what the script saves: the
    signature; the header chunk with the two sides, the depth and the
    colour type; the data chunks, whose data put together are a zlib stream
    (Zlib.v, Deflate.v) of the filtered rows (PngFilter.v); the end chunk.
    Every chunk carries the CRC-32 of its type and data, which the reader
    checks.  The reader is strict: it takes no chunk the format does not
    require, so a file it reads is one every reader of the format reads.
    [png_info] reads the header alone, the way a tool that reports the
    dimensions of a file does.

    The encoder is library code, stated as the interface [PngCodec] with
    the laws [PngLaws], which say that it writes PNG files:

    - an RGBA image with at least one pixel and sides below 2^31 (the limit
      of the format) is encoded;
    - what was encoded is read back as the same image by [png_decode];
    - the bytes of an RGBA image start with the signature of the format and
      the header chunk of the image;
    - the bytes end with the end chunk;
    - what an encoder that raises has written by then is not a file the
      reader takes.

    The laws leave to the encoder how it filters and compresses the rows
    and how it cuts the stream into data chunks, and whether it encodes an
    image without pixels.  Encoders that meet the laws are in
    PngWrite.v. *)

From Stdlib Require Import ZArith Lia String.
From Stdlib Require Strings.Byte.
From stdpp Require Import base tactics option list strings.
From S2P Require Import Prelude Raster ByteSeq Checksum Deflate Zlib PngFilter.

Local Open Scope Z_scope.

(** ** Images a PNG file can hold *)

(** The images every encoder takes. *)
Definition encodable (img : Image) : Prop :=
  im_mode img = "RGBA"%string /\ wf_image img
  /\ 0 < width img < 2 ^ 31 /\ 0 < height img < 2 ^ 31.

(** ** The frame of a file *)

Definition png_signature : Bytes :=
  [Byte.x89; Byte.x50; Byte.x4e; Byte.x47;
   Byte.x0d; Byte.x0a; Byte.x1a; Byte.x0a].

(** A chunk: the length of the data, the four letters of the type, the
    data, and the CRC-32 of type and data. *)
Definition chunk (ty : string) (data : Bytes) : Bytes :=
  be32 (Z.of_nat (length data)) ++ ascii_bytes ty ++ data
  ++ be32 (crc32 (ascii_bytes ty ++ data)).

(** The data of the header chunk of an RGBA image with eight bits a
    channel: the sides, the depth, colour type 6, and the only compression
    and filter methods of the format, not interlaced. *)
Definition ihdr (w h : Z) : Bytes :=
  be32 w ++ be32 h ++ [Byte.x08; Byte.x06; Byte.x00; Byte.x00; Byte.x00].

Definition png_header (w h : Z) : Bytes :=
  png_signature ++ chunk "IHDR" (ihdr w h).

Definition png_trailer : Bytes := chunk "IEND" [].

(** ** What the header says *)

Record PngInfo := mkInfo {
  info_width : Z;
  info_height : Z;
  info_depth : Z;
  info_colour : Z;
  info_interlace : Z;
}.

(** Eight bits a channel, colour with alpha, not interlaced. *)
Definition rgba8 (w h : Z) : PngInfo := mkInfo w h 8 6 0.

Definition read_signature : reader unit := fun bs =>
  match bs with
  | b0 :: b1 :: b2 :: b3 :: b4 :: b5 :: b6 :: b7 :: rest =>
      if forallb (fun p => Byte.eqb p.1 p.2)
           (zip [b0; b1; b2; b3; b4; b5; b6; b7] png_signature)
      then Some (tt, rest) else None
  | _ => None
  end.

(** A chunk is taken when its checksum is right. *)
Definition read_chunk : reader (string * Bytes) := fun bs =>
  '(len, bs) ← read_be32 bs;
  '(ty, bs) ← read_bytes 4 bs;
  '(data, bs) ← read_bytes (Z.to_nat len) bs;
  '(crc, bs) ← read_be32 bs;
  if crc =? crc32 (ty ++ data)
  then Some ((string_of_list_byte ty, data), bs) else None.

(** The fields of a header chunk; the sides are positive and below 2^31,
    and the compression and filter methods are the ones the format has. *)
Definition read_ihdr (data : Bytes) : option PngInfo :=
  '(w, bs) ← read_be32 data;
  '(h, bs) ← read_be32 bs;
  match bs with
  | [d; c; z; f; i] =>
      if (0 <? w) && (w <? 2 ^ 31) && (0 <? h) && (h <? 2 ^ 31)
         && (Z_of_byte z =? 0) && (Z_of_byte f =? 0)
      then Some (mkInfo w h (Z_of_byte d) (Z_of_byte c) (Z_of_byte i))
      else None
  | _ => None
  end.

(** The signature and the header chunk. *)
Definition read_header : reader PngInfo := fun bs =>
  '(_, bs) ← read_signature bs;
  '(c, bs) ← read_chunk bs;
  if String.eqb c.1 "IHDR" then info ← read_ihdr c.2; Some (info, bs)
  else None.

(** The header of a file, as far as it can be read without the pixels. *)
Definition png_info (bs : Bytes) : option PngInfo := fst <$> read_header bs.

(** ** Pixels and rows *)

Definition pixel_bytes (c : Colour) : Bytes :=
  [byte_of_Z (red c); byte_of_Z (green c); byte_of_Z (blue c);
   byte_of_Z (alpha c)].

Definition read_pixel : reader Colour := fun bs =>
  match bs with
  | r :: g :: b :: a :: rest =>
      Some ((Z_of_byte r, Z_of_byte g, Z_of_byte b, Z_of_byte a), rest)
  | _ => None
  end.

Fixpoint read_pixels (n : nat) : reader (list Colour) := fun bs =>
  match n with
  | O => Some ([], bs)
  | S n =>
      '(c, rest) ← read_pixel bs;
      '(cs, rest') ← read_pixels n rest;
      Some (c :: cs, rest')
  end.

(** ** The reader *)

(** The data chunks up to the end chunk, their data put together.  A
    chunk takes twelve bytes at least, so the length of the input is fuel
    enough. *)
Fixpoint read_idats (fuel : nat) : reader Bytes := fun bs =>
  match fuel with
  | O => None
  | S fuel =>
      '(c, bs) ← read_chunk bs;
      if String.eqb c.1 "IDAT" then
        '(more, bs) ← read_idats fuel bs; Some (c.2 ++ more, bs)
      else if String.eqb c.1 "IEND" then
        match c.2 with
        | [] => Some ([], bs)
        | _ :: _ => None
        end
      else None
  end.

Definition rgba8b (info : PngInfo) : bool :=
  (info_depth info =? 8) && (info_colour info =? 6)
  && (info_interlace info =? 0).

(** The image a file holds: the header, the data chunks, the stream
    decompressed, the rows restored, the pixels; and nothing left over at
    any of these levels. *)
Definition png_decode (bs : Bytes) : option Image :=
  '(info, bs) ← read_header bs;
  if rgba8b info then
    let w := Z.to_nat (info_width info) in
    let h := Z.to_nat (info_height info) in
    '(z, bs) ← read_idats (length bs) bs;
    raw ← zlib_decompress z;
    '(rows, rest) ← unfilter_rows (bpp * w) h [] raw;
    '(data, rest') ← read_pixels (w * h) (concat rows);
    match bs, rest, rest' with
    | [], [], [] =>
        Some (mkImage "RGBA" (info_width info, info_height info) data)
    | _, _, _ => None
    end
  else None.

(** ** The encoder of the library *)

Class PngCodec : Type := {
  (** the encoder behind [img.save(..., 'PNG')]; it may refuse an image *)
  png_encode : Image -> outcome exn Bytes;
  (** what the encoder has written to the file by the time it raises *)
  png_partial : Image -> Bytes;
  (** whether [img.save] removes a file it created when the encoder raises
      (recent releases of the library do, older ones leave it) *)
  save_removes_created : bool;
}.

Class PngLaws (PC : PngCodec) : Prop := {
  png_encode_encodable : forall img,
    encodable img -> exists bs, png_encode img = Ret bs;
  png_decode_encode : forall img bs,
    png_encode img = Ret bs -> all_pixels valid_colour img ->
    png_decode bs = Some img;
  png_encode_header : forall img bs,
    png_encode img = Ret bs -> im_mode img = "RGBA"%string ->
    png_header (width img) (height img) `prefix_of` bs;
  png_encode_trailer : forall img bs,
    png_encode img = Ret bs -> png_trailer `suffix_of` bs;
  png_partial_unreadable : forall img e,
    png_encode img = Raise e -> png_decode (png_partial img) = None;
}.

#[global] Arguments png_signature : simpl never.
#[global] Arguments chunk : simpl never.
#[global] Arguments ihdr : simpl never.
#[global] Arguments pixel_bytes : simpl never.

(** ** Chunks read back *)

Lemma read_signature_signature (rest : Bytes) :
  read_signature (png_signature ++ rest) = Some (tt, rest).
Proof. reflexivity. Qed.

Lemma length_chunk (ty : string) (data : Bytes) :
  length (chunk ty data) = (String.length ty + length data + 8)%nat.
Proof.
  unfold chunk. rewrite !length_app, !length_be32, length_ascii_bytes. lia.
Qed.

Lemma read_chunk_chunk (ty : string) (data rest : Bytes) :
  String.length ty = 4%nat -> Z.of_nat (length data) < 2 ^ 32 ->
  read_chunk (chunk ty data ++ rest) = Some ((ty, data), rest).
Proof.
  intros Hty Hlen. unfold read_chunk, chunk. rewrite <- !app_assoc.
  read_with (read_be32_be32 (Z.of_nat (length data)) _ ltac:(lia)).
  rewrite <- Hty, <- length_ascii_bytes. read_with (read_bytes_app _ _).
  rewrite Nat2Z.id. read_with (read_bytes_app _ _).
  read_with (read_be32_be32 _ _ (crc32_range _)).
  by rewrite Z.eqb_refl, ascii_bytes_string.
Qed.

Lemma read_ihdr_ihdr (w h : Z) :
  0 < w < 2 ^ 31 -> 0 < h < 2 ^ 31 -> read_ihdr (ihdr w h) = Some (rgba8 w h).
Proof.
  intros Hw Hh. unfold read_ihdr, ihdr.
  read_with (read_be32_be32 w _ ltac:(lia)).
  read_with (read_be32_be32 h _ ltac:(lia)).
  rewrite (proj2 (Z.ltb_lt 0 w)), (proj2 (Z.ltb_lt w _)) by lia.
  by rewrite (proj2 (Z.ltb_lt 0 h)), (proj2 (Z.ltb_lt h _)) by lia.
Qed.

Lemma length_ihdr (w h : Z) : length (ihdr w h) = 13%nat.
Proof. reflexivity. Qed.

(** The header can be read off the front of a file. *)
Lemma read_header_header (w h : Z) (rest : Bytes) :
  0 < w < 2 ^ 31 -> 0 < h < 2 ^ 31 ->
  read_header (png_header w h ++ rest) = Some (rgba8 w h, rest).
Proof.
  intros Hw Hh. unfold read_header, png_header. rewrite <- !app_assoc.
  read_with (read_signature_signature _).
  read_with (read_chunk_chunk "IHDR" (ihdr w h) _ eq_refl
               ltac:(rewrite length_ihdr; lia)).
  cbv [fst snd]. by rewrite String.eqb_refl, read_ihdr_ihdr.
Qed.

(** Of a file that ends after the header chunk nothing is left to read. *)
Lemma read_header_only (w h : Z) :
  read_header (png_header w h) = (info ← read_ihdr (ihdr w h); Some (info, [])).
Proof.
  unfold read_header, png_header.
  rewrite <- (app_nil_r (chunk "IHDR" (ihdr w h))).
  read_with (read_signature_signature _).
  read_with (read_chunk_chunk "IHDR" (ihdr w h) _ eq_refl
               ltac:(rewrite length_ihdr; lia)).
  cbv [fst snd]. by rewrite String.eqb_refl.
Qed.

Lemma png_info_header (w h : Z) (rest : Bytes) :
  0 < w < 2 ^ 31 -> 0 < h < 2 ^ 31 ->
  png_info (png_header w h ++ rest) = Some (rgba8 w h).
Proof. intros Hw Hh. unfold png_info. by rewrite read_header_header. Qed.

(** The end chunk, byte by byte. *)
Lemma png_trailer_bytes :
  png_trailer
  = [Byte.x00; Byte.x00; Byte.x00; Byte.x00;
     Byte.x49; Byte.x45; Byte.x4e; Byte.x44;
     Byte.xae; Byte.x42; Byte.x60; Byte.x82].
Proof. by vm_compute. Qed.

(** The header of a 16 by 16 image, byte by byte. *)
Lemma png_header_16 :
  png_header 16 16
  = png_signature
    ++ [Byte.x00; Byte.x00; Byte.x00; Byte.x0d;
        Byte.x49; Byte.x48; Byte.x44; Byte.x52;
        Byte.x00; Byte.x00; Byte.x00; Byte.x10;
        Byte.x00; Byte.x00; Byte.x00; Byte.x10;
        Byte.x08; Byte.x06; Byte.x00; Byte.x00; Byte.x00;
        Byte.x1f; Byte.xf3; Byte.xff; Byte.x61].
Proof. by vm_compute. Qed.

(** ** Pixels and data chunks read back *)

Lemma read_pixel_bytes (c : Colour) (rest : Bytes) :
  valid_colour c -> read_pixel (pixel_bytes c ++ rest) = Some (c, rest).
Proof.
  destruct c as [[[r g] b] a]. unfold valid_colour, byte.
  intros (Hr & Hg & Hb & Ha).
  unfold pixel_bytes, read_pixel. simpl in *.
  by rewrite !Z_of_byte_small by lia.
Qed.

Lemma read_pixels_bytes (cs : list Colour) (rest : Bytes) :
  Forall valid_colour cs ->
  read_pixels (length cs) (concat (pixel_bytes <$> cs) ++ rest)
  = Some (cs, rest).
Proof.
  induction 1 as [|c cs Hc _ IH]; [done|].
  cbn [length fmap list_fmap concat read_pixels].
  rewrite <- app_assoc. read_with (read_pixel_bytes c _ Hc).
  by read_with IH.
Qed.

Lemma read_idats_chunks (fuel : nat) (ps : list Bytes) (rest : Bytes) :
  Forall (fun p => Z.of_nat (length p) < 2 ^ 32) ps ->
  (length ps < fuel)%nat ->
  read_idats fuel (concat (chunk "IDAT" <$> ps) ++ png_trailer ++ rest)
  = Some (concat ps, rest).
Proof.
  revert fuel. induction ps as [|p ps IH]; intros [|fuel] Hps Hfuel;
    try (simpl in Hfuel; lia); cbn [read_idats].
  - rewrite fmap_nil, concat_nil, app_nil_l.
    by read_with (read_chunk_chunk "IEND" [] rest eq_refl ltac:(simpl; lia)).
  - apply Forall_cons in Hps as [Hp Hps].
    rewrite fmap_cons, concat_cons, <- app_assoc.
    read_with (read_chunk_chunk "IDAT" p _ eq_refl Hp).
    cbv [fst snd]. rewrite String.eqb_refl.
    by read_with (IH fuel Hps ltac:(simpl in *; lia)).
Qed.

(** ** What the reader returns *)

(** ** Fuel *)

Lemma read_chunk_length (bs : Bytes) (c : string * Bytes) (bs' : Bytes) :
  read_chunk bs = Some (c, bs') -> (12 + length bs' <= length bs)%nat.
Proof.
  unfold read_chunk. intros H. read_inv H as [len bs1] Hlen.
  read_inv H as [ty bs2] Hty. read_inv H as [data bs3] Hdata.
  read_inv H as [crc bs4] Hcrc. destruct (_ =? _); [|done].
  injection H as _ <-. apply read_be32_length in Hlen, Hcrc.
  apply read_bytes_length in Hty, Hdata. lia.
Qed.

Lemma read_idats_more (fuel fuel' : nat) (bs : Bytes) :
  (length bs < 12 * fuel)%nat -> (length bs < 12 * fuel')%nat ->
  read_idats fuel bs = read_idats fuel' bs.
Proof.
  revert fuel' bs. induction fuel as [|fuel IH]; intros [|fuel'] bs Hf Hf';
    try lia.
  cbn [read_idats]. destruct (read_chunk bs) as [[c bs1]|] eqn:Hc; [|done].
  apply read_chunk_length in Hc. cbn [mbind option_bind]. cbv beta iota.
  destruct (String.eqb _ _); [|done]. by rewrite (IH fuel') by lia.
Qed.

(** A chunk takes twelve bytes at least, so the length of the input is
    fuel enough: with more, the same is read. *)
Theorem read_idats_fuel (fuel : nat) (bs : Bytes) :
  (length bs <= fuel)%nat -> read_idats fuel bs = read_idats (length bs) bs.
Proof.
  destruct bs as [|b bs]; [by destruct fuel|].
  intros Hfuel. apply read_idats_more; simpl in *; lia.
Qed.

Lemma read_pixel_valid (bs rest : Bytes) (c : Colour) :
  read_pixel bs = Some (c, rest) -> valid_colour c.
Proof.
  destruct bs as [|r [|g [|b [|a bs]]]]; try done. intros [= <- _].
  unfold valid_colour, byte, red, green, blue, alpha. cbn [fst snd].
  pose proof (Z_of_byte_range r). pose proof (Z_of_byte_range g).
  pose proof (Z_of_byte_range b). pose proof (Z_of_byte_range a). lia.
Qed.

Lemma read_pixels_valid (n : nat) (bs rest : Bytes) (cs : list Colour) :
  read_pixels n bs = Some (cs, rest) ->
  length cs = n /\ Forall valid_colour cs.
Proof.
  revert bs cs. induction n as [|n IH]; intros bs cs H; cbn [read_pixels] in H.
  - by injection H as <- _.
  - read_inv H as [c bs1] Hc. read_inv H as [cs' bs2] Hcs.
    injection H as <- <-. destruct (IH _ _ Hcs) as [<- Hv].
    split; [done|]. constructor; [by eapply read_pixel_valid | done].
Qed.

Lemma read_ihdr_range (data : Bytes) (info : PngInfo) :
  read_ihdr data = Some info ->
  0 < info_width info < 2 ^ 31 /\ 0 < info_height info < 2 ^ 31.
Proof.
  unfold read_ihdr. intros H.
  read_inv H as [w bs] Hw. read_inv H as [h bs'] Hh.
  destruct bs' as [|d [|c [|z [|f [|i [|]]]]]]; try done.
  case_match eqn:Hc; [|done]. injection H as <-. simpl.
  repeat (apply andb_true_iff in Hc as [Hc ?]). lia.
Qed.

Lemma read_header_range (bs rest : Bytes) (info : PngInfo) :
  read_header bs = Some (info, rest) ->
  0 < info_width info < 2 ^ 31 /\ 0 < info_height info < 2 ^ 31.
Proof.
  unfold read_header. intros H.
  read_inv H as [[] bs0] Hsig. read_inv H as [c bs1] Hc.
  destruct (String.eqb _ _); [|done]. read_inv H as i Hi.
  injection H as <- _. by apply read_ihdr_range in Hi.
Qed.

Lemma rgba8b_spec (info : PngInfo) :
  rgba8b info = true ->
  info = rgba8 (info_width info) (info_height info).
Proof.
  unfold rgba8b, rgba8. destruct info as [w h d c i]. simpl.
  intros [[?%Z.eqb_eq ?%Z.eqb_eq]%andb_true_iff ?%Z.eqb_eq]%andb_true_iff.
  by subst.
Qed.

(** A file that ends after the header chunk is not read as an image. *)
Lemma png_decode_header (w h : Z) : png_decode (png_header w h) = None.
Proof.
  unfold png_decode. rewrite read_header_only.
  destruct (read_ihdr (ihdr w h)) as [info|]; [|done].
  cbn [mbind option_bind]. by destruct (rgba8b info).
Qed.

(** The reader is sound: what it returns is a well-formed RGBA raster of
    bytes with the sides the header of the file gives. *)
Lemma png_decode_sound (bs : Bytes) (img : Image) :
  png_decode bs = Some img ->
  encodable img /\ all_pixels valid_colour img
  /\ png_info bs = Some (rgba8 (width img) (height img)).
Proof.
  unfold png_decode, png_info. intros H.
  read_inv H as [info bs1] Hhd. rewrite Hhd.
  destruct (rgba8b info) eqn:Hrgba; [|done]. cbv zeta in H.
  read_inv H as [z bs2] Hz. read_inv H as raw Hraw.
  read_inv H as [rows rest] Hrows. read_inv H as [data rest'] Hdata.
  destruct bs2, rest, rest'; try done. injection H as <-.
  apply read_pixels_valid in Hdata as [Hlen Hvalid].
  apply read_header_range in Hhd as [Hw Hh].
  apply rgba8b_spec in Hrgba.
  split; [|split; [done | by rewrite Hrgba at 1]].
  repeat split; try done; unfold width, height; simpl; lia.
Qed.

(** ** What the laws give *)

Section Laws.
Context `{PC : PngCodec} `{!PngLaws PC}.

Lemma png_encode_signature (img : Image) (bs : Bytes) :
  png_encode img = Ret bs -> im_mode img = "RGBA"%string ->
  png_signature `prefix_of` bs.
Proof.
  intros Henc Hmode.
  destruct (png_encode_header _ _ Henc Hmode) as [rest ->].
  exists (chunk "IHDR" (ihdr (width img) (height img)) ++ rest).
  unfold png_header. by rewrite <- app_assoc.
Qed.

(** The signature and the header chunk take 33 bytes. *)
Lemma png_encode_length (img : Image) (bs : Bytes) :
  png_encode img = Ret bs -> im_mode img = "RGBA"%string ->
  (33 <= length bs)%nat.
Proof.
  intros Henc Hmode.
  destruct (png_encode_header _ _ Henc Hmode) as [rest ->].
  unfold png_header. rewrite !length_app, length_chunk, length_ihdr.
  simpl. lia.
Qed.

(** The header of an encoded file says what the image is. *)
Lemma png_encode_info (img : Image) (bs : Bytes) :
  png_encode img = Ret bs -> encodable img ->
  png_info bs = Some (rgba8 (width img) (height img)).
Proof.
  intros Henc (Hmode & _ & Hw & Hh).
  destruct (png_encode_header _ _ Henc Hmode) as [rest ->].
  by apply png_info_header.
Qed.

(** Images with the same bytes are the same image. *)
Lemma png_encode_inj (img1 img2 : Image) (bs : Bytes) :
  png_encode img1 = Ret bs -> png_encode img2 = Ret bs ->
  all_pixels valid_colour img1 -> all_pixels valid_colour img2 ->
  img1 = img2.
Proof.
  intros H1 H2 Hv1 Hv2.
  pose proof (png_decode_encode _ _ H1 Hv1).
  pose proof (png_decode_encode _ _ H2 Hv2). congruence.
Qed.

End Laws.
