(* ===== verification/PngWrite.v ===== *)
(** * Encoders of PNG files

    [png_write] writes PNG files: the signature, the header chunk, the
    pixel data in data chunks of at most 65536 bytes, the end chunk.  The
    pixel data are the rows of the image, each filtered with the filter
    [choose] picks for it, as a zlib stream written by the compressor [D].
    The encoder of the imaging library is of this kind, with the heuristic
    [adaptive] for the filters and zlib for the compressor.

    Whatever [choose] is, and for every compressor that meets
    [DeflateLaws], the file is read back as the image and the encoder
    meets [PngLaws] ([png_codec_laws]).  [stored_codec] filters no row and
    stores the stream; it is what the examples of the development run on.
    [huffman_codec] filters the rows the way the imaging library does and
    codes the stream with the fixed Huffman code. *)

From Stdlib Require Import ZArith Lia String.
From Stdlib Require Strings.Byte.
From stdpp Require Import base tactics option list strings.
From S2P Require Import Prelude Raster ByteSeq Checksum Deflate Huffman Zlib.
From S2P Require Import PngFilter Png.

Local Open Scope Z_scope.

(** ** Rows of pixels *)

(** The rows from top to bottom, four bytes a pixel. *)
Fixpoint image_rows (w h : nat) (data : list Colour) : list Bytes :=
  match h with
  | O => []
  | S h =>
      concat (pixel_bytes <$> take w data) :: image_rows w h (drop w data)
  end.

(** ** Data chunks *)

(** The most a data chunk of this encoder holds. *)
Definition idat_max : nat := Z.to_nat 65536.

Definition idat_chunks (z : Bytes) : Bytes :=
  concat (chunk "IDAT" <$> pieces idat_max z).

(** ** The encoder *)

Definition encodableb (img : Image) : bool :=
  String.eqb (im_mode img) "RGBA"
  && (0 <? width img) && (width img <? 2 ^ 31)
  && (0 <? height img) && (height img <? 2 ^ 31)
  && (length (im_data img) =? Z.to_nat (width img * height img))%nat.

Section Encoder.
Context `{D : Deflater}.
Variable choose : Bytes -> Bytes -> filter.

Definition png_data (img : Image) : Bytes :=
  filter_rows choose []
    (image_rows (Z.to_nat (width img)) (Z.to_nat (height img)) (im_data img)).

(** An image without pixels is refused with [SystemError], as the
    library's encoder does. *)
Definition png_write (img : Image) : outcome exn Bytes :=
  if encodableb img then
    Ret (png_header (width img) (height img)
         ++ idat_chunks (zlib_compress (png_data img)) ++ png_trailer)
  else if (width img =? 0) || (height img =? 0) then Raise SystemError
  else Raise ValueError.

(** The encoder writes the signature and the header chunk before it looks
    at the rows: that much is in the file when it raises. *)
Definition png_written (img : Image) : Bytes :=
  png_header (width img) (height img).

Definition png_codec (removes : bool) : PngCodec :=
  {| png_encode := png_write; png_partial := png_written;
     save_removes_created := removes |}.

End Encoder.

(** The encoder that filters no row and stores the stream, in a library
    that removes the file of a failed save and in one that leaves it
    behind. *)
Definition stored_codec : PngCodec :=
  png_codec (D:=stored_deflater) (fun _ _ => FNone) true.
Definition stored_codec_old : PngCodec :=
  png_codec (D:=stored_deflater) (fun _ _ => FNone) false.

(** The encoder that filters the rows the way the imaging library does and
    codes the stream. *)
Definition huffman_codec : PngCodec :=
  png_codec (D:=fixed_deflater) adaptive true.

(** ** Rows read back *)

Lemma image_rows_length (w h : nat) (data : list Colour) :
  length data = (h * w)%nat ->
  length (image_rows w h data) = h
  /\ Forall (fun row => length row = (bpp * w)%nat) (image_rows w h data)
  /\ concat (image_rows w h data) = concat (pixel_bytes <$> data).
Proof.
  assert (Hrow : forall cs, length (concat (pixel_bytes <$> cs))
                            = (bpp * length cs)%nat).
  { induction cs as [|c cs IH]; [done|].
    rewrite fmap_cons, concat_cons, length_app, IH.
    change (length (pixel_bytes c)) with bpp. cbn [length]. lia. }
  revert data. induction h as [|h IH]; intros data Hlen.
  - by destruct data.
  - destruct (IH (drop w data)) as (Hh & Hall & Hcat);
      [rewrite length_drop; lia|].
    cbn [image_rows length concat]. rewrite Hh, Hcat.
    split; [done|]. split.
    + constructor; [|done]. rewrite Hrow, length_take. f_equal. lia.
    + by rewrite <- concat_app, <- fmap_app, take_drop.
Qed.

(** ** Data chunks read back *)

Lemma pieces_idat (z : Bytes) :
  Forall (fun p => Z.of_nat (length p) < 2 ^ 32) (pieces idat_max z).
Proof.
  eapply Forall_impl; [apply pieces_bounded; unfold idat_max; lia|].
  unfold idat_max. simpl. lia.
Qed.

Lemma length_idat_chunks (ps : list Bytes) :
  (length ps <= length (concat (chunk "IDAT" <$> ps)))%nat.
Proof.
  induction ps as [|p ps IH]; [done|].
  rewrite fmap_cons, concat_cons, length_app, length_chunk.
  cbn [length]. unfold Bytes in *. lia.
Qed.

Lemma read_idats_idat_chunks (z : Bytes) :
  read_idats (length (idat_chunks z ++ png_trailer))
    (idat_chunks z ++ png_trailer)
  = Some (z, []).
Proof.
  unfold idat_chunks. rewrite <- (app_nil_r png_trailer).
  rewrite read_idats_chunks.
  - rewrite concat_pieces; [done | unfold idat_max; lia].
  - apply pieces_idat.
  - pose proof (length_idat_chunks (pieces idat_max z)).
    rewrite !length_app, png_trailer_bytes. cbn [length].
    unfold Bytes in *. lia.
Qed.

(** ** The encoder meets the laws *)

Lemma encodableb_spec (img : Image) :
  encodableb img = true <-> encodable img.
Proof.
  unfold encodableb, encodable.
  rewrite !andb_true_iff, !Z.ltb_lt, Nat.eqb_eq, String.eqb_eq.
  split.
  - intros (((((? & ?) & ?) & ?) & ?) & ?).
    repeat split; [done| lia | lia | done | lia.. ].
  - intros (? & [? ? ?] & ? & ?). repeat split; (done || lia).
Qed.

Section EncoderLaws.
Context `{D : Deflater} `{!DeflateLaws D}.
Variable choose : Bytes -> Bytes -> filter.

Lemma png_write_Ret (img : Image) (bs : Bytes) :
  png_write choose img = Ret bs ->
  encodable img
  /\ bs = png_header (width img) (height img)
          ++ idat_chunks (zlib_compress (png_data choose img)) ++ png_trailer.
Proof.
  unfold png_write. destruct (encodableb img) eqn:He.
  - intros <-%(inj Ret). by apply encodableb_spec in He.
  - destruct ((width img =? 0) || (height img =? 0)); discriminate.
Qed.

(** What was written is read back, whatever filters were chosen. *)
Lemma png_decode_write (img : Image) (bs : Bytes) :
  png_write choose img = Ret bs -> all_pixels valid_colour img ->
  png_decode bs = Some img.
Proof.
  intros [(Hmode & [Hw0 Hh0 Hlen] & Hw & Hh) ->]%png_write_Ret Hvalid.
  destruct (image_rows_length (Z.to_nat (width img)) (Z.to_nat (height img))
              (im_data img)) as (Hrows & Hall & Hcat); [lia|].
  unfold png_decode.
  read_with (read_header_header _ _ _ Hw Hh).
  change (rgba8b (rgba8 _ _)) with true. cbv iota zeta.
  read_with (read_idats_idat_chunks _).
  rewrite zlib_decompress_compress. cbn [mbind option_bind].
  unfold png_data. cbn [info_width info_height rgba8].
  rewrite <- (app_nil_r (filter_rows _ _ _)). rewrite <- Hrows at 1.
  read_with (unfilter_filter_rows choose _ [] _ [] Hall).
  rewrite Hcat, <- (app_nil_r (concat _)).
  replace (Z.to_nat (width img) * Z.to_nat (height img))%nat
    with (length (im_data img)) by lia.
  read_with (read_pixels_bytes _ [] Hvalid).
  destruct img as [mode [w h] data]. simpl in *. by subst.
Qed.

(** The laws do not depend on the compressor, nor on the filters chosen,
    nor on what [img.save] does with the file of a failed call. *)
Lemma png_codec_laws (removes : bool) : PngLaws (png_codec choose removes).
Proof.
  split; cbn [png_encode png_partial png_codec].
  - intros img Himg%encodableb_spec. unfold png_write. rewrite Himg. eauto.
  - apply png_decode_write.
  - intros img bs [_ ->]%png_write_Ret _. by eexists.
  - intros img bs [_ ->]%png_write_Ret.
    eexists (_ ++ _). by rewrite <- app_assoc.
  - intros img e _. unfold png_written. apply png_decode_header.
Qed.

End EncoderLaws.

Lemma stored_codec_laws : PngLaws stored_codec.
Proof. apply png_codec_laws. Qed.

Lemma stored_codec_old_laws : PngLaws stored_codec_old.
Proof. apply png_codec_laws. Qed.

Lemma huffman_codec_laws : PngLaws huffman_codec.
Proof. apply png_codec_laws. Qed.

#[export] Existing Instance stored_codec_laws.
#[export] Existing Instance stored_codec_old_laws.
