(* ===== verification/Fonts.v ===== *)
(** * Fonts

    What [create_icons.py] asks of the font machinery, as an interface: a
    font can be opened from a file at a size (which may fail), a default
    font always exists, a font may or may not be one that [draw.textbbox]
    measures, and a font gives for a text its bounding box and a coverage
    mask.  [FontSystem] holds the operations, [FontLaws] the three facts
    the proofs rely on.  The rasteriser behind the interface is not modelled;
    [toy_system] is a small concrete font system used to run the model and
    to show that the laws can be met, with and without a built-in font
    that can be measured. *)

From Stdlib Require Import ZArith Lia String.
From stdpp Require Import base tactics option list strings.
From S2P Require Import Prelude Raster.

Local Open Scope Z_scope.

(** ** Bounding boxes *)

(** [(left, top, right, bottom)], indexed [bbox[0]] .. [bbox[3]] by the
    script. *)
Definition BBox : Type := Z * Z * Z * Z.

Definition bbox0 (b : BBox) : Z := b.1.1.1.
Definition bbox1 (b : BBox) : Z := b.1.1.2.
Definition bbox2 (b : BBox) : Z := b.1.2.
Definition bbox3 (b : BBox) : Z := b.2.

(** ** The interface *)

Class FontSystem : Type := {
  font : Type;
  (** opening a font file at a size in points *)
  truetype_open : string -> Z -> outcome exn font;
  (** the built-in font *)
  default_font : font;
  (** whether [draw.textbbox] takes the font: releases of the imaging
      library before 9.2 measure outline fonts only and raise for the
      built-in bitmap font *)
  measurable : font -> bool;
  (** the box the ink of a text occupies when drawn at the origin *)
  getbbox : font -> string -> BBox;
  (** the coverage of the text's ink, relative to the box's top-left *)
  getmask : font -> string -> Z -> Z -> Z;
}.

Class FontLaws (FS : FontSystem) : Prop := {
  getbbox_ordered : forall (f : font) (text : string),
    bbox0 (getbbox f text) <= bbox2 (getbbox f text)
    /\ bbox1 (getbbox f text) <= bbox3 (getbbox f text);
  getmask_byte : forall (f : font) (text : string) (u v : Z),
    byte (getmask f text u v);
  (** a font opened from a file is an outline font, which every release
      measures *)
  truetype_measurable : forall (path : string) (size : Z) (f : font),
    truetype_open path size = Ret f -> measurable f = true;
}.

Section Text.
Context `{FS : FontSystem}.

(** The mask of a text: as wide and high as its box. *)
Definition text_mask (f : font) (text : string) : Mask :=
  let b := getbbox f text in
  {| mask_size := (bbox2 b - bbox0 b, bbox3 b - bbox1 b);
     mask_at := getmask f text |}.

(** The font's box moved to the anchor [xy]. *)
Definition bbox_at (xy : Z * Z) (b : BBox) : BBox :=
  (bbox0 b + xy.1, bbox1 b + xy.2, bbox2 b + xy.1, bbox3 b + xy.2).

(** Where the mask's top-left cell lands when the text is drawn at [xy]:
    the anchor plus the box's own offset. *)
Definition text_origin (xy : Z * Z) (f : font) (text : string) : Z * Z :=
  (xy.1 + bbox0 (getbbox f text), xy.2 + bbox1 (getbbox f text)).

End Text.

(** ** A concrete font system *)

(** Two kinds of font: a fixed 6 x 11 bitmap font, and an outline font
    scaled to a size, whose ink starts below and right of the anchor, as
    ink does in outline fonts.  Every character is drawn as a "U". *)
Inductive toy_font : Type :=
| Bitmap
| Outline (size : positive).

Definition toy_bbox (f : toy_font) (text : string) : BBox :=
  let n := Z.of_nat (String.length text) in
  match f with
  | Bitmap => (0, 0, 6 * n, 11)
  | Outline p =>
      let s := Z.pos p in (s / 12, s / 4, s / 12 + (s / 2) * n, s)
  end.

(** Coverage of a "U" in a [w] x [h] cell with stems [t] thick: full on the
    two stems and the bottom bar, partial on the column inside each stem. *)
Definition u_coverage (w h t u v : Z) : Z :=
  if (u <? t) || (w - t <=? u) || (h - t <=? v) then 255
  else if (u =? t) || (u =? w - t - 1) then 96
  else 0.

Definition toy_mask (f : toy_font) (text : string) (u v : Z) : Z :=
  match f with
  | Bitmap => if (u mod 6 =? 5) then 0 else u_coverage 5 11 1 (u mod 6) v
  | Outline p =>
      let s := Z.pos p in
      let w := s / 2 in
      if w =? 0 then 0
      else u_coverage w (s - s / 4) (Z.max 1 (s / 8)) (u mod w) v
  end.

Definition toy_open (installed : list string) (path : string) (size : Z)
  : outcome exn toy_font :=
  if bool_decide (path ∈ installed) then
    if size <=? 0 then Raise ValueError else Ret (Outline (Z.to_pos size))
  else Raise OSError.

(** [basic] says whether the library measures the bitmap font. *)
Definition toy_measurable (basic : bool) (f : toy_font) : bool :=
  match f with
  | Bitmap => basic
  | Outline _ => true
  end.

Definition toy_system (basic : bool) (installed : list string)
  : FontSystem :=
  {| font := toy_font;
     truetype_open := toy_open installed;
     default_font := Bitmap;
     measurable := toy_measurable basic;
     getbbox := toy_bbox;
     getmask := toy_mask |}.

(** The font system of a current release of the library. *)
Definition toy_fonts (installed : list string) : FontSystem :=
  toy_system true installed.

(** ** Boxes and masks of texts *)

Section TextLemmas.
Context `{FS : FontSystem}.

Lemma bbox_at_origin (b : BBox) : bbox_at (0, 0) b = b.
Proof.
  destruct b as [[[l t] r] d]. unfold bbox_at, bbox0, bbox1, bbox2, bbox3.
  simpl. repeat f_equal; lia.
Qed.

Lemma text_mask_size (f : font) (text : string) :
  mask_size (text_mask f text)
  = (bbox2 (getbbox f text) - bbox0 (getbbox f text),
     bbox3 (getbbox f text) - bbox1 (getbbox f text)).
Proof. reflexivity. Qed.

(** A pixel is under the mask of a text drawn at [xy] exactly when it is in
    the text's box moved to [xy]. *)
Lemma in_text_mask (f : font) (text : string) (xy : Z * Z) (x y : Z) :
  in_mask (text_mask f text) (x - (text_origin xy f text).1)
                             (y - (text_origin xy f text).2) = true
  <-> bbox0 (bbox_at xy (getbbox f text)) <= x
        < bbox2 (bbox_at xy (getbbox f text))
      /\ bbox1 (bbox_at xy (getbbox f text)) <= y
        < bbox3 (bbox_at xy (getbbox f text)).
Proof.
  unfold in_mask, text_mask, text_origin, bbox_at, bbox0, bbox1, bbox2, bbox3.
  simpl. rewrite !andb_true_iff, !Z.leb_le, !Z.ltb_lt. lia.
Qed.

(** What drawing a text at [xy] does to the pixel at [(x, y)], in terms of
    the text's box at [xy]. *)
Lemma paste_text_pixel (f : font) (text : string) (xy : Z * Z)
    (ink p : Colour) (x y : Z) :
  paste_pixel (text_origin xy f text) (text_mask f text) ink x y p
  = let B := bbox_at xy (getbbox f text) in
    if (bbox0 B <=? x) && (x <? bbox2 B) && (bbox1 B <=? y) && (y <? bbox3 B)
    then blend (getmask f text (x - bbox0 B) (y - bbox1 B)) p ink
    else p.
Proof.
  unfold paste_pixel, in_mask, text_mask, text_origin, bbox_at.
  unfold bbox0, bbox1, bbox2, bbox3. cbn [fst snd mask_size mask_at].
  set (b := getbbox f text).
  replace (x - (xy.1 + b.1.1.1)) with (x - (b.1.1.1 + xy.1)) by lia.
  replace (y - (xy.2 + b.1.1.2)) with (y - (b.1.1.2 + xy.2)) by lia.
  repeat match goal with
         | |- context [?a <=? ?c] => destruct (Z.leb_spec a c)
         | |- context [?a <? ?c] => destruct (Z.ltb_spec a c)
         end; simpl; try reflexivity; lia.
Qed.

End TextLemmas.

(** ** The concrete font system meets the laws *)

Lemma u_coverage_byte (w h t u v : Z) : byte (u_coverage w h t u v).
Proof. unfold u_coverage, byte. repeat case_match; lia. Qed.

Lemma toy_system_laws (basic : bool) (installed : list string) :
  FontLaws (toy_system basic installed).
Proof.
  split.
  - intros f text. destruct f as [|p]; unfold bbox0, bbox1, bbox2, bbox3;
      simpl; [lia|].
    assert (0 <= Z.pos p / 2) by zdiv. split; [nia | zdiv].
  - intros f text u v. destruct f as [|p]; simpl; unfold toy_mask;
      repeat case_match; try apply u_coverage_byte; unfold byte; lia.
  - intros path size f. simpl. unfold toy_open.
    repeat case_match; try done. by intros [= <-].
Qed.

#[export] Existing Instance toy_system_laws.
