(* ===== verification/World.v ===== *)
(** * The world the script runs in

    The state [create_icons.py] reads and changes, and the library calls it
    makes, as computations of the execution monad over that state:
      - [heap]: the image objects alive in the interpreter.  [Image.new]
        allocates one and returns a reference; the drawing context made by
        [ImageDraw.Draw(img)] keeps the same reference, so what [draw.text]
        paints is what [img.save] writes;
      - [files]: the file system, a finite map from path to the bytes of
        the file;
      - [readonly]: the paths whose opening for writing fails;
      - [modules]: the modules an [import] finds;
      - [stdout]: the lines printed so far.
    [img.save] opens the file before the encoder runs: an encoder that
    raises leaves at the path what it had written by then, in place of
    what was there, unless the call created the file and the library
    removes it again ([failed_save]). *)

From Stdlib Require Import ZArith Lia String.
From stdpp Require Import base tactics option list strings gmap.
From S2P Require Import Prelude Raster ByteSeq Png PngWrite Fonts.

Local Open Scope Z_scope.

(** ** State *)

Record World : Type := mkWorld {
  heap : list Image;
  files : gmap string Bytes;
  readonly : gset string;
  modules : gset string;
  stdout : list string;
}.

(** A drawing context: a handle on the image it draws into. *)
Record Draw : Type := mkDraw {
  draw_im : nat;
}.

Definition set_heap (h : list Image) (w : World) : World :=
  {| heap := h; files := files w; readonly := readonly w;
     modules := modules w; stdout := stdout w |}.

Definition set_files (fs : gmap string Bytes) (w : World) : World :=
  {| heap := heap w; files := fs; readonly := readonly w;
     modules := modules w; stdout := stdout w |}.

Definition set_stdout (out : list string) (w : World) : World :=
  {| heap := heap w; files := files w; readonly := readonly w;
     modules := modules w; stdout := out |}.

(** Every image object alive is well formed. *)
Definition wf_world (w : World) : Prop := Forall wf_image (heap w).

(** ** The library calls *)

Section Calls.
Context `{FS : FontSystem} `{PC : PngCodec}.

(** [import name]: the module is found or [ImportError] is raised. *)
Definition import_module (name : string) : M World exn unit :=
  fun w => if bool_decide (name ∈ modules w) then (Ret tt, w)
           else (Raise ImportError, w).

(** [from package import name, ...]: the package, then each name as a
    module of the package. *)
Definition import_from (package : string) (names : list string)
  : M World exn unit :=
  (import_module package ;;
   for_each names
     (fun name => import_module (String.append package
                                   (String.append "." name))))%exec.

(** [Image.new(mode, size, color)]: a new image object on the heap. *)
Definition Image_new (mode : string) (size : Z * Z) (color : Colour)
  : M World exn nat :=
  fun w => match new_image mode size color with
           | Ret img => (Ret (length (heap w)), set_heap (heap w ++ [img]) w)
           | Raise e => (Raise e, w)
           end.

(** [ImageDraw.Draw(img)]: a context on the same object, not a copy. *)
Definition ImageDraw_Draw (im : nat) : M World exn Draw :=
  ret {| draw_im := im |}.

(** [ImageFont.truetype(path, size)]. *)
Definition ImageFont_truetype (path : string) (size : Z)
  : M World exn font :=
  fun w => (truetype_open path size, w).

(** [ImageFont.load_default()]. *)
Definition ImageFont_load_default : M World exn font := ret default_font.

(** [draw.textbbox(xy, text, font=font)]: the box of the text at [xy], or
    [ValueError] for a font the library does not measure. *)
Definition ImageDraw_textbbox (draw : Draw) (xy : Z * Z) (text : string)
    (f : font) : M World exn BBox :=
  if measurable f then ret (bbox_at xy (getbbox f text))
  else raise ValueError.

(** [draw.text(xy, text, fill=fill, font=font)]: the text's mask is painted
    into the context's image, in place. *)
Definition ImageDraw_text (draw : Draw) (xy : Z * Z) (text : string)
    (fill : Colour) (f : font) : M World exn unit :=
  modify (fun w =>
    set_heap
      (alter (fun img =>
                draw_bitmap img (text_origin xy f text) (text_mask f text) fill)
             (draw_im draw) (heap w))
      w).

(** What [img.save] leaves in the file system when the encoder raises.
    The file was opened for writing before the encoder ran, which created
    it or emptied it, and holds what the encoder wrote by then; a library
    that cleans up removes the file again when the call created it. *)
Definition failed_save (img : Image) (filename : string)
    (fs : gmap string Bytes) : gmap string Bytes :=
  if save_removes_created && bool_decide (fs !! filename = None) then fs
  else <[filename := png_partial img]> fs.

(** [img.save(filename, format)]: the handler of the format is looked up
    ([KeyError] when there is none; 'PNG' is the one the script names), the
    file is opened for writing ([OSError] when it cannot be), the image is
    encoded and the bytes replace what was at [filename].  An encoder that
    refuses the image raises its exception, after the file was opened. *)
Definition Image_save (im : nat) (filename format : string)
  : M World exn unit :=
  fun w => match heap w !! im with
           | None => (Raise ValueError, w)
           | Some img =>
               if negb (String.eqb format "PNG") then (Raise KeyError, w)
               else if bool_decide (filename ∈ readonly w)
               then (Raise OSError, w)
               else match png_encode img with
                    | Ret bs =>
                        (Ret tt, set_files (<[filename := bs]> (files w)) w)
                    | Raise e =>
                        (Raise e,
                         set_files (failed_save img filename (files w)) w)
                    end
           end.

(** What a reader of PNG files finds at [filename]. *)
Definition read_png (w : World) (filename : string) : option Image :=
  files w !! filename ≫= png_decode.

(** [print(line)]. *)
Definition print (line : string) : M World exn unit :=
  modify (fun w => set_stdout (stdout w ++ [line]) w).

(** ** What each call does, as equations *)

Implicit Types (w : World) (img : Image).

Lemma run_Image_new mode size color img w :
  new_image mode size color = Ret img ->
  Image_new mode size color w
  = (Ret (length (heap w)), set_heap (heap w ++ [img]) w).
Proof. unfold Image_new. by intros ->. Qed.

Lemma run_Image_new_Raise mode size color e w :
  new_image mode size color = Raise e ->
  Image_new mode size color w = (Raise e, w).
Proof. unfold Image_new. by intros ->. Qed.

Lemma run_ImageDraw_textbbox draw xy text f w :
  measurable f = true ->
  ImageDraw_textbbox draw xy text f w = (Ret (bbox_at xy (getbbox f text)), w).
Proof. unfold ImageDraw_textbbox. by intros ->. Qed.

Lemma run_ImageDraw_textbbox_Raise draw xy text f w :
  measurable f = false ->
  ImageDraw_textbbox draw xy text f w = (Raise ValueError, w).
Proof. unfold ImageDraw_textbbox. by intros ->. Qed.

Lemma run_ImageDraw_text draw xy text fill f w img :
  heap w !! draw_im draw = Some img ->
  ImageDraw_text draw xy text fill f w
  = (Ret tt,
     set_heap (<[draw_im draw :=
                 draw_bitmap img (text_origin xy f text) (text_mask f text) fill]>
               (heap w)) w).
Proof.
  intros Hl. unfold ImageDraw_text, modify. do 2 f_equal.
  apply list_eq. intros i. destruct (decide (i = draw_im draw)) as [->|Hne].
  - rewrite list_lookup_alter, decide_True, Hl by done.
    rewrite list_lookup_insert_eq; [done|]. by eapply lookup_lt_Some.
  - by rewrite list_lookup_alter_ne, list_lookup_insert_ne.
Qed.

Lemma run_Image_save im filename w img bs :
  heap w !! im = Some img -> filename ∉ readonly w ->
  png_encode img = Ret bs ->
  Image_save im filename "PNG" w
  = (Ret tt, set_files (<[filename := bs]> (files w)) w).
Proof.
  intros Hl Hw He. unfold Image_save. rewrite Hl, He.
  by rewrite bool_decide_eq_false_2.
Qed.

Lemma run_Image_save_readonly im filename w img :
  heap w !! im = Some img -> filename ∈ readonly w ->
  Image_save im filename "PNG" w = (Raise OSError, w).
Proof.
  intros Hl Hw. unfold Image_save. rewrite Hl.
  by rewrite bool_decide_eq_true_2.
Qed.

Lemma run_Image_save_refused im filename w img e :
  heap w !! im = Some img -> filename ∉ readonly w ->
  png_encode img = Raise e ->
  Image_save im filename "PNG" w
  = (Raise e, set_files (failed_save img filename (files w)) w).
Proof.
  intros Hl Hw He. unfold Image_save. rewrite Hl, He.
  by rewrite bool_decide_eq_false_2.
Qed.

(** A failed save touches the file of its name only. *)
Lemma lookup_failed_save_ne img filename other (fs : gmap string Bytes) :
  other <> filename -> failed_save img filename fs !! other = fs !! other.
Proof.
  intros Hne. unfold failed_save.
  destruct (_ && _); [done | by apply lookup_insert_ne].
Qed.

(** At its name it leaves no file, when it would have created one and the
    library cleans up, and otherwise what the encoder wrote. *)
Lemma lookup_failed_save img filename (fs : gmap string Bytes) :
  failed_save img filename fs !! filename
  = if save_removes_created && bool_decide (fs !! filename = None)
    then None else Some (png_partial img).
Proof.
  unfold failed_save. destruct save_removes_created; cbn [andb];
    [case_bool_decide|]; by rewrite ?lookup_insert_eq.
Qed.

(** What it leaves is not a picture, whatever was there before. *)
Lemma failed_save_unreadable `{!PngLaws PC} img filename e
    (fs : gmap string Bytes) :
  png_encode img = Raise e ->
  failed_save img filename fs !! filename ≫= png_decode = None.
Proof.
  intros He. rewrite lookup_failed_save.
  destruct (_ && _); [done | by eapply png_partial_unreadable].
Qed.

Lemma run_Image_save_format im filename format w img :
  heap w !! im = Some img -> format <> "PNG"%string ->
  Image_save im filename format w = (Raise KeyError, w).
Proof.
  intros Hl Hf%String.eqb_neq. unfold Image_save. by rewrite Hl, Hf.
Qed.

Lemma run_import_module name w :
  import_module name w
  = (if bool_decide (name ∈ modules w) then Ret tt else Raise ImportError, w).
Proof. unfold import_module. by case_bool_decide. Qed.

(** The object just allocated is the last of the heap. *)
Lemma lookup_new_object (h : list Image) img : (h ++ [img]) !! length h = Some img.
Proof. by rewrite lookup_app_r, Nat.sub_diag by done. Qed.

Lemma insert_new_object (h : list Image) img img' :
  <[length h := img']> (h ++ [img]) = h ++ [img'].
Proof.
  rewrite insert_app_r_alt, Nat.sub_diag by done. reflexivity.
Qed.

(** ** Every call keeps the image objects well formed *)

Lemma import_module_wf name : preserves wf_world (import_module name).
Proof. intros w Hw. unfold import_module. by case_bool_decide. Qed.

Lemma import_from_wf package names :
  preserves wf_world (import_from package names).
Proof.
  apply preserves_bind; [apply import_module_wf|]. intros _.
  apply preserves_for_each. intros name _. apply import_module_wf.
Qed.

Lemma Image_new_wf mode size color :
  preserves wf_world (Image_new mode size color).
Proof.
  intros w Hw. unfold Image_new.
  destruct (new_image mode size color) as [img|e] eqn:Hnew; [|done].
  apply Forall_app. split; [done|].
  apply Forall_singleton. by eapply new_image_wf.
Qed.

Lemma ImageFont_truetype_wf path size :
  preserves wf_world (ImageFont_truetype path size).
Proof. by intros w Hw. Qed.

Lemma ImageDraw_textbbox_wf draw xy text f :
  preserves wf_world (ImageDraw_textbbox draw xy text f).
Proof. unfold ImageDraw_textbbox. by destruct (measurable f); intros w Hw. Qed.

Lemma ImageDraw_text_wf draw xy text fill f :
  preserves wf_world (ImageDraw_text draw xy text fill f).
Proof.
  apply preserves_modify. intros w Hw. apply Forall_alter; [done|].
  intros img _. apply draw_bitmap_wf.
Qed.

Lemma Image_save_wf im filename format :
  preserves wf_world (Image_save im filename format).
Proof. intros w Hw. unfold Image_save. by repeat case_match. Qed.

Lemma print_wf line : preserves wf_world (print line).
Proof. by apply preserves_modify. Qed.

#[local] Hint Resolve import_module_wf import_from_wf Image_new_wf
  ImageFont_truetype_wf ImageDraw_textbbox_wf ImageDraw_text_wf
  Image_save_wf print_wf : icon.

(** ** What the calls guarantee *)




End Calls.

#[export] Hint Rewrite @lookup_new_object @insert_new_object : icon_rw.
#[export] Hint Resolve import_module_wf import_from_wf Image_new_wf
  ImageFont_truetype_wf ImageDraw_textbbox_wf ImageDraw_text_wf
  Image_save_wf print_wf : icon.

(** ** The guarantees at concrete inputs *)


Section Examples.
#[local] Existing Instance stored_codec.


End Examples.
