(* ===== verification/CreateIcon.v ===== *)
(** * [create_icon]: rendering one icon

    [create_icon] is the function of that name in [create_icons.py], line
    by line, as a computation over the world.  Beside it stand the pure
    readings of its parts (the font size, the font chosen, the draw
    position, the finished raster, the bytes of the file); the first
    theorem shows that running [create_icon] produces exactly these, and
    the others derive what the script promises from them.  Theorems that
    say what is in the file assume the laws of the codec ([PngLaws]) and,
    where they read the file back as an image, those of the fonts
    ([FontLaws]); the size is then positive and below 2^31, the largest
    side the format has, and the font is one [draw.textbbox] measures
    ([measured]), since that call is outside the [try]. *)

From Stdlib Require Import ZArith Lia String.
From stdpp Require Import base tactics option list strings gmap.
From S2P Require Import Prelude PyInt Raster ByteSeq Zlib PngFilter Png.
From S2P Require Import PngWrite Fonts World.

Local Open Scope string_scope.
Local Open Scope list_scope.
Local Open Scope Z_scope.

Section CreateIcon.
Context `{FS : FontSystem} `{PC : PngCodec}.

(** ** The function *)

Definition create_icon (size : Z) (filename : string) : M World exn unit :=
  (img <- Image_new "RGBA" (size, size) (0, 123, 186, 255) ;;
   draw <- ImageDraw_Draw img ;;
   font <- try_except
             (let font_size := py_max (floordiv size 3) 12 in
              ImageFont_truetype "/System/Library/Fonts/Arial.ttf" font_size)
             (fun _ => ImageFont_load_default) ;;
   let text := "U" in
   bbox <- ImageDraw_textbbox draw (0, 0) text font ;;
   let text_width := bbox2 bbox - bbox0 bbox in
   let text_height := bbox3 bbox - bbox1 bbox in
   let x := floordiv (size - text_width) 2 in
   let y := floordiv (size - text_height) 2 in
   ImageDraw_text draw (x, y) text (255, 255, 255, 255) font ;;
   Image_save img filename "PNG" ;;
   print ("Created " +:+ filename +:+ " (" +:+ str_int size +:+ "x"
          +:+ str_int size +:+ ")"))%exec.

(** ** Its parts, read as values *)

Definition background : Colour := (0, 123, 186, 255).
Definition white : Colour := (255, 255, 255, 255).

(** The point size asked of the system font. *)
Definition font_size (size : Z) : Z := py_max (floordiv size 3) 12.

(** The font the [try/except] ends with. *)
Definition chosen_font (size : Z) : font :=
  match truetype_open "/System/Library/Fonts/Arial.ttf" (font_size size) with
  | Ret f => f
  | Raise _ => default_font
  end.

(** [draw.textbbox] takes the font the [try/except] ends with. *)
Definition measured (size : Z) : Prop :=
  measurable (chosen_font size) = true.

(** The anchor [(x, y)] handed to [draw.text]. *)
Definition text_position (size : Z) (f : font) : Z * Z :=
  let bbox := getbbox f "U" in
  (floordiv (size - (bbox2 bbox - bbox0 bbox)) 2,
   floordiv (size - (bbox3 bbox - bbox1 bbox)) 2).

(** The anchor that would centre the ink: the same position, less the
    offset of the font's box.  The script does not compute it; it is here
    to state what lines 29 and 30 lack. *)
Definition centred_position (size : Z) (f : font) : Z * Z :=
  let bbox := getbbox f "U" in
  ((text_position size f).1 - bbox0 bbox,
   (text_position size f).2 - bbox1 bbox).

(** The raster before the text is drawn. *)
Definition blank_icon (size : Z) : Image :=
  mkImage "RGBA" (size, size) (replicate (Z.to_nat (size * size)) background).

(** The box of the image the text's ink can fall in. *)
Definition ink_box (size : Z) : BBox :=
  let f := chosen_font size in
  bbox_at (text_position size f) (getbbox f "U").

(** The finished raster. *)
Definition icon_image (size : Z) : Image :=
  let f := chosen_font size in
  draw_bitmap (blank_icon size) (text_origin (text_position size f) f "U")
    (text_mask f "U") white.

Definition created_line (filename : string) (size : Z) : string :=
  "Created " +:+ filename +:+ " (" +:+ str_int size +:+ "x"
  +:+ str_int size +:+ ")".

(** The bytes the encoder makes of the finished raster (none when it
    refuses it). *)
Definition icon_bytes (size : Z) : Bytes :=
  match png_encode (icon_image size) with
  | Ret bs => bs
  | Raise _ => []
  end.

(** The world after a successful call. *)
Definition icon_world (size : Z) (filename : string) (w : World) : World :=
  {| heap := heap w ++ [icon_image size];
     files := <[filename := icon_bytes size]> (files w);
     readonly := readonly w;
     modules := modules w;
     stdout := stdout w ++ [created_line filename size] |}.

(** The world after a call that failed at [draw.textbbox]: the raster was
    allocated, nothing is drawn on it, and it is left on the heap. *)
Definition blank_world (size : Z) (w : World) : World :=
  set_heap (heap w ++ [blank_icon size]) w.

(** The world after a call that failed at [img.save] before the file was
    opened: the raster was built and is left on the heap. *)
Definition drawn_world (size : Z) (w : World) : World :=
  set_heap (heap w ++ [icon_image size]) w.

(** The world after a call whose encoder raised: the file was opened by
    then, and is what a failed save leaves. *)
Definition refused_world (size : Z) (filename : string) (w : World) : World :=
  set_files (failed_save (icon_image size) filename (files w))
    (drawn_world size w).

(** What a call that raised leaves to be seen from outside the process
    (files, permissions, modules, output): what it found, except that a
    call that came as far as the encoder has left its file as a failed save
    does. *)
Definition failed_world (size : Z) (filename : string) (w : World) : World :=
  if size <? 0 then w
  else if negb (measurable (chosen_font size)) then w
  else if bool_decide (filename ∈ readonly w) then w
  else set_files (failed_save (icon_image size) filename (files w)) w.

(** The colour the finished raster has at [(x, y)], stated without the
    raster: ink blended over the background inside the ink box, background
    elsewhere.  This is what the icon is meant to look like. *)
Definition icon_pixel (size x y : Z) : Colour :=
  let f := chosen_font size in
  let B := ink_box size in
  if (bbox0 B <=? x) && (x <? bbox2 B) && (bbox1 B <=? y) && (y <? bbox3 B)
  then blend (getmask f "U" (x - bbox0 B) (y - bbox1 B)) background white
  else background.

End CreateIcon.

(** ** Concrete worlds for the examples *)

(** A machine where the system font of the script exists, and one where it
    does not. *)
Definition toy_mac : FontSystem :=
  toy_fonts ["/System/Library/Fonts/Arial.ttf"].
Definition toy_linux : FontSystem := toy_fonts [].

(** A machine without Arial and with a release of the imaging library
    that does not measure the built-in font. *)
Definition toy_linux_old : FontSystem := toy_system false [].

(** The modules the script imports. *)
Definition script_modules : gset string :=
  {["PIL"; "PIL.Image"; "PIL.ImageDraw"; "PIL.ImageFont"; "os"]}.

Definition empty_world : World :=
  {| heap := []; files := ∅; readonly := ∅; modules := script_modules;
     stdout := [] |}.

(** A world in which [icon32.png] cannot be written. *)
Definition locked_world : World :=
  {| heap := []; files := ∅; readonly := {["icon32.png"]};
     modules := script_modules; stdout := [] |}.

(** The file of the smallest icon of [toy_linux] the way a compressing
    encoder writes it: 114 bytes, the rows filtered with the heuristic of
    the imaging library (the filters sub, up and Paeth occur) and
    compressed by zlib at its default level, in one data chunk. *)
Definition icon16_compressed : Bytes :=
  [Byte.x89; Byte.x50; Byte.x4e; Byte.x47; Byte.x0d; Byte.x0a; Byte.x1a;
   Byte.x0a; Byte.x00; Byte.x00; Byte.x00; Byte.x0d; Byte.x49; Byte.x48;
   Byte.x44; Byte.x52; Byte.x00; Byte.x00; Byte.x00; Byte.x10; Byte.x00;
   Byte.x00; Byte.x00; Byte.x10; Byte.x08; Byte.x06; Byte.x00; Byte.x00;
   Byte.x00; Byte.x1f; Byte.xf3; Byte.xff; Byte.x61; Byte.x00; Byte.x00;
   Byte.x00; Byte.x39; Byte.x49; Byte.x44; Byte.x41; Byte.x54; Byte.x78;
   Byte.x9c; Byte.x63; Byte.x64; Byte.xa8; Byte.xde; Byte.xf5; Byte.x9f;
   Byte.x81; Byte.x02; Byte.xc0; Byte.x44; Byte.x89; Byte.x66; Byte.x9c;
   Byte.x06; Byte.xfc; Byte.x6f; Byte.x71; Byte.x65; Byte.x48; Byte.x30;
   Byte.x92; Byte.x02; Byte.xb3; Byte.x41; Byte.x34; Byte.x88; Byte.x4f;
   Byte.x5f; Byte.x17; Byte.x8c; Byte.x1a; Byte.x30; Byte.xe2; Byte.x0c;
   Byte.x60; Byte.xc1; Byte.x25; Byte.x31; Byte.x3f; Byte.x48; Byte.x1b;
   Byte.x8c; Byte.x09; Byte.x01; Byte.xc6; Byte.xc1; Byte.x99; Byte.x99;
   Byte.x48; Byte.x01; Byte.x00; Byte.xbd; Byte.xcc; Byte.x0b; Byte.xa9;
   Byte.x61; Byte.xd8; Byte.x58; Byte.xec; Byte.x00; Byte.x00; Byte.x00;
   Byte.x00; Byte.x49; Byte.x45; Byte.x4e; Byte.x44; Byte.xae; Byte.x42;
   Byte.x60; Byte.x82].

(** ** The finished raster *)

Section Raster.
Context `{FS : FontSystem}.
Implicit Types (size x y : Z).

Lemma new_image_blank size :
  0 <= size ->
  new_image "RGBA" (size, size) (0, 123, 186, 255) = Ret (blank_icon size).
Proof. intros. by apply new_image_Ret. Qed.

Lemma blank_icon_wf size : 0 <= size -> wf_image (blank_icon size).
Proof. intros. eapply new_image_wf, new_image_blank; done. Qed.

Lemma icon_image_wf size : 0 <= size -> wf_image (icon_image size).
Proof. intros. by apply draw_bitmap_wf, blank_icon_wf. Qed.

Lemma icon_image_encodable size :
  0 < size < 2 ^ 31 -> encodable (icon_image size).
Proof.
  intros Hs. split; [done|]. split; [apply icon_image_wf; lia|].
  by unfold width, height.
Qed.

Lemma getpixel_blank_icon size x y :
  0 <= x < size -> 0 <= y < size ->
  getpixel (blank_icon size) (x, y) = Some background.
Proof.
  intros Hx Hy. eapply getpixel_new_image; [|done..].
  apply new_image_blank. lia.
Qed.

Lemma getpixel_icon_image size x y :
  0 <= x < size -> 0 <= y < size ->
  getpixel (icon_image size) (x, y) = Some (icon_pixel size x y).
Proof.
  intros Hx Hy. unfold icon_image. autorewrite with icon_rw.
  rewrite getpixel_blank_icon by done. simpl. f_equal. apply paste_text_pixel.
Qed.

Lemma icon_pixel_outside size x y :
  ~ (bbox0 (ink_box size) <= x < bbox2 (ink_box size)
     /\ bbox1 (ink_box size) <= y < bbox3 (ink_box size)) ->
  icon_pixel size x y = background.
Proof.
  intros Hout. unfold icon_pixel.
  repeat match goal with
         | |- context [?a <=? ?c] => destruct (Z.leb_spec a c)
         | |- context [?a <? ?c] => destruct (Z.ltb_spec a c)
         end; simpl; try reflexivity; lia.
Qed.

Lemma colours_ok :
  (valid_colour background /\ opaque background)
  /\ (valid_colour white /\ opaque white).
Proof.
  unfold valid_colour, opaque, byte, red, green, blue, alpha, background,
    white. simpl. lia.
Qed.

Lemma icon_image_pixels_ok `{!FontLaws FS} size :
  all_pixels (fun c => valid_colour c /\ opaque c) (icon_image size).
Proof.
  destruct colours_ok as [Hb [Hwv Hwo]].
  unfold icon_image. apply draw_bitmap_all.
  - intros u v p [Hv Ho]. pose proof (getmask_byte (chosen_font size) "U" u v).
    split; [by apply blend_valid | by apply blend_opaque].
  - apply Forall_forall. by intros c ->%elem_of_replicate_inv.
Qed.

Lemma icon_image_valid `{!FontLaws FS} size :
  all_pixels valid_colour (icon_image size).
Proof.
  eapply Forall_impl; [apply icon_image_pixels_ok|]. by intros c [? _].
Qed.

End Raster.

#[export] Hint Resolve icon_image_wf blank_icon_wf icon_image_encodable : icon.

(** ** Running [create_icon] *)

Section Run.
Context `{FS : FontSystem} `{PC : PngCodec}.
Implicit Types (size x y : Z) (filename : string) (w : World).

(** The [try/except] around the font always ends with a font. *)
Lemma run_font_choice size w :
  try_except
    (let font_size := py_max (floordiv size 3) 12 in
     ImageFont_truetype "/System/Library/Fonts/Arial.ttf" font_size)
    (fun _ => ImageFont_load_default) w
  = (Ret (chosen_font size), w).
Proof.
  unfold try_except, ImageFont_truetype, ImageFont_load_default, chosen_font,
    font_size, ret.
  by destruct (truetype_open _ _).
Qed.

(** With lawful fonts the only font that may not be measured is the
    built-in one: line 25 can fail only after the fallback. *)
Lemma measured_spec `{!FontLaws FS} size :
  measured size
  <-> (exists f, truetype_open "/System/Library/Fonts/Arial.ttf"
                   (font_size size) = Ret f)
      \/ measurable default_font = true.
Proof.
  unfold measured, chosen_font.
  destruct (truetype_open _ _) as [f|e] eqn:Hf.
  - split; [eauto|]. intros _. by eapply truetype_measurable.
  - split; [by right|]. by intros [[f [=]]|].
Qed.

(** The call up to and including [draw.text]: one object more on the heap,
    holding the finished raster. *)
Lemma run_drawing size w (k : nat -> M World exn unit) :
  0 <= size -> measured size ->
  (img <- Image_new "RGBA" (size, size) (0, 123, 186, 255) ;;
   draw <- ImageDraw_Draw img ;;
   font <- try_except
             (let font_size := py_max (floordiv size 3) 12 in
              ImageFont_truetype "/System/Library/Fonts/Arial.ttf" font_size)
             (fun _ => ImageFont_load_default) ;;
   let text := "U" in
   bbox <- ImageDraw_textbbox draw (0, 0) text font ;;
   let text_width := bbox2 bbox - bbox0 bbox in
   let text_height := bbox3 bbox - bbox1 bbox in
   let x := floordiv (size - text_width) 2 in
   let y := floordiv (size - text_height) 2 in
   ImageDraw_text draw (x, y) text (255, 255, 255, 255) font ;;
   k img)%exec w
  = k (length (heap w)) (drawn_world size w).
Proof.
  intros Hs Hm.
  erewrite bind_Ret by (apply run_Image_new, new_image_blank, Hs).
  unfold ImageDraw_Draw. autorewrite with exec.
  erewrite bind_Ret by apply run_font_choice.
  erewrite bind_Ret by (apply run_ImageDraw_textbbox, Hm).
  rewrite bbox_at_origin.
  erewrite bind_Ret by (apply run_ImageDraw_text, lookup_new_object).
  unfold drawn_world. cbn [set_heap heap files readonly modules stdout draw_im].
  by autorewrite with icon_rw.
Qed.

(** The five ways the call ends, each from what decides it. *)
Lemma run_create_icon_encoded size filename w bs :
  0 <= size -> measured size -> filename ∉ readonly w ->
  png_encode (icon_image size) = Ret bs ->
  create_icon size filename w = (Ret tt, icon_world size filename w).
Proof.
  intros Hs Hm Hw He. unfold create_icon. rewrite run_drawing by done.
  erewrite bind_Ret
    by (eapply run_Image_save; [apply lookup_new_object | exact Hw | exact He]).
  unfold icon_world, icon_bytes. by rewrite He.
Qed.

Lemma run_create_icon_refused size filename w e :
  0 <= size -> measured size -> filename ∉ readonly w ->
  png_encode (icon_image size) = Raise e ->
  create_icon size filename w = (Raise e, refused_world size filename w).
Proof.
  intros Hs Hm Hw He. unfold create_icon. rewrite run_drawing by done.
  apply bind_Raise.
  erewrite run_Image_save_refused;
    [reflexivity | apply lookup_new_object | exact Hw | exact He].
Qed.

Lemma run_create_icon_readonly size filename w :
  0 <= size -> measured size -> filename ∈ readonly w ->
  create_icon size filename w = (Raise OSError, drawn_world size w).
Proof.
  intros Hs Hm Hw. unfold create_icon. rewrite run_drawing by done.
  apply bind_Raise.
  eapply run_Image_save_readonly; [apply lookup_new_object | exact Hw].
Qed.

(** A font that cannot be measured ends the call at [draw.textbbox], which
    is outside the [try]. *)
Lemma run_create_icon_unmeasured size filename w :
  0 <= size -> ~ measured size ->
  create_icon size filename w = (Raise ValueError, blank_world size w).
Proof.
  intros Hs Hm%not_true_is_false. unfold create_icon.
  erewrite bind_Ret by (apply run_Image_new, new_image_blank, Hs).
  unfold ImageDraw_Draw. autorewrite with exec.
  erewrite bind_Ret by apply run_font_choice.
  apply bind_Raise. unfold blank_world.
  by rewrite (run_ImageDraw_textbbox_Raise _ _ _ _ _ Hm).
Qed.

Lemma run_create_icon_negative size filename w :
  size < 0 -> create_icon size filename w = (Raise ValueError, w).
Proof.
  intros Hs. unfold create_icon. apply bind_Raise, run_Image_new_Raise.
  apply new_image_Raise. lia.
Qed.

(** The call, from what decides how it ends. *)
Lemma create_icon_cases size filename w :
  create_icon size filename w =
    if size <? 0 then (Raise ValueError, w)
    else if negb (measurable (chosen_font size))
         then (Raise ValueError, blank_world size w)
    else if bool_decide (filename ∈ readonly w)
         then (Raise OSError, drawn_world size w)
         else match png_encode (icon_image size) with
              | Ret _ => (Ret tt, icon_world size filename w)
              | Raise e => (Raise e, refused_world size filename w)
              end.
Proof.
  destruct (Z.ltb_spec size 0); [by apply run_create_icon_negative|].
  destruct (measurable (chosen_font size)) eqn:Hm; cbn [negb];
    [|apply run_create_icon_unmeasured; [done | unfold measured; congruence]].
  case_bool_decide; [by apply run_create_icon_readonly|].
  destruct (png_encode (icon_image size)) as [bs|e] eqn:He;
    [by eapply run_create_icon_encoded | by apply run_create_icon_refused].
Qed.

(** A call that raised has touched no file but its own, and neither the
    permissions nor the modules nor the output. *)
Lemma failed_world_frame size filename w :
  readonly (failed_world size filename w) = readonly w
  /\ modules (failed_world size filename w) = modules w
  /\ stdout (failed_world size filename w) = stdout w
  /\ (forall other, other <> filename ->
        files (failed_world size filename w) !! other = files w !! other).
Proof.
  unfold failed_world. repeat case_match; repeat split; try done.
  intros other Hne. by apply lookup_failed_save_ne.
Qed.

(** The call keeps the image objects well formed, by the rules of the
    monad from the calls it is made of. *)
Lemma create_icon_wf size filename :
  preserves wf_world (create_icon size filename).
Proof.
  unfold create_icon, ImageDraw_Draw, ImageFont_load_default.
  auto 20 with icon.
Qed.

(** With a lawful codec the raster of an icon is encoded. *)
Lemma icon_encoded `{!PngLaws PC} size :
  0 < size < 2 ^ 31 -> png_encode (icon_image size) = Ret (icon_bytes size).
Proof.
  intros Hs. unfold icon_bytes.
  by destruct (png_encode_encodable _ (icon_image_encodable size Hs)) as [bs ->].
Qed.

Lemma run_create_icon `{!PngLaws PC} size filename w :
  0 < size < 2 ^ 31 -> measured size -> filename ∉ readonly w ->
  create_icon size filename w = (Ret tt, icon_world size filename w).
Proof.
  intros Hs Hm Hw. eapply run_create_icon_encoded; [lia | done | done |].
  by apply icon_encoded.
Qed.

(** The file written by a successful call. *)
Lemma create_icon_file `{!PngLaws PC} size filename w :
  0 < size < 2 ^ 31 -> measured size -> filename ∉ readonly w ->
  files (create_icon size filename w).2 !! filename = Some (icon_bytes size).
Proof.
  intros Hs Hm Hw. rewrite run_create_icon by done. apply lookup_insert_eq.
Qed.

(** The bytes of an icon are a PNG of its raster. *)
Lemma icon_bytes_decode `{!PngLaws PC} `{!FontLaws FS} size :
  0 < size < 2 ^ 31 -> png_decode (icon_bytes size) = Some (icon_image size).
Proof.
  intros Hs. eapply png_decode_encode; [by apply icon_encoded|].
  apply icon_image_valid.
Qed.

(** The bytes of an icon have the frame of a PNG file of its size. *)
Lemma icon_bytes_frame `{!PngLaws PC} size :
  0 < size < 2 ^ 31 ->
  png_header size size `prefix_of` icon_bytes size
  /\ png_trailer `suffix_of` icon_bytes size
  /\ png_info (icon_bytes size) = Some (rgba8 size size).
Proof.
  intros Hs. pose proof (icon_encoded size Hs) as Henc.
  split; [by apply (png_encode_header _ _ Henc)|].
  split; [by apply (png_encode_trailer _ _ Henc)|].
  by apply (png_encode_info _ _ Henc), icon_image_encodable.
Qed.

Lemma create_icon_read_png `{!PngLaws PC} `{!FontLaws FS} size filename w :
  0 < size < 2 ^ 31 -> measured size -> filename ∉ readonly w ->
  read_png (create_icon size filename w).2 filename = Some (icon_image size).
Proof.
  intros Hs Hm Hw. unfold read_png. rewrite create_icon_file by done.
  by apply icon_bytes_decode.
Qed.

End Run.

(** ** What [create_icon] guarantees *)

Section Guarantees.
Context `{FS : FontSystem} `{PC : PngCodec}.
Implicit Types (size x y : Z) (filename : string) (w : World).

(** C1: for every size, file name and world, [create_icon] ends in exactly
    one of five ways.  A negative size raises [ValueError] at [Image.new]
    and changes nothing.  A font that [draw.textbbox] does not measure
    raises [ValueError] there, with the blank raster allocated and nothing
    else done.  A file name that cannot be written raises [OSError] at
    [img.save], after the raster was built and before anything is printed;
    the file system and standard output are as before.  An encoder that
    refuses the raster raises its exception in the same call, after the
    file was opened: nothing is printed, and the file is what a failed
    save leaves.  Otherwise the call returns, the file holds the bytes of
    the finished raster, and one line was printed. *)
Theorem create_icon_outcome size filename w :
  create_icon size filename w =
    if size <? 0 then (Raise ValueError, w)
    else if negb (measurable (chosen_font size))
         then (Raise ValueError, blank_world size w)
    else if bool_decide (filename ∈ readonly w)
         then (Raise OSError, drawn_world size w)
         else match png_encode (icon_image size) with
              | Ret _ => (Ret tt, icon_world size filename w)
              | Raise e => (Raise e, refused_world size filename w)
              end.
Proof. apply create_icon_cases. Qed.

(** C2: after a call with a positive size, a font that can be measured and
    a writable name, the file of that name exists, starts with the
    signature of the PNG format, and is read back as a well-formed RGBA
    raster of exactly [size] by [size] pixels. *)
Theorem create_icon_saves_square `{!PngLaws PC} `{!FontLaws FS}
    size filename w :
  0 < size < 2 ^ 31 -> measured size -> filename ∉ readonly w ->
  exists bs img,
    files (create_icon size filename w).2 !! filename = Some bs
    /\ png_signature `prefix_of` bs
    /\ png_decode bs = Some img
    /\ im_mode img = "RGBA"
    /\ im_size img = (size, size)
    /\ wf_image img.
Proof.
  intros Hs Hm Hw. exists (icon_bytes size), (icon_image size).
  split; [by apply create_icon_file|].
  split; [by eapply png_encode_signature; [apply icon_encoded|]|].
  split; [by apply icon_bytes_decode|].
  repeat split; try reflexivity; apply icon_image_wf; lia.
Qed.

(** C3: the saved raster implements the picture [icon_pixel]: every pixel
    inside the image read back from the file has the colour the picture
    gives it (white blended over the blue by the glyph's coverage inside
    the ink box, the blue elsewhere). *)
Theorem create_icon_pixels `{!PngLaws PC} `{!FontLaws FS}
    size filename w x y :
  size < 2 ^ 31 -> 0 <= x < size -> 0 <= y < size ->
  measured size -> filename ∉ readonly w ->
  exists img,
    read_png (create_icon size filename w).2 filename = Some img
    /\ getpixel img (x, y) = Some (icon_pixel size x y).
Proof.
  intros Hs Hx Hy Hm Hw. eexists.
  split; [apply create_icon_read_png; [lia|done..]|].
  by apply getpixel_icon_image.
Qed.

(** C6: when the ink box leaves at least one column free on the left and on
    the right, the four corner pixels of the saved raster are the opaque
    blue (0,123,186,255). *)
Theorem create_icon_corners `{!PngLaws PC} `{!FontLaws FS}
    size filename w :
  0 < size < 2 ^ 31 -> measured size -> filename ∉ readonly w ->
  0 < bbox0 (ink_box size) -> bbox2 (ink_box size) < size ->
  exists img,
    read_png (create_icon size filename w).2 filename = Some img
    /\ Forall (fun xy => getpixel img xy = Some background)
         [(0, 0); (size - 1, 0); (0, size - 1); (size - 1, size - 1)].
Proof.
  intros Hs Hm Hw Hl Hr. eexists. split; [by apply create_icon_read_png|].
  repeat constructor;
    (rewrite getpixel_icon_image by lia; f_equal;
     apply icon_pixel_outside; lia).
Qed.

(** C7: where the ink lands.  With [b] the font's box of "U" and [B] the
    ink box in the image, the right margin exceeds the left margin by
    between [-2 * b[0]] and [1 - 2 * b[0]], and the bottom margin exceeds
    the top margin by between [-2 * b[1]] and [1 - 2 * b[1]].  The ink is
    centred to within one pixel exactly when the font's box starts at the
    origin; otherwise it is shifted right and down by the box's offset. *)
Theorem ink_box_margins size :
  let b := getbbox (chosen_font size) "U" in
  let B := ink_box size in
  - 2 * bbox0 b <= (size - bbox2 B) - bbox0 B <= 1 - 2 * bbox0 b
  /\ - 2 * bbox1 b <= (size - bbox3 B) - bbox1 B <= 1 - 2 * bbox1 b.
Proof.
  intros b B. subst B. unfold ink_box, text_position, bbox_at. fold b.
  unfold floordiv, bbox0, bbox1, bbox2, bbox3. cbn [fst snd]. zdiv.
Qed.

(** With the offset of the box taken off the anchor the ink is centred to
    within one pixel, for every font and every size. *)
Lemma centred_position_margins size f :
  let B := bbox_at (centred_position size f) (getbbox f "U") in
  0 <= (size - bbox2 B) - bbox0 B <= 1
  /\ 0 <= (size - bbox3 B) - bbox1 B <= 1.
Proof.
  intros B. subst B. unfold centred_position, text_position, bbox_at.
  unfold floordiv, bbox0, bbox1, bbox2, bbox3. cbn [fst snd]. zdiv.
Qed.

(** C8: when the system font cannot be opened, whatever the exception, the
    call goes on with the default font.  Where the library measures the
    default font, the call returns and the file holds the encoding of the
    icon drawn with the default font.  Where it does not, [draw.textbbox],
    which is outside the [try], raises [ValueError]: the call ends there,
    no file is written and nothing is printed. *)
Theorem create_icon_fallback `{!PngLaws PC} size filename w e :
  0 < size < 2 ^ 31 -> filename ∉ readonly w ->
  truetype_open "/System/Library/Fonts/Arial.ttf" (font_size size) = Raise e ->
  if measurable default_font then
    (create_icon size filename w).1 = Ret tt
    /\ exists bs,
         png_encode (draw_bitmap (blank_icon size)
                       (text_origin (text_position size default_font)
                          default_font "U")
                       (text_mask default_font "U") white) = Ret bs
         /\ files (create_icon size filename w).2 !! filename = Some bs
  else
    (create_icon size filename w).1 = Raise ValueError
    /\ files (create_icon size filename w).2 = files w
    /\ stdout (create_icon size filename w).2 = stdout w.
Proof.
  intros Hs Hw He.
  assert (Hf : chosen_font size = default_font)
    by (unfold chosen_font; by rewrite He).
  destruct (measurable default_font) eqn:Hm.
  - assert (measured size) by (unfold measured; by rewrite Hf).
    rewrite create_icon_file, run_create_icon by done.
    split; [done|]. exists (icon_bytes size). split; [|done].
    rewrite <- (icon_encoded size Hs). unfold icon_image. by rewrite Hf.
  - rewrite run_create_icon_unmeasured; [done | lia |].
    unfold measured. rewrite Hf. congruence.
Qed.

(** C9: when the file cannot be written the call, having come as far as
    [img.save], raises [OSError]; no file is created or changed and nothing
    is printed. *)
Theorem create_icon_readonly_error size filename w :
  0 <= size -> measured size -> filename ∈ readonly w ->
  (create_icon size filename w).1 = Raise OSError
  /\ files (create_icon size filename w).2 = files w
  /\ stdout (create_icon size filename w).2 = stdout w.
Proof. intros Hs Hm Hw. by rewrite run_create_icon_readonly. Qed.

(** C10: in a font system that keeps coverage within a byte, every pixel of
    the saved raster has its four channels within 0..255 and is fully
    opaque. *)
Theorem create_icon_opaque `{!PngLaws PC} `{!FontLaws FS} size filename w :
  0 < size < 2 ^ 31 -> measured size -> filename ∉ readonly w ->
  exists img,
    read_png (create_icon size filename w).2 filename = Some img
    /\ all_pixels (fun c => valid_colour c /\ opaque c) img.
Proof.
  intros Hs Hm Hw. eexists. split; [by apply create_icon_read_png|].
  apply icon_image_pixels_ok.
Qed.

(** C11: the font size is 12 for every icon smaller than 39 pixels and a
    third of the edge, rounded down, from there on; it is never below 12. *)
Theorem font_size_spec size :
  font_size size = (if size <? 39 then 12 else size / 3)
  /\ 12 <= font_size size.
Proof.
  unfold font_size, floordiv. rewrite py_max_spec.
  destruct (Z.ltb_spec size 39); zdiv.
Qed.

(** C14: whatever its outcome, a call leaves every other file as it was,
    does not change which paths are writable or which modules are
    installed, only adds to the heap and only appends to standard
    output. *)
Theorem create_icon_frame size filename w other :
  other <> filename ->
  files (create_icon size filename w).2 !! other = files w !! other
  /\ readonly (create_icon size filename w).2 = readonly w
  /\ modules (create_icon size filename w).2 = modules w
  /\ heap w `prefix_of` heap (create_icon size filename w).2
  /\ stdout w `prefix_of` stdout (create_icon size filename w).2.
Proof.
  intros Hne. rewrite create_icon_cases.
  repeat case_match; simpl;
    rewrite ?lookup_insert_ne, ?lookup_failed_save_ne by done;
    repeat split; (done || by apply prefix_app_r).
Qed.

(** C15: calling [create_icon] a second time with the same arguments
    succeeds again, leaves the file system exactly as the first call left
    it, and prints the same line once more. *)
Theorem create_icon_idempotent `{!PngLaws PC} size filename w :
  0 < size < 2 ^ 31 -> measured size -> filename ∉ readonly w ->
  let w1 := (create_icon size filename w).2 in
  let w2 := (create_icon size filename w1).2 in
  (create_icon size filename w1).1 = Ret tt
  /\ files w2 = files w1
  /\ stdout w2 = (stdout w ++ [created_line filename size;
                                created_line filename size])%list.
Proof.
  intros Hs Hm Hw w1 w2. subst w2 w1.
  rewrite (run_create_icon size filename w) by done. cbn [snd].
  rewrite (run_create_icon size filename (icon_world size filename w))
    by done.
  simpl. repeat split; [apply insert_insert_eq | by rewrite <- app_assoc].
Qed.


(** C30: when the encoder refuses the raster, the call raises the
    encoder's exception at [img.save]; nothing is printed and the raster
    stays behind on the heap.  The file had been opened by then: where the
    call would have created it and the library cleans up there is no file
    afterwards, and otherwise the file holds what the encoder wrote before
    it raised, in place of what was there.  Either way no reader finds a
    picture under the name any more, and no other file is touched. *)
Theorem create_icon_encoder_error `{!PngLaws PC} size filename w e :
  0 <= size -> measured size -> filename ∉ readonly w ->
  png_encode (icon_image size) = Raise e ->
  let w' := (create_icon size filename w).2 in
  (create_icon size filename w).1 = Raise e
  /\ stdout w' = stdout w
  /\ heap w' = heap w ++ [icon_image size]
  /\ files w' !! filename
     = (if save_removes_created && bool_decide (files w !! filename = None)
        then None else Some (png_partial (icon_image size)))
  /\ read_png w' filename = None
  /\ (forall other, other <> filename -> files w' !! other = files w !! other).
Proof.
  intros Hs Hm Hw He w'. subst w'.
  rewrite (run_create_icon_refused size filename w e) by done.
  unfold read_png. cbn [fst snd refused_world set_files files heap stdout].
  split; [done|]. split; [done|]. split; [done|].
  split; [apply lookup_failed_save|].
  split; [by eapply failed_save_unreadable|].
  intros other Hne. by apply lookup_failed_save_ne.
Qed.



End Guarantees.

(** A font whose box does not start at the origin puts the glyph off
    centre: on the machine [toy_mac], whose outline font leaves room above
    the ink as outline fonts do, the 128-pixel icon has 58 free rows above
    the ink and 38 below. *)
Lemma text_off_centre :
  FontLaws toy_mac
  /\ bbox1 (ink_box (FS:=toy_mac) 128) = 58
  /\ 128 - bbox3 (ink_box (FS:=toy_mac) 128) = 38.
Proof. split; [apply _ | by vm_compute]. Qed.

(** ** The guarantees at concrete inputs *)

Section Examples.
#[local] Existing Instance stored_codec.

Lemma create_icon_saves_square_witness :
  exists bs img,
    files (create_icon (FS:=toy_linux) 16 "icon16.png" empty_world).2
      !! "icon16.png" = Some bs
    /\ png_signature `prefix_of` bs
    /\ png_decode bs = Some img
    /\ im_mode img = "RGBA"
    /\ im_size img = (16, 16)
    /\ wf_image img.
Proof.
  apply (create_icon_saves_square (FS:=toy_linux) 16 "icon16.png" empty_world);
    [lia | reflexivity | apply not_elem_of_empty].
Defined.

Lemma create_icon_pixels_witness :
  exists img,
    read_png (create_icon (FS:=toy_mac) 48 "icon48.png" empty_world).2
      "icon48.png" = Some img
    /\ getpixel img (24, 30) = Some (icon_pixel (FS:=toy_mac) 48 24 30).
Proof.
  apply (create_icon_pixels (FS:=toy_mac) 48 "icon48.png" empty_world 24 30);
    [lia | lia | lia | reflexivity | apply not_elem_of_empty].
Defined.

Lemma create_icon_corners_witness :
  exists img,
    read_png (create_icon (FS:=toy_linux) 16 "icon16.png" empty_world).2
      "icon16.png" = Some img
    /\ Forall (fun xy => getpixel img xy = Some background)
         [(0, 0); (16 - 1, 0); (0, 16 - 1); (16 - 1, 16 - 1)].
Proof.
  apply (create_icon_corners (FS:=toy_linux) 16 "icon16.png" empty_world);
    [lia | reflexivity | apply not_elem_of_empty
    | by vm_compute | by vm_compute].
Defined.

Lemma create_icon_fallback_witness :
  (create_icon (FS:=toy_linux) 32 "icon32.png" empty_world).1 = Ret tt
  /\ exists bs,
       png_encode (draw_bitmap (blank_icon 32)
                     (text_origin (FS:=toy_linux)
                        (text_position (FS:=toy_linux) 32 Bitmap) Bitmap "U")
                     (text_mask (FS:=toy_linux) Bitmap "U") white) = Ret bs
       /\ files (create_icon (FS:=toy_linux) 32 "icon32.png" empty_world).2
            !! "icon32.png" = Some bs.
Proof.
  apply (create_icon_fallback (FS:=toy_linux) 32 "icon32.png" empty_world
           OSError); [lia | apply not_elem_of_empty | reflexivity].
Defined.

(** On a machine without Arial whose library does not measure the
    built-in font the call fails at [draw.textbbox]: no icon is made. *)
Lemma create_icon_old_library :
  create_icon (FS:=toy_linux_old) 32 "icon32.png" empty_world
  = (Raise ValueError, blank_world 32 empty_world).
Proof. apply run_create_icon_unmeasured; [lia | discriminate]. Qed.

Lemma create_icon_readonly_error_witness :
  (create_icon (FS:=toy_mac) 32 "icon32.png" locked_world).1 = Raise OSError
  /\ files (create_icon (FS:=toy_mac) 32 "icon32.png" locked_world).2
     = files locked_world
  /\ stdout (create_icon (FS:=toy_mac) 32 "icon32.png" locked_world).2
     = stdout locked_world.
Proof.
  apply (create_icon_readonly_error (FS:=toy_mac) 32 "icon32.png"
           locked_world);
    [lia | reflexivity | cbn [locked_world readonly]; set_solver].
Defined.

Lemma create_icon_opaque_witness :
  exists img,
    read_png (create_icon (FS:=toy_mac) 128 "icon128.png" empty_world).2
      "icon128.png" = Some img
    /\ all_pixels (fun c => valid_colour c /\ opaque c) img.
Proof.
  apply (create_icon_opaque (FS:=toy_mac) 128 "icon128.png" empty_world);
    [lia | reflexivity | apply not_elem_of_empty].
Defined.

Lemma create_icon_frame_witness :
  files (create_icon (FS:=toy_mac) 16 "icon16.png" locked_world).2
    !! "icon32.png" = files locked_world !! "icon32.png"
  /\ readonly (create_icon (FS:=toy_mac) 16 "icon16.png" locked_world).2
     = readonly locked_world
  /\ modules (create_icon (FS:=toy_mac) 16 "icon16.png" locked_world).2
     = modules locked_world
  /\ heap locked_world
       `prefix_of` heap (create_icon (FS:=toy_mac) 16 "icon16.png"
                           locked_world).2
  /\ stdout locked_world
       `prefix_of` stdout (create_icon (FS:=toy_mac) 16 "icon16.png"
                             locked_world).2.
Proof.
  apply (create_icon_frame (FS:=toy_mac) 16 "icon16.png" locked_world
           "icon32.png"); discriminate.
Defined.

Lemma create_icon_idempotent_witness :
  let w1 := (create_icon (FS:=toy_linux) 16 "icon16.png" empty_world).2 in
  let w2 := (create_icon (FS:=toy_linux) 16 "icon16.png" w1).2 in
  (create_icon (FS:=toy_linux) 16 "icon16.png" w1).1 = Ret tt
  /\ files w2 = files w1
  /\ stdout w2 = (stdout empty_world
                  ++ [created_line "icon16.png" 16;
                      created_line "icon16.png" 16])%list.
Proof.
  apply (create_icon_idempotent (FS:=toy_linux) 16 "icon16.png" empty_world);
    [lia | reflexivity | apply not_elem_of_empty].
Defined.

(** The stored codec refuses an image without pixels. *)
Lemma create_icon_encoder_error_witness :
  let w := icon_world (FS:=toy_linux) 16 "icon16.png" empty_world in
  let w' := (create_icon (FS:=toy_linux) 0 "icon16.png" w).2 in
  (create_icon (FS:=toy_linux) 0 "icon16.png" w).1 = Raise SystemError
  /\ stdout w' = stdout w
  /\ heap w' = heap w ++ [icon_image (FS:=toy_linux) 0]
  /\ files w' !! "icon16.png"
     = (if save_removes_created
           && bool_decide (files w !! "icon16.png" = None)
        then None else Some (png_partial (icon_image (FS:=toy_linux) 0)))
  /\ read_png w' "icon16.png" = None
  /\ (forall other, other <> "icon16.png" ->
        files w' !! other = files w !! other).
Proof.
  apply (create_icon_encoder_error (FS:=toy_linux) 0 "icon16.png"
           (icon_world (FS:=toy_linux) 16 "icon16.png" empty_world)
           SystemError);
    [lia | reflexivity | apply not_elem_of_empty | reflexivity].
Defined.

(** A call with size 0 under the name of an icon made before destroys the
    icon: the file is cut down to the 33 bytes of the signature and a
    header of 0 by 0 pixels, which is not a picture. *)
Lemma create_icon_destroys_icon :
  let w := icon_world (FS:=toy_linux) 16 "icon16.png" empty_world in
  let w' := (create_icon (FS:=toy_linux) 0 "icon16.png" w).2 in
  read_png w "icon16.png" = Some (icon_image (FS:=toy_linux) 16)
  /\ files w' !! "icon16.png" = Some (png_header 0 0)
  /\ read_png w' "icon16.png" = None.
Proof. by vm_compute. Qed.

(** Under a name that is not taken the call leaves no file where the
    library cleans up, and the 33 bytes where it does not. *)
Lemma create_icon_leaves_stub :
  files (create_icon (FS:=toy_linux) 0 "icon0.png" empty_world).2
    !! "icon0.png" = None
  /\ files (create_icon (FS:=toy_linux) (PC:=stored_codec_old) 0 "icon0.png"
              empty_world).2 !! "icon0.png" = Some (png_header 0 0).
Proof. by vm_compute. Qed.


(** The codec runs: the file of the smallest icon, written with the stored
    codec, is 1108 bytes long, begins with the 33 bytes of the signature
    and the header of a 16 by 16 image, and is read back as the raster. *)
Lemma icon16_stored :
  length (icon_bytes (FS:=toy_mac) 16) = 1108%nat
  /\ take 33 (icon_bytes (FS:=toy_mac) 16) = png_header 16 16
  /\ png_decode (icon_bytes (FS:=toy_mac) 16)
     = Some (icon_image (FS:=toy_mac) 16).
Proof. by vm_compute. Qed.

(** The reader takes the file of a compressing encoder and finds the same
    icon in it; its rows are those the heuristic of the library gives. *)
Lemma icon16_compressed_read :
  png_decode icon16_compressed = Some (icon_image (FS:=toy_linux) 16)
  /\ take 33 icon16_compressed = png_header 16 16
  /\ ('(_, bs) ← read_header icon16_compressed;
      '(z, _) ← read_idats (length bs) bs;
      zlib_decompress z)
     = Some (png_data adaptive (icon_image (FS:=toy_linux) 16)).
Proof. by vm_compute. Qed.


End Examples.
