(* ===== verification/Main.v ===== *)
(** * [main]: the driver

    [main] of [create_icons.py]: the loop over the four sizes, the file name
    built for each, and the call of [create_icon]; then the script as the
    interpreter runs it (the imports, the entry point) and the exit status
    of the process.  [make_icons] is the same
    loop over any list of sizes, which is what the statements about partial
    runs and about the order of the sizes need. *)

From Stdlib Require Import ZArith Lia String.
From stdpp Require Import base tactics option list strings gmap.
From S2P Require Import Prelude PyInt Raster ByteSeq Png PngWrite Fonts World.
From S2P Require Import CreateIcon.

Local Open Scope string_scope.
Local Open Scope list_scope.
Local Open Scope Z_scope.

Section Main.
Context `{FS : FontSystem} `{PC : PngCodec}.

(** ** The driver *)

Definition main : M World exn unit :=
  let sizes := [16; 32; 48; 128] in
  for_each sizes (fun size =>
    let filename := "icon" +:+ str_int size +:+ ".png" in
    create_icon size filename).

(** The file as the interpreter runs it under the module name [name]: the
    imports, then [if __name__ == "__main__": main()].  (The two [def]s
    bind names and do nothing else.) *)
Definition script (name : string) : M World exn unit :=
  (import_from "PIL" ["Image"; "ImageDraw"; "ImageFont"] ;;
   import_module "os" ;;
   if String.eqb name "__main__" then main else ret tt)%exec.

(** The status the interpreter exits with: 0 when the script ran to its
    end, 1 when an exception reached the top. *)
Definition exit_status {A} (o : outcome exn A) : Z :=
  match o with
  | Ret _ => 0
  | Raise _ => 1
  end.

(** ** Its parts, read as values *)

Definition sizes : list Z := [16; 32; 48; 128].

Definition icon_filename (size : Z) : string :=
  "icon" +:+ str_int size +:+ ".png".

(** The loop of [main] over any list of sizes. *)
Definition make_icons (l : list Z) : M World exn unit :=
  for_each l (fun size => create_icon size (icon_filename size)).

(** The world after the icons of [l] were made, one after the other. *)
Definition icons_world (l : list Z) (w : World) : World :=
  foldl (fun w size => icon_world size (icon_filename size) w) w l.

Definition writable (w : World) (size : Z) : Prop :=
  icon_filename size ∉ readonly w.

(** The sides an icon can have: positive and within the format. *)
Definition icon_size (size : Z) : Prop := 0 < size < 2 ^ 31.

(** The encoder takes the raster of the icon of a size. *)
Definition encodes (size : Z) : Prop :=
  exists bs, png_encode (icon_image size) = Ret bs.

(** The icon of a size can be made: [create_icon] will return. *)
Definition makeable (w : World) (size : Z) : Prop :=
  0 <= size /\ measured size /\ writable w size /\ encodes size.

(** The modules of the script's imports are installed. *)
Definition installed (w : World) : Prop := script_modules ⊆ modules w.

#[export] Instance writable_dec (w : World) (size : Z) :
  Decision (writable w size).
Proof. unfold writable. apply _. Defined.

#[export] Instance installed_dec (w : World) : Decision (installed w).
Proof. unfold installed. apply _. Defined.

#[export] Instance measured_dec (size : Z) : Decision (measured size).
Proof. unfold measured. apply _. Defined.

#[export] Instance encodes_dec (size : Z) : Decision (encodes size).
Proof.
  unfold encodes. destruct (png_encode (icon_image size)) as [bs|e];
    [left; by eexists | right; by intros [? ?]].
Defined.

#[export] Instance makeable_dec (w : World) (size : Z) :
  Decision (makeable w size).
Proof. unfold makeable. apply _. Defined.

(** ** The loop, step by step *)

Implicit Types (l : list Z) (w : World) (size : Z).

Lemma main_make_icons w : main w = make_icons sizes w.
Proof. reflexivity. Qed.

Lemma icon_filename_inj : Inj (=) (=) icon_filename.
Proof. intros a b. apply around_int_inj. Qed.

#[export] Existing Instance icon_filename_inj.

Lemma icons_world_snoc l size w :
  icons_world (l ++ [size]) w
  = icon_world size (icon_filename size) (icons_world l w).
Proof. unfold icons_world. by rewrite foldl_app. Qed.

Lemma readonly_icons_world l w : readonly (icons_world l w) = readonly w.
Proof.
  revert w. induction l as [|s l IH]; intros w; [done|].
  simpl. by rewrite IH.
Qed.

Lemma modules_icons_world l w : modules (icons_world l w) = modules w.
Proof.
  revert w. induction l as [|s l IH]; intros w; [done|].
  simpl. by rewrite IH.
Qed.

Lemma stdout_icons_world l w :
  stdout (icons_world l w)
  = (stdout w ++ ((fun s => created_line (icon_filename s) s) <$> l))%list.
Proof.
  revert w. induction l as [|s l IH]; intros w; simpl.
  - by rewrite app_nil_r.
  - rewrite IH. simpl. by rewrite <- app_assoc.
Qed.

(** Every iteration succeeds when the font of every size can be measured
    and every file can be written. *)
Lemma run_make_icons `{!PngLaws PC} l w :
  Forall icon_size l -> Forall measured l -> Forall (writable w) l ->
  make_icons l w = (Ret tt, icons_world l w).
Proof.
  revert w. induction l as [|s l IH]; intros w Hpos Hm Hw; [done|].
  apply Forall_cons in Hpos as [Hs Hpos]. apply Forall_cons in Hm as [Hms Hm].
  apply Forall_cons in Hw as [Hws Hw].
  unfold make_icons. rewrite for_each_cons.
  erewrite bind_Ret by (by apply run_create_icon). by apply IH.
Qed.

(** The loop ends at the first size whose file cannot be written. *)
Lemma run_make_icons_fail `{!PngLaws PC} l1 size l2 w :
  Forall icon_size (l1 ++ [size]) -> Forall measured (l1 ++ [size]) ->
  Forall (writable w) l1 -> ~ writable w size ->
  make_icons (l1 ++ size :: l2) w
  = (Raise OSError, drawn_world size (icons_world l1 w)).
Proof.
  intros [Hpos Hs%Forall_inv]%Forall_app [Hm Hms%Forall_inv]%Forall_app Hw Hro.
  unfold make_icons.
  eapply for_each_stops; [exact (run_make_icons l1 w Hpos Hm Hw)|].
  apply run_create_icon_readonly; [unfold icon_size in Hs; lia | done |].
  rewrite readonly_icons_world. unfold writable in Hro.
  by destruct (decide (icon_filename size ∈ readonly w)).
Qed.

Lemma files_icons_world_in l w size :
  size ∈ l ->
  files (icons_world l w) !! icon_filename size = Some (icon_bytes size).
Proof.
  induction l as [|s l IH] using rev_ind; [by intros ?%elem_of_nil|].
  rewrite icons_world_snoc. simpl.
  intros [Hin| ->%list_elem_of_singleton]%elem_of_app.
  - destruct (decide (s = size)) as [->|Hne]; [apply lookup_insert_eq|].
    rewrite lookup_insert_ne; [by apply IH|].
    by intros ?%(inj icon_filename).
  - apply lookup_insert_eq.
Qed.

Lemma files_icons_world_out l w name :
  name ∉ icon_filename <$> l ->
  files (icons_world l w) !! name = files w !! name.
Proof.
  induction l as [|s l IH] using rev_ind; [done|].
  rewrite icons_world_snoc, fmap_app. simpl. intros Hout.
  apply not_elem_of_app in Hout as [Hl Hs].
  rewrite lookup_insert_ne; [by apply IH|].
  intros <-. apply Hs. by apply list_elem_of_singleton.
Qed.

(** Inserting the same icons in another order gives the same files. *)
Lemma files_icons_world_perm l l' w :
  l ≡ₚ l' -> files (icons_world l w) = files (icons_world l' w).
Proof.
  intros Hp. apply map_eq. intros name.
  destruct (decide (name ∈ icon_filename <$> l)) as [Hin|Hout].
  - apply list_elem_of_fmap in Hin as (s & -> & Hs).
    rewrite !files_icons_world_in; [done| by rewrite <- Hp |done].
  - rewrite !files_icons_world_out; [done| by rewrite <- Hp |done].
Qed.

Lemma sizes_icon_size : Forall icon_size sizes.
Proof. unfold sizes, icon_size. repeat constructor; lia. Qed.

Lemma installed_spec w :
  installed w
  <-> "PIL" ∈ modules w /\ "PIL.Image" ∈ modules w
      /\ "PIL.ImageDraw" ∈ modules w /\ "PIL.ImageFont" ∈ modules w
      /\ "os" ∈ modules w.
Proof.
  unfold installed, script_modules.
  rewrite !union_subseteq, !singleton_subseteq_l. tauto.
Qed.

(** The imports of the script succeed when the modules are installed, and
    raise [ImportError] at the first that is not. *)
Lemma run_script_imports w :
  (import_from "PIL" ["Image"; "ImageDraw"; "ImageFont"] ;;
   import_module "os")%exec w
  = (if bool_decide (installed w) then Ret tt else Raise ImportError, w).
Proof.
  cbv [import_from import_module for_each bind ret String.append].
  destruct (decide (installed w)) as [Hi|Hi].
  - rewrite (bool_decide_eq_true_2 (installed w)) by done.
    apply installed_spec in Hi as (? & ? & ? & ? & ?).
    by rewrite !bool_decide_eq_true_2 by done.
  - rewrite (bool_decide_eq_false_2 (installed w)) by done.
    repeat (case_bool_decide; cbv beta iota); try done.
    destruct Hi. by apply installed_spec.
Qed.

Lemma run_script name w :
  script name w
  = if bool_decide (installed w)
    then (if String.eqb name "__main__" then main w else (Ret tt, w))
    else (Raise ImportError, w).
Proof.
  unfold script. rewrite <- bind_assoc.
  case_bool_decide as Hm.
  - erewrite bind_Ret
      by (rewrite run_script_imports; by rewrite bool_decide_eq_true_2).
    by destruct (String.eqb name "__main__").
  - apply bind_Raise. rewrite run_script_imports.
    by rewrite bool_decide_eq_false_2.
Qed.

Lemma sizes_NoDup : NoDup sizes.
Proof. unfold sizes. apply (bool_decide_unpack _). by vm_compute. Qed.

(** When the icon of some size cannot be made there is a first one. *)
Lemma first_unmakeable l w :
  ~ Forall (makeable w) l ->
  exists l1 size l2,
    l = l1 ++ size :: l2 /\ Forall (makeable w) l1 /\ ~ makeable w size.
Proof.
  intros (l1 & s & l2 & -> & Hl1 & Hs)%not_Forall_Exists%Exists_first;
    [|apply _..].
  exists l1, s, l2. repeat split; [|done].
  eapply Forall_impl; [exact Hl1|]. intros x Hx. by apply dec_stable.
Qed.

(** [create_icon] returns exactly for the sizes whose icon can be made. *)
Lemma create_icon_makeable size w :
  makeable w size ->
  create_icon size (icon_filename size) w
  = (Ret tt, icon_world size (icon_filename size) w).
Proof. intros (Hs & Hm & Hw & bs & He). by eapply run_create_icon_encoded. Qed.

Lemma create_icon_Ret_makeable size w w' :
  create_icon size (icon_filename size) w = (Ret tt, w') -> makeable w size.
Proof.
  rewrite create_icon_cases. unfold makeable, measured, writable, encodes.
  destruct (Z.ltb_spec size 0); [done|].
  destruct (measurable _); [|done]. cbn [negb].
  case_bool_decide; [done|].
  destruct (png_encode _) as [bs|e]; [|done]. eauto.
Qed.

Lemma icon_size_makeable `{!PngLaws PC} size w :
  icon_size size -> measured size -> writable w size -> makeable w size.
Proof.
  intros Hs Hm Hw. split; [unfold icon_size in Hs; lia|].
  do 2 (split; [done|]). eexists. by apply icon_encoded.
Qed.

(** Whether an icon can be made does not depend on the icons made
    before. *)
Lemma makeable_icons_world l w size :
  makeable (icons_world l w) size <-> makeable w size.
Proof. unfold makeable, writable. by rewrite readonly_icons_world. Qed.

(** The loop runs to its end when every icon can be made, and ends with an
    exception at the first that cannot. *)
Lemma run_make_icons_makeable l w :
  Forall (makeable w) l -> make_icons l w = (Ret tt, icons_world l w).
Proof.
  revert w. induction l as [|s l IH]; intros w Hl; [done|].
  apply Forall_cons in Hl as [Hs Hl].
  unfold make_icons. rewrite for_each_cons.
  erewrite bind_Ret by (by apply create_icon_makeable). apply IH.
  eapply Forall_impl; [exact Hl|]. intros x Hx.
  by apply (makeable_icons_world [s]).
Qed.

Lemma run_make_icons_unmakeable l w :
  ~ Forall (makeable w) l -> exists e w', make_icons l w = (Raise e, w').
Proof.
  intros (l1 & s & l2 & -> & Hl1 & Hs)%first_unmakeable.
  destruct (create_icon s (icon_filename s) (icons_world l1 w))
    as [[[]|e] w'] eqn:Hc.
  - destruct Hs. eapply makeable_icons_world, create_icon_Ret_makeable, Hc.
  - exists e, w'. unfold make_icons.
    eapply for_each_stops; [by apply run_make_icons_makeable | exact Hc].
Qed.

Lemma make_icons_wf l : preserves wf_world (make_icons l).
Proof. unfold make_icons. auto using create_icon_wf with icon. Qed.

Lemma script_wf name : preserves wf_world (script name).
Proof.
  pose proof (make_icons_wf sizes) as Hmain.
  unfold script. destruct (String.eqb name "__main__"); auto 10 with icon.
Qed.

Lemma icon_size_prefix l1 size l2 :
  Forall icon_size (l1 ++ size :: l2) -> Forall icon_size (l1 ++ [size]).
Proof. rewrite !Forall_app, Forall_cons, Forall_singleton. tauto. Qed.

(** Making the icons again changes no file. *)
Lemma files_icons_world_again l w :
  files (icons_world l (icons_world l w)) = files (icons_world l w).
Proof.
  apply map_eq. intros name.
  destruct (decide (name ∈ icon_filename <$> l)) as [Hin|Hout].
  - apply list_elem_of_fmap in Hin as (s & -> & Hs).
    by rewrite !files_icons_world_in.
  - by rewrite files_icons_world_out.
Qed.

(** ** What [main] guarantees *)

(** C4: when the fonts can be measured and the four file names can be
    written, [main] returns; each of
    [icon16.png], [icon32.png], [icon48.png] and [icon128.png] holds the
    bytes of the icon of its size, which are a PNG of its raster with a
    header that gives an RGBA image of that size by that size; every other
    file is as it was, and the four confirmation lines were printed in the
    order of the sizes. *)
Theorem main_creates_icons `{!PngLaws PC} `{!FontLaws FS} w :
  Forall measured sizes -> Forall (writable w) sizes ->
  (main w).1 = Ret tt
  /\ (forall size, size ∈ sizes ->
        files (main w).2 !! icon_filename size = Some (icon_bytes size)
        /\ png_decode (icon_bytes size) = Some (icon_image size)
        /\ png_info (icon_bytes size) = Some (rgba8 size size))
  /\ (forall name,
        name ∉ ["icon16.png"; "icon32.png"; "icon48.png"; "icon128.png"] ->
        files (main w).2 !! name = files w !! name)
  /\ stdout (main w).2
     = (stdout w ++ ["Created icon16.png (16x16)";
                     "Created icon32.png (32x32)";
                     "Created icon48.png (48x48)";
                     "Created icon128.png (128x128)"])%list.
Proof.
  intros Hm Hw. rewrite main_make_icons, run_make_icons
    by (done || apply sizes_icon_size).
  cbn [fst snd]. split; [done|]. split; [|split].
  - intros size Hin. split; [by apply files_icons_world_in|].
    pose proof (proj1 (Forall_forall _ _) sizes_icon_size size Hin) as Hs.
    split; [by apply icon_bytes_decode | by apply icon_bytes_frame].
  - intros name Hname. by apply files_icons_world_out.
  - by rewrite stdout_icons_world.
Qed.

(** C5: the run ends at the first size whose file cannot be written.
    [main] raises [OSError]; the icons of the sizes before it are in place
    and their lines printed; the file of the failing size and the files of
    the sizes after it are as they were, and nothing more is printed. *)
Theorem main_stops_at_first_failure `{!PngLaws PC} w before size rest :
  sizes = before ++ size :: rest -> Forall measured (before ++ [size]) ->
  Forall (writable w) before -> ~ writable w size ->
  (main w).1 = Raise OSError
  /\ files (main w).2 = files (icons_world before w)
  /\ stdout (main w).2
     = (stdout w
        ++ ((fun s => created_line (icon_filename s) s) <$> before))%list
  /\ (forall s, s ∈ size :: rest ->
        files (main w).2 !! icon_filename s = files w !! icon_filename s).
Proof.
  intros Hsplit Hm Hw Hro. pose proof sizes_icon_size as Hpos.
  pose proof sizes_NoDup as Hnd. rewrite main_make_icons.
  rewrite Hsplit in *.
  rewrite run_make_icons_fail; [| by eapply icon_size_prefix |done..].
  cbn [fst snd drawn_world set_heap files stdout].
  repeat split; [apply stdout_icons_world|].
  intros s Hs. apply files_icons_world_out.
  intros (s' & ->%(inj icon_filename) & Hs')%list_elem_of_fmap.
  apply NoDup_app in Hnd as (_ & Hdisj & _). by eapply Hdisj.
Qed.

(** C13: the four file names are [icon16.png], [icon32.png], [icon48.png]
    and [icon128.png]; different sizes always give different names, so no
    icon overwrites another. *)
Theorem icon_filenames :
  icon_filename <$> sizes
  = ["icon16.png"; "icon32.png"; "icon48.png"; "icon128.png"]
  /\ (forall a b, icon_filename a = icon_filename b -> a = b)
  /\ NoDup (icon_filename <$> sizes).
Proof.
  split; [done|]. split; [apply icon_filename_inj|].
  apply (NoDup_fmap_2 _), sizes_NoDup.
Qed.

(** C16: the order of the sizes does not matter to the files: making the
    icons of any rearrangement [l] of the four sizes succeeds and leaves the
    file system exactly as [main] leaves it.  Only the order of the printed
    lines follows [l]. *)
Theorem icons_order_irrelevant `{!PngLaws PC} l w :
  l ≡ₚ sizes -> Forall measured sizes -> Forall (writable w) sizes ->
  (make_icons l w).1 = Ret tt
  /\ files (make_icons l w).2 = files (main w).2
  /\ stdout (make_icons l w).2
     = (stdout w ++ ((fun s => created_line (icon_filename s) s) <$> l))%list.
Proof.
  intros Hp Hm Hw. rewrite main_make_icons.
  rewrite (run_make_icons sizes) by (done || apply sizes_icon_size).
  rewrite (run_make_icons l)
    by (rewrite Hp; done || apply sizes_icon_size).
  cbn [fst snd]. split; [done|].
  split; [by apply files_icons_world_perm | apply stdout_icons_world].
Qed.

(** C19: run as a script, the process exits with status 0 exactly when the
    modules it imports are installed, the library measures the font of
    each of the four sizes and the four file names can be written, and
    with status 1 otherwise. *)
Theorem script_exit_status `{!PngLaws PC} w :
  exit_status (script "__main__" w).1
  = (if bool_decide (installed w /\ Forall measured sizes
                     /\ Forall (writable w) sizes)
     then 0 else 1).
Proof.
  rewrite run_script. destruct (decide (installed w)) as [Hi|Hi].
  2:{ rewrite (bool_decide_eq_false_2 (installed w)) by done.
      rewrite bool_decide_eq_false_2 by tauto. done. }
  rewrite (bool_decide_eq_true_2 (installed w)) by done.
  change (if String.eqb "__main__" "__main__" then main w else (Ret tt, w))
    with (make_icons sizes w).
  destruct (decide (Forall (makeable w) sizes)) as [Hw|Hw].
  - rewrite bool_decide_eq_true_2, run_make_icons_makeable; [done..|].
    split; [done|]. split; (eapply Forall_impl; [exact Hw|]);
      by intros s (_ & ? & ? & _).
  - destruct (run_make_icons_unmakeable _ _ Hw) as (e & w' & ->).
    rewrite bool_decide_eq_false_2; [done|]. intros (_ & Hm & Hwr).
    apply Hw, Forall_forall. intros s Hs. apply icon_size_makeable.
    + by apply (proj1 (Forall_forall _ _) sizes_icon_size).
    + by apply (proj1 (Forall_forall _ _) Hm).
    + by apply (proj1 (Forall_forall _ _) Hwr).
Qed.

(** C24: running the script a second time succeeds again and leaves the
    file system exactly as the first run left it; the four lines are
    printed once more. *)
Theorem main_idempotent `{!PngLaws PC} w :
  Forall measured sizes -> Forall (writable w) sizes ->
  let w1 := (main w).2 in
  (main w1).1 = Ret tt
  /\ files (main w1).2 = files w1
  /\ stdout (main w1).2
     = stdout w1 ++ ["Created icon16.png (16x16)";
                     "Created icon32.png (32x32)";
                     "Created icon48.png (48x48)";
                     "Created icon128.png (128x128)"].
Proof.
  intros Hm Hw w1. subst w1. rewrite (main_make_icons w).
  rewrite (run_make_icons sizes w) by (done || apply sizes_icon_size).
  cbn [snd]. rewrite main_make_icons, run_make_icons;
    [| apply sizes_icon_size | done |].
  - cbn [fst snd]. split; [done|].
    split; [apply files_icons_world_again | by rewrite stdout_icons_world].
  - unfold writable in *. by rewrite readonly_icons_world.
Qed.

(** C31: when a module the script imports is not installed, running the
    file raises [ImportError] before anything else happens: no image is
    built, no file is written and nothing is printed, whatever the name the
    file is run under. *)
Theorem script_import_error name w :
  ~ installed w -> script name w = (Raise ImportError, w).
Proof.
  intros Hi. rewrite run_script. by rewrite bool_decide_eq_false_2.
Qed.

(** Loaded under any other name than [__main__] (imported as a module),
    the file makes no icon: it returns and leaves the world as it was. *)
Lemma script_imported_is_silent name w :
  installed w -> name <> "__main__" -> script name w = (Ret tt, w).
Proof.
  intros Hi Hname%String.eqb_neq. rewrite run_script.
  by rewrite bool_decide_eq_true_2, Hname.
Qed.

End Main.

(** ** The guarantees at concrete inputs *)

(** An interpreter without the imaging library. *)
Definition bare_world : World :=
  {| heap := []; files := ∅; readonly := ∅; modules := {["os"]};
     stdout := [] |}.

Section Examples.
#[local] Existing Instance stored_codec.

(** The toy machines measure the fonts they choose. *)
Lemma sizes_measured_mac : Forall (measured (FS:=toy_mac)) sizes.
Proof. by repeat constructor. Qed.

Lemma sizes_measured_linux : Forall (measured (FS:=toy_linux)) sizes.
Proof. by repeat constructor. Qed.

(** On a machine without Arial whose library does not measure the
    built-in font the run ends at the first icon, with nothing made. *)
Lemma main_old_library :
  main (FS:=toy_linux_old) empty_world
  = (Raise ValueError, blank_world 16 empty_world).
Proof.
  rewrite main_make_icons. unfold make_icons, sizes. rewrite for_each_cons.
  apply bind_Raise, run_create_icon_unmeasured; [lia | discriminate].
Qed.

Lemma main_creates_icons_witness :
  (main (FS:=toy_mac) empty_world).1 = Ret tt
  /\ (forall size, size ∈ sizes ->
        files (main (FS:=toy_mac) empty_world).2 !! icon_filename size
        = Some (icon_bytes (FS:=toy_mac) size)
        /\ png_decode (icon_bytes (FS:=toy_mac) size)
           = Some (icon_image (FS:=toy_mac) size)
        /\ png_info (icon_bytes (FS:=toy_mac) size) = Some (rgba8 size size))
  /\ (forall name,
        name ∉ ["icon16.png"; "icon32.png"; "icon48.png"; "icon128.png"] ->
        files (main (FS:=toy_mac) empty_world).2 !! name
        = files empty_world !! name)
  /\ stdout (main (FS:=toy_mac) empty_world).2
     = (stdout empty_world ++ ["Created icon16.png (16x16)";
                               "Created icon32.png (32x32)";
                               "Created icon48.png (48x48)";
                               "Created icon128.png (128x128)"])%list.
Proof.
  apply (main_creates_icons (FS:=toy_mac) empty_world);
    [apply sizes_measured_mac | repeat constructor; apply not_elem_of_empty].
Defined.

Lemma main_stops_at_first_failure_witness :
  (main (FS:=toy_mac) locked_world).1 = Raise OSError
  /\ files (main (FS:=toy_mac) locked_world).2
     = files (icons_world (FS:=toy_mac) [16] locked_world)
  /\ stdout (main (FS:=toy_mac) locked_world).2
     = (stdout locked_world
        ++ ((fun s => created_line (icon_filename s) s) <$> [16]))%list
  /\ (forall s, s ∈ [32; 48; 128] ->
        files (main (FS:=toy_mac) locked_world).2 !! icon_filename s
        = files locked_world !! icon_filename s).
Proof.
  apply (main_stops_at_first_failure (FS:=toy_mac) locked_world
           [16] 32 [48; 128]).
  - reflexivity.
  - by repeat constructor.
  - repeat constructor. unfold writable. cbn [locked_world readonly].
    set_solver.
  - unfold writable. cbn [locked_world readonly]. set_solver.
Defined.

Lemma icons_order_irrelevant_witness :
  (make_icons (FS:=toy_linux) [128; 48; 32; 16] empty_world).1 = Ret tt
  /\ files (make_icons (FS:=toy_linux) [128; 48; 32; 16] empty_world).2
     = files (main (FS:=toy_linux) empty_world).2
  /\ stdout (make_icons (FS:=toy_linux) [128; 48; 32; 16] empty_world).2
     = (stdout empty_world
        ++ ((fun s => created_line (icon_filename s) s)
              <$> [128; 48; 32; 16]))%list.
Proof.
  apply (icons_order_irrelevant (FS:=toy_linux) [128; 48; 32; 16]
           empty_world).
  - symmetry. apply (Permutation_rev sizes).
  - apply sizes_measured_linux.
  - repeat constructor; apply not_elem_of_empty.
Defined.

Lemma main_idempotent_witness :
  let w1 := (main (FS:=toy_linux) empty_world).2 in
  (main (FS:=toy_linux) w1).1 = Ret tt
  /\ files (main (FS:=toy_linux) w1).2 = files w1
  /\ stdout (main (FS:=toy_linux) w1).2
     = stdout w1 ++ ["Created icon16.png (16x16)";
                     "Created icon32.png (32x32)";
                     "Created icon48.png (48x48)";
                     "Created icon128.png (128x128)"].
Proof.
  apply (main_idempotent (FS:=toy_linux) empty_world);
    [apply sizes_measured_linux | repeat constructor; apply not_elem_of_empty].
Defined.

Lemma script_exit_status_witness :
  exit_status (script (FS:=toy_mac) "__main__" locked_world).1
  = (if bool_decide (installed locked_world
                     /\ Forall (measured (FS:=toy_mac)) sizes
                     /\ Forall (writable locked_world) sizes)
     then 0 else 1).
Proof. apply (script_exit_status (FS:=toy_mac) locked_world). Defined.

Lemma script_import_error_witness :
  script (FS:=toy_mac) "__main__" bare_world = (Raise ImportError, bare_world).
Proof.
  apply (script_import_error (FS:=toy_mac) "__main__" bare_world).
  intros (Hpil & _)%installed_spec. cbn [bare_world modules] in Hpil.
  by apply elem_of_singleton in Hpil.
Defined.

Lemma script_imported_is_silent_witness :
  script (FS:=toy_mac) "create_icons" empty_world = (Ret tt, empty_world).
Proof.
  apply (script_imported_is_silent (FS:=toy_mac) "create_icons" empty_world);
    [by unfold installed | discriminate].
Defined.

End Examples.
