(* ===== verification/Contract.v ===== *)
(** * The contract of the script, and the script as its refinement

    [Abs] states what the script promises to its user, without rasters,
    fonts, bytes or a heap: rendering an icon of a size at a path either
    fails or puts a PNG of that size at the path and logs one line; the
    driver does so for the four sizes in order.  [abs] forgets from a world
    everything the contract does not speak of: of a file it keeps whether a
    PNG reader accepts it and the dimensions it finds.  The refinement
    theorems show that [create_icon] and [main], run in a world, do what
    the contract does in the world's abstraction, error cases included, for
    every size the contract covers (not zero and below 2^31) whose font
    the library measures: the contract knows of no failure between the
    allocation of the raster and the write.

    The heap is not observable from outside the process: [obs_equiv]
    relates worlds with the same files, write permissions, modules and
    output, and the script's computations respect it. *)

From Stdlib Require Import ZArith Lia String.
From stdpp Require Import base tactics option list strings gmap.
From S2P Require Import Prelude PyInt Raster ByteSeq Png PngWrite Fonts World.
From S2P Require Import CreateIcon Main.

Local Open Scope string_scope.
Local Open Scope list_scope.
Local Open Scope Z_scope.

(** ** The contract *)

Module Abs.

(** What is at a path: a format name and the pixel dimensions. *)
Record state : Type := mkState {
  files : gmap string (string * (Z * Z));
  locked : gset string;
  log : list string;
}.

(** [render(size, outputPath)]. *)
Definition render (size : Z) (outputPath : string) : M state exn unit :=
  fun s =>
    if size <? 0 then (Raise ValueError, s)
    else if bool_decide (outputPath ∈ locked s) then (Raise OSError, s)
    else (Ret tt,
          {| files := <[outputPath := ("PNG", (size, size))]> (files s);
             locked := locked s;
             log := log s ++ ["Created " +:+ outputPath +:+ " ("
                              +:+ str_int size +:+ "x" +:+ str_int size
                              +:+ ")"] |}).

(** The driver: the four sizes, in order, each at [icon<size>.png]. *)
Definition driver : M state exn unit :=
  for_each [16; 32; 48; 128]
    (fun size => render size ("icon" +:+ str_int size +:+ ".png")).

End Abs.

(** ** Abstraction *)

(** What a PNG reader makes of a file: nothing, or a format and the
    dimensions. *)
Definition describe (bs : Bytes) : option (string * (Z * Z)) :=
  (fun img => ("PNG", im_size img)) <$> png_decode bs.

Definition abs (w : World) : Abs.state :=
  {| Abs.files := omap describe (files w);
     Abs.locked := readonly w;
     Abs.log := stdout w |}.

(** The sizes the contract covers. *)
Definition covered (size : Z) : Prop := size <> 0 /\ size < 2 ^ 31.

(** ** Worlds that look the same from outside *)

Definition obs_equiv (w1 w2 : World) : Prop :=
  files w1 = files w2 /\ readonly w1 = readonly w2
  /\ modules w1 = modules w2 /\ stdout w1 = stdout w2.

Definition same_result {A} (r1 r2 : outcome exn A * World) : Prop :=
  r1.1 = r2.1 /\ obs_equiv r1.2 r2.2.

(** A world with the same files, permissions and output as [empty_world]
    and some garbage on its heap. *)
Definition used_world : World :=
  {| heap := [mkImage "RGBA" (1, 1) [(0, 0, 0, 255)]];
     files := ∅; readonly := ∅; modules := script_modules; stdout := [] |}.

#[export] Instance obs_equiv_equivalence : Equivalence obs_equiv.
Proof.
  split.
  - by intros w.
  - intros w1 w2 (?&?&?&?). by repeat split.
  - intros w1 w2 w3 (?&?&?&?) (?&?&?&?). repeat split; congruence.
Qed.

#[export] Instance same_result_equivalence {A} :
  Equivalence (@same_result A).
Proof.
  split.
  - by intros r.
  - intros r1 r2 [? ?]. by split.
  - intros r1 r2 r3 [? ?] [? ?]. split; [congruence | by etrans].
Qed.

#[export] Instance files_proper : Proper (obs_equiv ==> (=)) files.
Proof. by intros w1 w2 (?&?&?&?). Qed.

#[export] Instance readonly_proper : Proper (obs_equiv ==> (=)) readonly.
Proof. by intros w1 w2 (?&?&?&?). Qed.

#[export] Instance modules_proper : Proper (obs_equiv ==> (=)) modules.
Proof. by intros w1 w2 (?&?&?&?). Qed.

#[export] Instance stdout_proper : Proper (obs_equiv ==> (=)) stdout.
Proof. by intros w1 w2 (?&?&?&?). Qed.

#[export] Instance abs_proper : Proper (obs_equiv ==> (=)) abs.
Proof. intros w1 w2 (Hf&Hr&_&Ho). unfold abs. by rewrite Hf, Hr, Ho. Qed.

Section Refinement.
Context `{FS : FontSystem} `{PC : PngCodec}.
Implicit Types (size : Z) (filename : string) (w : World) (l : list Z).

(** ** [create_icon] and [main] refine the contract *)

Lemma abs_icon_world `{!PngLaws PC} `{!FontLaws FS} size filename w :
  0 < size < 2 ^ 31 ->
  abs (icon_world size filename w)
  = {| Abs.files := <[filename := ("PNG", (size, size))]> (Abs.files (abs w));
       Abs.locked := Abs.locked (abs w);
       Abs.log := Abs.log (abs w) ++ [created_line filename size] |}.
Proof.
  intros Hs. unfold abs, icon_world. simpl. f_equal.
  apply omap_insert_Some. unfold describe.
  by rewrite icon_bytes_decode.
Qed.

Lemma create_icon_simulates `{!PngLaws PC} `{!FontLaws FS} size filename :
  covered size -> measured size ->
  simulates (fun w a => abs w = a)
    (create_icon size filename) (Abs.render size filename).
Proof.
  intros [Hs0 Hs] Hm w a <-. unfold Abs.render.
  destruct (Z.ltb_spec size 0); [by rewrite run_create_icon_negative|].
  cbn [abs Abs.locked]. case_bool_decide.
  - by rewrite run_create_icon_readonly by (done || lia).
  - rewrite run_create_icon by (done || lia). split; [done|].
    apply abs_icon_world. lia.
Qed.

Lemma make_icons_simulates `{!PngLaws PC} `{!FontLaws FS} l :
  Forall covered l -> Forall measured l ->
  simulates (fun w a => abs w = a) (make_icons l)
    (for_each l (fun size => Abs.render size (icon_filename size))).
Proof.
  intros Hl Hm. apply simulates_for_each. intros size Hin.
  apply create_icon_simulates; by eapply Forall_forall.
Qed.

Lemma sizes_covered : Forall covered sizes.
Proof.
  eapply Forall_impl; [apply sizes_icon_size|].
  unfold icon_size, covered. intros; lia.
Qed.

(** ** The script does not look at the heap *)

Lemma create_icon_obs size filename :
  simulates obs_equiv (create_icon size filename) (create_icon size filename).
Proof.
  intros w1 w2 (Hf & Hr & Hm & Ho). rewrite !create_icon_cases, <- Hr.
  repeat case_match; (split; [done|]);
    unfold obs_equiv, icon_world, drawn_world, blank_world; simpl;
    by rewrite ?Hf, ?Hr, ?Hm, ?Ho.
Qed.

#[export] Instance create_icon_proper size filename :
  Proper (obs_equiv ==> same_result) (create_icon size filename).
Proof. intros w1 w2 Hw. by apply create_icon_obs. Qed.

#[export] Instance make_icons_proper l :
  Proper (obs_equiv ==> same_result) (make_icons l).
Proof.
  intros w1 w2 Hw. revert w1 w2 Hw.
  apply (simulates_for_each obs_equiv). intros size _.
  apply create_icon_obs.
Qed.

(** ** What the refinement guarantees *)

(** C21: [create_icon] refines [render]: run in any world with a file name,
    a size the contract covers and a font the library measures, it ends
    with the outcome the contract gives in the world's abstraction
    (returning, [OSError] or [ValueError]), and the abstraction of the
    world it leaves is the state the contract leaves. *)
Theorem create_icon_refines_render `{!PngLaws PC} `{!FontLaws FS}
    size filename w :
  covered size -> measured size ->
  (create_icon size filename w).1 = (Abs.render size filename (abs w)).1
  /\ abs (create_icon size filename w).2
     = (Abs.render size filename (abs w)).2.
Proof. intros Hs Hm. by apply create_icon_simulates. Qed.

(** C22: where the library measures the fonts of the four sizes, [main]
    refines the contract's driver, in every world: same outcome, and the
    same files (by format and dimensions), permissions and printed lines
    afterwards. *)
Theorem main_refines_driver `{!PngLaws PC} `{!FontLaws FS} w :
  Forall measured sizes ->
  (main w).1 = (Abs.driver (abs w)).1
  /\ abs (main w).2 = (Abs.driver (abs w)).2.
Proof. intros Hm. by apply (make_icons_simulates sizes sizes_covered Hm). Qed.

(** C23: two worlds with the same files, write permissions, modules and
    output give the same outcome of [main] and again the same files,
    permissions and output, whatever their heaps hold. *)
Theorem main_heap_independent w1 w2 :
  obs_equiv w1 w2 -> same_result (main w1) (main w2).
Proof. intros Hw. rewrite !main_make_icons. by rewrite Hw. Qed.

End Refinement.

(** ** The guarantees at concrete inputs *)

Section Examples.
#[local] Existing Instance stored_codec.

Lemma create_icon_refines_render_witness :
  (create_icon (FS:=toy_mac) 48 "icon48.png" locked_world).1
  = (Abs.render 48 "icon48.png" (abs locked_world)).1
  /\ abs (create_icon (FS:=toy_mac) 48 "icon48.png" locked_world).2
     = (Abs.render 48 "icon48.png" (abs locked_world)).2.
Proof.
  apply (create_icon_refines_render (FS:=toy_mac) 48 "icon48.png"
           locked_world); [unfold covered; lia | reflexivity].
Defined.

Lemma main_refines_driver_witness :
  (main (FS:=toy_linux) locked_world).1
  = (Abs.driver (abs locked_world)).1
  /\ abs (main (FS:=toy_linux) locked_world).2
     = (Abs.driver (abs locked_world)).2.
Proof.
  apply (main_refines_driver (FS:=toy_linux) locked_world).
  apply sizes_measured_linux.
Defined.

Lemma main_heap_independent_witness :
  same_result (main (FS:=toy_mac) used_world) (main (FS:=toy_mac) empty_world).
Proof.
  apply (main_heap_independent (FS:=toy_mac) used_world empty_world).
  by repeat split.
Defined.

End Examples.
