(* ===== verification/Steps.v ===== *)
(** * The driver as a transition system

    The [for] loop of [main], one iteration at a time.  A configuration is
    either the loop with the sizes it still has to go through, or the
    process after its exit, with its status.  One step runs one call of
    [create_icon]: when the call returns the loop goes on with the next
    size, when it raises the exception leaves [main] and the process exits
    with status 1; when no size is left the process exits with status 0.
    [step] is the relation, [next] the same as a function, [run] iterates
    it.

    The file shows that the steps end after at most one more than the
    number of sizes, that they end where [main] run at once ends, and, by
    induction on the steps, what holds at every point of a run. *)

From Stdlib Require Import ZArith Lia String.
From stdpp Require Import base tactics option list strings gmap relations.
From S2P Require Import Prelude PyInt Raster ByteSeq Png PngWrite Fonts World.
From S2P Require Import CreateIcon Main.
From S2P Require Import Contract.

Local Open Scope string_scope.
Local Open Scope list_scope.
Local Open Scope Z_scope.

(** ** Configurations *)

Inductive config : Type :=
| Running (todo : list Z) (w : World)
| Exited (status : Z) (w : World).

Definition cfg_world (c : config) : World :=
  match c with
  | Running _ w | Exited _ w => w
  end.

(** The steps a configuration has left at most. *)
Definition steps_left (c : config) : nat :=
  match c with
  | Running todo _ => S (length todo)
  | Exited _ _ => 0
  end.

Section Steps.
Context `{FS : FontSystem} `{PC : PngCodec}.

(** ** One iteration *)

Inductive step : config -> config -> Prop :=
| step_next size rest w w' :
    create_icon size (icon_filename size) w = (Ret tt, w') ->
    step (Running (size :: rest) w) (Running rest w')
| step_raise size rest e w w' :
    create_icon size (icon_filename size) w = (Raise e, w') ->
    step (Running (size :: rest) w) (Exited 1 w')
| step_end w :
    step (Running [] w) (Exited 0 w).

Definition next (c : config) : option config :=
  match c with
  | Running [] w => Some (Exited 0 w)
  | Running (size :: rest) w =>
      match create_icon size (icon_filename size) w with
      | (Ret _, w') => Some (Running rest w')
      | (Raise _, w') => Some (Exited 1 w')
      end
  | Exited _ _ => None
  end.

Fixpoint run (fuel : nat) (c : config) : config :=
  match fuel with
  | O => c
  | S fuel => match next c with
              | Some c' => run fuel c'
              | None => c
              end
  end.

(** The process at its start: the loop before its first iteration. *)
Definition start (w : World) : config := Running [16; 32; 48; 128] w.

(** ** What holds along a run

    Of a run over the sizes [l] started in [w0]: while the loop runs, the
    world is exactly the one in which the icons of the sizes gone through
    were made; after exit with status 0 all of them were made; after exit
    with status 1 the icons of the sizes before some size were made, as far
    as files, permissions and output tell, and the icon of that size could
    not be made: the size is negative, the library does not measure its
    font, its file could not be written or the encoder refused its
    raster.  In the last case the file of that size is what the failed
    save left; every other file is as the icons made before left it. *)
Definition inv (l : list Z) (w0 : World) (c : config) : Prop :=
  match c with
  | Running todo w =>
      exists made, l = made ++ todo /\ w = icons_world made w0
  | Exited status w =>
      (status = 0 /\ w = icons_world l w0)
      \/ (status = 1 /\ exists made size rest,
            l = made ++ size :: rest
            /\ obs_equiv w (failed_world size (icon_filename size)
                              (icons_world made w0))
            /\ ~ makeable w0 size)
  end.

Implicit Types (c : config) (l todo : list Z) (w : World) (size : Z).

(** ** [create_icon], from its outcome *)

Lemma create_icon_Ret_inv size w w' :
  create_icon size (icon_filename size) w = (Ret tt, w') ->
  makeable w size /\ w' = icon_world size (icon_filename size) w.
Proof.
  intros H. pose proof (create_icon_Ret_makeable _ _ _ H) as Hm.
  rewrite create_icon_makeable in H by done. by injection H as <-.
Qed.

Lemma create_icon_Raise_inv size e w w' :
  create_icon size (icon_filename size) w = (Raise e, w') ->
  obs_equiv w' (failed_world size (icon_filename size) w)
  /\ ~ makeable w size.
Proof.
  intros H. split.
  - rewrite create_icon_cases in H. unfold failed_world.
    repeat case_match; simplify_eq; by repeat split.
  - intros Hm. by rewrite create_icon_makeable in H.
Qed.

(** ** The relation and the function *)

Lemma step_iff_next c c' : step c c' <-> next c = Some c'.
Proof.
  split.
  - destruct 1 as [???? H|????? H|]; simpl; by rewrite ?H.
  - destruct c as [[|size rest] w|]; simpl; [| |done].
    + intros [= <-]. constructor.
    + destruct (create_icon _ _ _) as [[[]|e] w'] eqn:H; intros [= <-];
        econstructor; exact H.
Qed.

Lemma step_deterministic c c1 c2 : step c c1 -> step c c2 -> c1 = c2.
Proof. rewrite !step_iff_next. congruence. Qed.

Lemma step_steps_left c c' :
  step c c' -> (steps_left c' < steps_left c)%nat.
Proof. destruct 1; simpl; lia. Qed.

Lemma exited_nf status w : nf step (Exited status w).
Proof. intros [c' H]. inversion H. Qed.

Lemma running_steps todo w : exists c', step (Running todo w) c'.
Proof.
  destruct (next (Running todo w)) as [c'|] eqn:H.
  - exists c'. by apply step_iff_next.
  - destruct todo; simpl in H; [done|]. by repeat case_match.
Qed.

Lemma nf_exited c : nf step c -> exists status w, c = Exited status w.
Proof.
  destruct c as [todo w|status w]; [|by eauto].
  intros []. apply running_steps.
Qed.

Lemma nsteps_steps_left n c c' :
  nsteps step n c c' -> (n + steps_left c' <= steps_left c)%nat.
Proof.
  induction 1 as [|n c1 c2 c3 H%step_steps_left _ IH]; lia.
Qed.

(** Runs that end, end in the same configuration. *)
Lemma rtc_step_nf_unique c c1 c2 :
  rtc step c c1 -> rtc step c c2 -> nf step c1 -> nf step c2 -> c1 = c2.
Proof.
  intros H1. revert c2.
  induction H1 as [c|c c' c1 Hs _ IH]; intros c2 H2 Hn1 Hn2.
  - by eapply rtc_nf.
  - apply rtc_inv in H2 as [<-|(c'' & Hs' & H2)].
    + destruct Hn2. by exists c'.
    + rewrite (step_deterministic _ _ _ Hs Hs') in IH. by apply IH.
Qed.

Lemma rtc_run fuel c : rtc step c (run fuel c).
Proof.
  revert c. induction fuel as [|fuel IH]; intros c; simpl; [done|].
  destruct (next c) as [c'|] eqn:H; [|done].
  apply step_iff_next in H. by eapply rtc_l.
Qed.

(** ** The steps and the loop *)

Lemma run_exited fuel status w : run fuel (Exited status w) = Exited status w.
Proof. by destruct fuel. Qed.

Lemma run_cons fuel size rest w :
  run (S fuel) (Running (size :: rest) w)
  = match create_icon size (icon_filename size) w with
    | (Ret _, w') => run fuel (Running rest w')
    | (Raise _, w') => Exited 1 w'
    end.
Proof.
  simpl. destruct (create_icon _ _ _) as [[[]|e] w']; [done|].
  apply run_exited.
Qed.

Lemma run_make_icons_steps l w :
  run (S (length l)) (Running l w)
  = Exited (exit_status (make_icons l w).1) (make_icons l w).2.
Proof.
  revert w. induction l as [|size l IH]; intros w; [done|].
  unfold make_icons. rewrite for_each_cons. cbn [length]. rewrite run_cons.
  destruct (create_icon size (icon_filename size) w) as [[[]|e] w'] eqn:H.
  - rewrite (bind_Ret _ _ _ _ _ H). apply IH.
  - by rewrite (bind_Raise _ _ _ _ _ H).
Qed.

Lemma inv_start l w0 : inv l w0 (Running l w0).
Proof. by exists []. Qed.

Lemma inv_step l w0 c c' : inv l w0 c -> step c c' -> inv l w0 c'.
Proof.
  intros Hinv Hs.
  destruct Hs as [size rest w w' H|size rest e w w' H|w];
    destruct Hinv as (made & -> & ->).
  - apply create_icon_Ret_inv in H as (_ & ->).
    exists (made ++ [size]). by rewrite <- app_assoc, icons_world_snoc.
  - apply create_icon_Raise_inv in H as [Hobs Hwhy].
    right. split; [done|]. exists made, size, rest.
    split; [done|]. split; [done|]. by rewrite <- makeable_icons_world.
  - left. by rewrite app_nil_r.
Qed.

(** The invariant holds of every configuration a run reaches. *)
Lemma reachable_states l w0 c : rtc step (Running l w0) c -> inv l w0 c.
Proof.
  revert c. apply rtc_ind_r; [apply inv_start|].
  intros c c' _ Hs Hinv. by eapply inv_step.
Qed.

(** What a world that looks like [icons_world made w0] has kept of [w0]. *)
Lemma icons_world_frame made l w0 w :
  made ⊆ l -> obs_equiv w (icons_world made w0) ->
  readonly w = readonly w0
  /\ (forall name, name ∉ icon_filename <$> l ->
        files w !! name = files w0 !! name)
  /\ stdout w0 `prefix_of` stdout w.
Proof.
  intros Hsub (Hf & Hr & _ & Ho). rewrite Hf, Hr, Ho.
  split; [apply readonly_icons_world|]. split.
  - intros name Hname. apply files_icons_world_out.
    intros (s & -> & Hs)%list_elem_of_fmap. apply Hname.
    apply list_elem_of_fmap. eauto.
  - rewrite stdout_icons_world. by eexists.
Qed.

(** The same of a world that looks like the one a failed call left. *)
Lemma failed_world_icons_frame made size l w0 w :
  made ⊆ l -> size ∈ l ->
  obs_equiv w (failed_world size (icon_filename size) (icons_world made w0)) ->
  readonly w = readonly w0
  /\ (forall name, name ∉ icon_filename <$> l ->
        files w !! name = files w0 !! name)
  /\ stdout w0 `prefix_of` stdout w.
Proof.
  intros Hsub Hin (Hf & Hr & _ & Ho).
  destruct (failed_world_frame size (icon_filename size)
              (icons_world made w0)) as (Hr' & _ & Ho' & Hf').
  destruct (icons_world_frame made l w0 (icons_world made w0) Hsub)
    as (Hr0 & Hf0 & Ho0); [done|].
  rewrite Hf, Hr, Ho, Hr', Ho'. split; [done|]. split; [|done].
  intros name Hname. rewrite Hf'; [by apply Hf0|].
  intros ->. apply Hname, list_elem_of_fmap. eauto.
Qed.

Lemma inv_frame l w0 c :
  inv l w0 c ->
  readonly (cfg_world c) = readonly w0
  /\ (forall name, name ∉ icon_filename <$> l ->
        files (cfg_world c) !! name = files w0 !! name)
  /\ stdout w0 `prefix_of` stdout (cfg_world c).
Proof.
  destruct c as [todo w|status w]; simpl.
  - intros (made & -> & ->). apply (icons_world_frame made); set_solver.
  - intros [[_ ->]|(_ & made & size & rest & -> & Hobs & _)].
    + by apply (icons_world_frame l).
    + apply (failed_world_icons_frame made size); set_solver.
Qed.

(** A step keeps the image objects well formed. *)
Lemma step_wf c c' :
  step c c' -> wf_world (cfg_world c) -> wf_world (cfg_world c').
Proof.
  destruct 1 as [s rest w w' H|s rest e w w' H|w]; simpl; [| |done];
    intros Hw%(create_icon_wf s (icon_filename s)); by rewrite H in Hw.
Qed.

(** ** What the steps guarantee *)


(** C26: at every point of a run over the sizes [l] started in [w0]: while
    the loop runs, the world is the one in which the icons of the sizes
    gone through were made, in their order; after exit with status 0 all
    were made; after exit with status 1 those before the failing size were
    made, the icon of that size could not be made (negative size, a font
    the library does not measure, unwritable file or a raster the encoder
    refuses), and no file but that of the failing size differs from what
    the icons made before left. *)
Theorem reachable_inv l w0 c :
  rtc step (Running l w0) c -> inv l w0 c.
Proof. apply reachable_states. Qed.


(** C28: at every point of a run, also between two iterations and after a
    failure, the write permissions are those of the start, every file that
    is not one of the icons' is as it was at the start, and what was on the
    output at the start is still there, in front of what was printed. *)
Theorem reachable_frame l w0 c :
  rtc step (Running l w0) c ->
  readonly (cfg_world c) = readonly w0
  /\ (forall name, name ∉ icon_filename <$> l ->
        files (cfg_world c) !! name = files w0 !! name)
  /\ stdout w0 `prefix_of` stdout (cfg_world c).
Proof.
  by intros ?%reachable_states%inv_frame.
Qed.


End Steps.

(** ** The guarantees at concrete inputs *)

Section Examples.
#[local] Existing Instance stored_codec.

Lemma reachable_inv_witness :
  inv (FS:=toy_mac) [16; 32] empty_world
    (Running [32] (icon_world (FS:=toy_mac) 16 "icon16.png" empty_world)).
Proof.
  apply (reachable_inv (FS:=toy_mac) [16; 32] empty_world).
  apply rtc_once, step_next.
  apply run_create_icon; [lia | reflexivity | apply not_elem_of_empty].
Defined.



Lemma reachable_frame_witness :
  let w := icon_world (FS:=toy_mac) 16 "icon16.png" locked_world in
  readonly w = readonly locked_world
  /\ (forall name, name ∉ icon_filename <$> [16; 32] ->
        files w !! name = files locked_world !! name)
  /\ stdout locked_world `prefix_of` stdout w.
Proof.
  apply (reachable_frame (FS:=toy_mac) [16; 32] locked_world
           (Running [32] (icon_world (FS:=toy_mac) 16 "icon16.png"
                            locked_world))).
  apply rtc_once, step_next.
  apply run_create_icon; [lia | reflexivity |].
  cbn [locked_world readonly]. set_solver.
Defined.

End Examples.
