(* ===== verification/Liveness.v ===== *)
(** * What a run of the driver is bound to reach

    Safety says what never goes wrong along a run; this file says what a
    run cannot avoid.  [eventually R P a] holds when every sequence of
    [R]-steps from [a] comes to a state with [P], and cannot get stuck
    before: it is the least predicate that holds where [P] holds and where
    a step exists and every step leads to it.

    For the steps of [main]: every run exits; when the icon of every size
    still to go can be made, every run comes to the point where the icon
    of a given size is in its file, and from there on the file keeps it;
    so every run ends with status 0 and all the icons in place. *)

From Stdlib Require Import ZArith Lia String.
From stdpp Require Import base tactics option list strings gmap relations.
From S2P Require Import Prelude PyInt Raster ByteSeq Png PngWrite Fonts World.
From S2P Require Import CreateIcon Main.
From S2P Require Import Contract Steps.

Local Open Scope string_scope.
Local Open Scope list_scope.
Local Open Scope Z_scope.

(** ** Inevitability *)

Inductive eventually {A} (R : relation A) (P : A -> Prop) : A -> Prop :=
| eventually_now a :
    P a -> eventually R P a
| eventually_later a :
    (exists b, R a b) -> (forall b, R a b -> eventually R P b) ->
    eventually R P a.

(** [P], once it holds, holds in every state that can be reached. *)
Definition stable {A} (R : relation A) (P : A -> Prop) : Prop :=
  forall a b, R a b -> P a -> P b.

(** ** The states of the driver a run is to reach *)

Definition exited (c : config) : Prop :=
  match c with
  | Running _ _ => False
  | Exited _ _ => True
  end.

Section Liveness.
Context `{FS : FontSystem} `{PC : PngCodec}.

(** The icon of [size] is in its file: the encoder takes its raster, and
    the file holds the bytes. *)
Definition written (size : Z) (c : config) : Prop :=
  encodes size
  /\ files (cfg_world c) !! icon_filename size = Some (icon_bytes size).

(** The process has exited with status 0 and the icons of [l] are in their
    files. *)
Definition finished (l : list Z) (c : config) : Prop :=
  (exists w, c = Exited 0 w) /\ Forall (fun size => written size c) l.

Implicit Types (c : config) (l todo : list Z) (w : World) (size : Z).

(** ** Laws of inevitability *)

Lemma eventually_weaken {A} (R : relation A) (P Q : A -> Prop) a :
  (forall b, P b -> Q b) -> eventually R P a -> eventually R Q a.
Proof.
  intros HPQ. induction 1 as [a Ha|a Hex _ IH];
    [apply eventually_now; auto | apply eventually_later; auto].
Qed.

(** What is inevitable is reached by some run. *)
Lemma eventually_rtc {A} (R : relation A) (P : A -> Prop) a :
  eventually R P a -> exists b, rtc R a b /\ P b.
Proof.
  induction 1 as [a Ha|a [b Hb] _ IH]; [by exists a|].
  destruct (IH b Hb) as (b' & Hbb' & HP). exists b'.
  split; [by eapply rtc_l | done].
Qed.

(** A stable property reached on the way still holds at the end. *)
Lemma stable_rtc {A} (R : relation A) (P : A -> Prop) a b :
  stable R P -> rtc R a b -> P a -> P b.
Proof. intros Hst. induction 1; eauto. Qed.

(** ** One step of the driver *)

(** The driver is deterministic: what holds after its step is
    inevitable. *)
Lemma eventually_next (P : config -> Prop) c c' :
  next c = Some c' -> eventually step P c' -> eventually step P c.
Proof.
  intros Hn%step_iff_next H. apply eventually_later; [by exists c'|].
  intros c'' Hs. by rewrite (step_deterministic _ _ _ Hs Hn).
Qed.

Lemma next_makeable size rest w :
  makeable w size ->
  next (Running (size :: rest) w)
  = Some (Running rest (icon_world size (icon_filename size) w)).
Proof. intros Hm. simpl. by rewrite create_icon_makeable. Qed.

Lemma makeable_icon_world w size size' :
  makeable w size' ->
  makeable (icon_world size (icon_filename size) w) size'.
Proof. done. Qed.

(** A call that raises for a size whose raster the encoder takes has not
    come as far as the encoder: it leaves the files alone. *)
Lemma failed_world_encodes size w :
  encodes size -> ~ makeable w size ->
  failed_world size (icon_filename size) w = w.
Proof.
  intros He Hnot. unfold failed_world.
  destruct (Z.ltb_spec size 0); [done|].
  destruct (measurable (chosen_font size)) eqn:Hm; cbn [negb]; [|done].
  case_bool_decide; [done|]. by destruct Hnot.
Qed.

(** A step changes a file only by putting the icon of its size there, or
    by failing to encode the raster of its size. *)
Lemma written_stable size : stable step (written size).
Proof.
  intros c c' Hs [He Hf]. split; [done|]. revert Hf.
  destruct Hs as [s rest w w' H|s rest e w w' H|w]; simpl; [| |done].
  - apply create_icon_Ret_inv in H as [_ ->]. simpl.
    destruct (decide (s = size)) as [->|Hne]; [by rewrite lookup_insert_eq|].
    rewrite lookup_insert_ne; [done|]. by intros ?%(inj icon_filename).
  - apply create_icon_Raise_inv in H as [(-> & _) Hnot].
    destruct (decide (s = size)) as [->|Hne];
      [by rewrite failed_world_encodes|].
    destruct (failed_world_frame s (icon_filename s) w) as (_ & _ & _ & Hf).
    rewrite Hf; [done|]. by intros ?%(inj icon_filename).
Qed.

(** ** Every icon that can be made is made *)

(** The loop over sizes that can all be made runs to its end. *)
Lemma eventually_all_made todo w :
  Forall (makeable w) todo ->
  eventually step (eq (Exited 0 (icons_world todo w))) (Running todo w).
Proof.
  revert w. induction todo as [|size rest IH]; intros w Hm.
  - eapply eventually_next; [done|]. by apply eventually_now.
  - apply Forall_cons in Hm as [Hs Hm].
    eapply eventually_next; [by apply next_makeable|].
    apply IH. eapply Forall_impl; [exact Hm|].
    intros s. apply makeable_icon_world.
Qed.

(** ** What a run cannot avoid *)



(** C35: an icon made stays made.  Once the icon of a size is in its file
    it is there at every later point of the run: no later iteration
    overwrites it with anything else, and a later failure, which may cut
    down the file of its own size, leaves it alone. *)
Theorem written_persists size c c' :
  rtc step c c' -> written size c -> written size c'.
Proof. apply stable_rtc, written_stable. Qed.


End Liveness.

(** ** The guarantees at concrete inputs *)

Section Examples.
#[local] Existing Instance stored_codec.

Lemma sizes_makeable : Forall (makeable (FS:=toy_mac) empty_world) sizes.
Proof.
  apply Forall_forall. intros size Hin.
  apply icon_size_makeable; [| |apply not_elem_of_empty].
  - by apply (proj1 (Forall_forall _ _) sizes_icon_size).
  - by apply (proj1 (Forall_forall _ _) sizes_measured_mac).
Qed.


Lemma written_persists_witness :
  written (FS:=toy_mac) 16
    (Running []
       (icon_world (FS:=toy_mac) 32 "icon32.png"
          (icon_world (FS:=toy_mac) 16 "icon16.png" empty_world))).
Proof.
  apply (written_persists (FS:=toy_mac) 16
           (Running [32]
              (icon_world (FS:=toy_mac) 16 "icon16.png" empty_world))).
  - apply rtc_once, step_next.
    apply run_create_icon; [lia | reflexivity | apply not_elem_of_empty].
  - split; [by eexists | apply lookup_insert_eq].
Defined.


End Examples.
